(** * User authentication service: store adapter (db.py) and Auth (auth.py)

    A shallow embedding of [0x03-user_authentication_service].  Python
    objects are dynamically typed, so attribute values are a small sum type;
    the SQLAlchemy session is the list of rows it iterates over, in insertion
    order; exceptions are an error sum threaded through a state monad whose
    state survives a raise (a Python exception does not roll the session's
    objects back).  The Flask routes of app.py and the HTTP test of main.py
    are callers of [Auth].  [bcrypt] and [uuid] are interfaces with stated
    assumptions; so is what user.py declares beside the five columns of a
    [User], since user.py is not among the sources. *)

From Stdlib Require Import String Ascii List ZArith Lia Bool Arith.
From Stdlib Require Import DecimalString DecimalNat.
Import ListNotations.

Open Scope string_scope.
Open Scope list_scope.
Open Scope Z_scope.

(* ------------------------------------------------------------------ *)
(** ** Python values *)

(** [bytes] objects are sequences of octets, as Rocq strings are. *)
Definition bytes := string.

(** The values the service stores in, or compares with, a [User]
    attribute: [None], an [int], a [str] or a [bytes] object; any other
    object (a table, a mapper, a method, a class) is known by its identity
    only. *)
Inductive value : Type :=
| VNone
| VInt (z : Z)
| VStr (s : string)
| VBytes (b : bytes)
| VObject (o : nat).

(** Python's [==] on those values: values of different types are never
    equal, [None == None] holds, an object without [__eq__] equals itself
    only. *)
Definition py_eq (a b : value) : bool :=
  match a, b with
  | VNone, VNone => true
  | VInt x, VInt y => Z.eqb x y
  | VStr s, VStr t => String.eqb s t
  | VBytes s, VBytes t => String.eqb s t
  | VObject i, VObject j => Nat.eqb i j
  | _, _ => false
  end.

(** [str.encode()]: a [str] is kept as its UTF-8 octets, so encoding keeps
    the representation. *)
Definition encode (s : string) : bytes := s.

(** The exceptions the two modules raise or let through.  [IntegrityError]
    is what the session's [commit()] raises when the table refuses a row;
    [TypeError] and [AttributeError] are what an assignment to an attribute
    that is no column can raise. *)
Inductive exn : Type :=
| NoResultFound
| InvalidRequestError
| ValueError (msg : string)
| TypeError
| AttributeError
| IntegrityError.

(* ------------------------------------------------------------------ *)
(** ** The User model *)

(** Modelled from the spec: user.py (the [User] class and [Base]) is not
    among the source files.  The data model gives a [User] five attributes:
    [id], [email], [hashedPassword], [sessionToken], [resetToken]; the code
    reads and writes them as [id], [email], [hashed_password], [session_id]
    and [reset_token].  A row holds those five; what else a [User] object
    carries is in [UserClass] below. *)
Record User : Type := mkUser {
  id : value;
  email : value;
  hashed_password : value;
  session_id : value;
  reset_token : value
}.

(** The five columns. *)
Definition columns : list string :=
  ["id"; "email"; "hashed_password"; "session_id"; "reset_token"].

(** Modelled from the spec: what else user.py declares is not known, so it
    is a parameter of the model.
    - [class_dict]: the entries of [User.__dict__] beside the five columns,
      each with what [getattr(user, name)] reads for it on a row.  Python
      puts [__module__] and [__doc__] in the namespace of every class; the
      declarative base adds entries of its own ([__tablename__],
      [__table__], [__mapper__], ...).
    - [inherited]: the other names a [User] object has ([hasattr]) without
      their being in [User.__dict__]: what comes from [Base] and [object]
      ([metadata], [__class__], [__dict__], ...).
    - [assigns name v]: the exception [setattr(user, name, v)] raises for a
      name that is no column, if it raises one ([__class__] refuses a value
      that is no class).
    - [storable column v]: whether the column takes [v] and gives it back
      as it is, by its type and nullability.  The data model (section 3 of the spec) makes [email] a
      string, [hashedPassword] a byte sequence, [sessionToken] and
      [resetToken] optional strings: those the columns take. *)
Class UserClass : Type := {
  class_dict : list (string * (User -> value));
  inherited : list string;
  assigns : string -> value -> option exn;
  storable : string -> value -> bool;
  class_dict_module : In "__module__" (map fst class_dict);
  class_dict_doc : In "__doc__" (map fst class_dict);
  storable_email : forall e, storable "email" (VStr e) = true;
  storable_hashed_password :
    forall h, storable "hashed_password" (VBytes h) = true;
  storable_session_id :
    forall s, storable "session_id" (VStr s) = true;
  storable_no_session_id : storable "session_id" VNone = true;
  storable_reset_token :
    forall s, storable "reset_token" (VStr s) = true;
  storable_no_reset_token : storable "reset_token" VNone = true
}.

Section WithUserClass.

Context {user_py : UserClass}.

(** The names [key in User.__dict__] holds for. *)
Definition User_dict : list string := columns ++ map fst class_dict.

Definition in_User_dict (key : string) : bool :=
  existsb (String.eqb key) User_dict.

(** An entry of the class namespace, read on the row [u]. *)
Fixpoint class_getattr (d : list (string * (User -> value))) (u : User)
    (key : string) : option value :=
  match d with
  | [] => None
  | (name, read) :: rest =>
      if String.eqb key name then Some (read u) else class_getattr rest u key
  end.

(** [getattr(user, key)] for a name of the class namespace: a column of the
    row, or an entry of the class. *)
Definition getattr (u : User) (key : string) : option value :=
  if String.eqb key "id" then Some (id u)
  else if String.eqb key "email" then Some (email u)
  else if String.eqb key "hashed_password" then Some (hashed_password u)
  else if String.eqb key "session_id" then Some (session_id u)
  else if String.eqb key "reset_token" then Some (reset_token u)
  else class_getattr class_dict u key.

(** [hasattr(user, key)]: the columns, the entries of the class, and the
    names the object has from [Base] and [object]. *)
Definition hasattr (u : User) (key : string) : bool :=
  match getattr u key with
  | Some _ => true
  | None => existsb (String.eqb key) inherited
  end.

(** [setattr(user, key, value)] on an attribute the object has: the row
    after the assignment.  A column is written in the row; an assignment to
    any other name writes no column, it is made on the Python object. *)
Definition setattr (u : User) (key : string) (v : value) : User :=
  if String.eqb key "id" then
    mkUser v (email u) (hashed_password u) (session_id u) (reset_token u)
  else if String.eqb key "email" then
    mkUser (id u) v (hashed_password u) (session_id u) (reset_token u)
  else if String.eqb key "hashed_password" then
    mkUser (id u) (email u) v (session_id u) (reset_token u)
  else if String.eqb key "session_id" then
    mkUser (id u) (email u) (hashed_password u) v (reset_token u)
  else if String.eqb key "reset_token" then
    mkUser (id u) (email u) (hashed_password u) (session_id u) v
  else u.

(** The exception [setattr(user, key, value)] raises, if it raises one: a
    column takes any value, the flush comes later. *)
Definition setattr_raises (key : string) (v : value) : option exn :=
  if existsb (String.eqb key) columns then None else assigns key v.

(** Modelled from the spec: the table is keyed by [id] and has a uniqueness
    constraint on [email] (section 6).  [takes others key v]: whether the
    table takes [v] in column [key] of a row written beside the rows
    [others]. *)
Definition takes (others : list User) (key : string) (v : value) : bool :=
  storable key v &&
  if String.eqb key "id" then
    negb (existsb (fun o => py_eq (id o) v) others)
  else if String.eqb key "email" then
    negb (existsb (fun o => py_eq (email o) v) others)
  else true.

(** One column of a flush: nothing is sent for a column whose value did not
    change. *)
Definition written (others : list User) (key : string) (old new : value)
  : bool :=
  py_eq old new || takes others key new.

(** Whether the table takes the row [u'] in the place of [u]. *)
Definition flushes (others : list User) (u u' : User) : bool :=
  written others "id" (id u) (id u') &&
  written others "email" (email u) (email u') &&
  written others "hashed_password" (hashed_password u) (hashed_password u') &&
  written others "session_id" (session_id u) (session_id u') &&
  written others "reset_token" (reset_token u) (reset_token u').

End WithUserClass.

(** Keyword arguments: a dict in call order. *)
Definition kwargs := list (string * value).

(* ------------------------------------------------------------------ *)
(** ** The world: rows, store calls, entropy *)

(** One entry per call of a [DB] method. *)
Inductive db_call : Type :=
| CallAddUser (email hashed_password : value)
| CallFindUserBy (kw : kwargs)
| CallUpdateUser (user_id : value) (kw : kwargs).

(** [users]: the rows of the table, in the order the session's query
    yields them (insertion order; no row is ever deleted).  A row's position
    is the identity of its Python object.  [calls]: the [DB] methods called
    so far.  [draws]: how many random values (salts, UUIDs) were drawn.
    The session is one that works: after a [commit()] the table refused it
    has to be rolled back, which db.py never does, and what later calls do
    on it is not part of the model. *)
Record World : Type := mkWorld {
  users : list User;
  calls : list db_call;
  draws : nat
}.

Definition set_users (us : list User) (w : World) : World :=
  mkWorld us (calls w) (draws w).

Definition log_call (c : db_call) (w : World) : World :=
  mkWorld (users w) (calls w ++ [c]) (draws w).

(** Computations that may raise; the world is kept when they do. *)
Definition M (A : Type) : Type := World -> (exn + A) * World.

Definition ret {A} (a : A) : M A := fun w => (inr a, w).

Definition raise {A} (e : exn) : M A := fun w => (inl e, w).

Definition bind {A B} (m : M A) (k : A -> M B) : M B :=
  fun w =>
    match m w with
    | (inl e, w') => (inl e, w')
    | (inr a, w') => k a w'
    end.

(** [try: m  except e: h] for one exception class. *)
Definition try_except {A} (m : M A) (is_e : exn -> bool) (h : M A) : M A :=
  fun w =>
    match m w with
    | (inl e, w') => if is_e e then h w' else (inl e, w')
    | (inr a, w') => (inr a, w')
    end.

Definition is_NoResultFound (e : exn) : bool :=
  match e with NoResultFound => true | _ => false end.

Notation "x <- m ;; k" := (bind m (fun x => k))
  (at level 61, m at next level, right associativity).
Notation "m ;;; k" := (bind m (fun _ => k))
  (at level 61, right associativity).

Definition result {A} (m : M A) (w : World) : exn + A := fst (m w).
Definition after {A} (m : M A) (w : World) : World := snd (m w).

(* ------------------------------------------------------------------ *)
(** ** db.py *)

Module DB.
Section WithUserClass.

Context {user_py : UserClass}.

(** Modelled from the spec: the identifier the store assigns at creation is
    one more than the largest integer identifier in the table. *)
Fixpoint max_id (us : list User) : Z :=
  match us with
  | [] => 0
  | u :: rest =>
      match id u with
      | VInt z => Z.max z (max_id rest)
      | _ => max_id rest
      end
  end.

(** [DB.add_user]: a new row with null [session_id] and [reset_token].
    [commit()] raises [IntegrityError] when the table does not take the
    row, and nothing is inserted. *)
Definition add_user (email hashed_password : value) : M User :=
  fun w =>
    let new_user :=
      mkUser (VInt (max_id (users w) + 1)) email hashed_password VNone VNone in
    if takes (users w) "email" email &&
       takes (users w) "hashed_password" hashed_password
    then
      (inr new_user,
       log_call (CallAddUser email hashed_password)
         (set_users (users w ++ [new_user]) w))
    else
      (inl IntegrityError, log_call (CallAddUser email hashed_password) w).

(** The inner loop of [find_user_by]: the position of the first row whose
    attribute [key] equals [v]. *)
Fixpoint first_match (key : string) (v : value) (us : list User)
  : option nat :=
  match us with
  | [] => None
  | u :: rest =>
      match getattr u key with
      | Some a =>
          if py_eq a v then Some O
          else option_map S (first_match key v rest)
      | None => option_map S (first_match key v rest)
      end
  end.

(** The outer loop of [find_user_by] over [kwargs.items()]. *)
Fixpoint find_loop (all_users : list User) (kw : kwargs) : exn + nat :=
  match kw with
  | [] => inl NoResultFound
  | (key, v) :: rest =>
      if negb (in_User_dict key) then inl InvalidRequestError
      else
        match first_match key v all_users with
        | Some i => inr i
        | None => find_loop all_users rest
        end
  end.

(** [find_user_by] as a reference to the row found. *)
Definition find_ref (kw : kwargs) : M nat :=
  fun w => (find_loop (users w) kw, log_call (CallFindUserBy kw) w).

Definition deref (i : nat) : M User :=
  fun w =>
    match nth_error (users w) i with
    | Some u => (inr u, w)
    | None => (inl NoResultFound, w)
    end.

(** [DB.find_user_by]. *)
Definition find_user_by (kw : kwargs) : M User :=
  i <- find_ref kw ;; deref i.

(** The [for key, value in kwargs.items()] loop of [update_user] on the
    object [u]: attributes are assigned one by one, and the assignments
    made before an exception stay on the object. *)
Fixpoint set_attrs (u : User) (kw : kwargs) : (exn + unit) * User :=
  match kw with
  | [] => (inr tt, u)
  | (key, v) :: rest =>
      if hasattr u key then
        match setattr_raises key v with
        | Some e => (inl e, u)
        | None => set_attrs (setattr u key v) rest
        end
      else (inl (ValueError ""), u)
  end.

Fixpoint replace_nth {A} (i : nat) (a : A) (l : list A) : list A :=
  match l, i with
  | [], _ => []
  | _ :: rest, O => a :: rest
  | x :: rest, S j => x :: replace_nth j a rest
  end.

(** The rows beside the one at position [i]. *)
Definition others {A} (i : nat) (l : list A) : list A :=
  firstn i l ++ skipn (S i) l.

(** The loop of [update_user] and its [commit()] on the row at position
    [i].  When the loop raises, nothing is committed and the object keeps
    what was assigned.  When the table refuses the row, [commit()] raises
    [IntegrityError] and the row stays as it was. *)
Definition mutate (i : nat) (kw : kwargs) : M unit :=
  fun w =>
    match nth_error (users w) i with
    | Some u =>
        match set_attrs u kw with
        | (inr tt, u') =>
            if flushes (others i (users w)) u u' then
              (inr tt, set_users (replace_nth i u' (users w)) w)
            else (inl IntegrityError, w)
        | (inl e, u') =>
            (inl e, set_users (replace_nth i u' (users w)) w)
        end
    | None => (inr tt, w)
    end.

(** [DB.update_user]: the lookup by [id] raises [NoResultFound] itself (the
    [try] around the bare name [user] catches nothing). *)
Definition update_user (user_id : value) (kw : kwargs) : M unit :=
  fun w =>
    (i <- find_ref [("id", user_id)] ;; mutate i kw)
      (log_call (CallUpdateUser user_id kw) w).

End WithUserClass.
End DB.

(* ------------------------------------------------------------------ *)
(** ** The libraries auth.py imports *)

(** [bcrypt]: [gensalt n] is the salt the [n]-th random draw yields,
    [hashpw password salt] the digest, [checkpw password hashed] the check
    of a password against a digest. *)
Class Bcrypt : Type := {
  gensalt : nat -> bytes;
  hashpw : bytes -> bytes -> bytes;
  checkpw : bytes -> bytes -> bool
}.

(** [uuid]: [uuid4 n] is [str(uuid4())] at the [n]-th random draw. *)
Class Uuid : Type := {
  uuid4 : nat -> string
}.

(** One random draw. *)
Definition draw {A} (f : nat -> A) : M A :=
  fun w => (inr (f (draws w)), mkWorld (users w) (calls w) (S (draws w))).

(** [try: x = m  except e: h] followed by the rest of the function, [k x]. *)
Definition try_except_else {A B} (m : M A) (is_e : exn -> bool)
  (h : M B) (k : A -> M B) : M B :=
  fun w =>
    match m w with
    | (inl e, w') => if is_e e then h w' else (inl e, w')
    | (inr a, w') => k a w'
    end.

(* ------------------------------------------------------------------ *)
(** ** auth.py *)

Module Auth.
Section WithLibraries.

Context {user_py : UserClass} {bcrypt : Bcrypt} {uuid : Uuid}.

Definition _hash_password (password : string) : M value :=
  salt <- draw gensalt ;;
  ret (VBytes (hashpw (encode password) salt)).

Definition _generate_uuid : M string := draw uuid4.

Definition register_user (email password : string) : M User :=
  try_except
    (DB.find_user_by [("email", VStr email)] ;;;
     raise (ValueError ("User " ++ email ++ " already exists")%string))
    is_NoResultFound
    (hashed_password <- _hash_password password ;;
     DB.add_user (VStr email) hashed_password).

(** [bcrypt.checkpw] accepts [bytes] only. *)
Definition bcrypt_checkpw (password : bytes) (hashed : value) : M bool :=
  match hashed with
  | VBytes h => ret (checkpw password h)
  | _ => raise TypeError
  end.

Definition valid_login (email password : string) : M bool :=
  try_except_else
    (DB.find_user_by [("email", VStr email)])
    is_NoResultFound
    (ret false)
    (fun user =>
       let user_pwd := hashed_password user in
       bcrypt_checkpw (encode password) user_pwd).

Definition create_session (email : string) : M (option string) :=
  try_except_else
    (DB.find_user_by [("email", VStr email)])
    is_NoResultFound
    (ret None)
    (fun user =>
       session_id <- _generate_uuid ;;
       DB.update_user (id user) [("session_id", VStr session_id)] ;;;
       ret (Some session_id)).

Definition get_user_from_session_id (session_id : value) : M (option User) :=
  match session_id with
  | VNone => ret None
  | _ =>
      try_except
        (user <- DB.find_user_by [("session_id", session_id)] ;;
         ret (Some user))
        is_NoResultFound
        (ret None)
  end.

Definition destroy_session (user_id : value) : M unit :=
  try_except
    (user <- DB.find_user_by [("id", user_id)] ;;
     DB.update_user (id user) [("session_id", VNone)])
    is_NoResultFound
    (ret tt).

Definition get_reset_password_token (email : string) : M string :=
  try_except_else
    (DB.find_user_by [("email", VStr email)])
    is_NoResultFound
    (raise (ValueError "User not found"))
    (fun user =>
       reset_token <- _generate_uuid ;;
       DB.update_user (id user) [("reset_token", VStr reset_token)] ;;;
       ret reset_token).

Definition update_password (reset_token : value) (password : string)
  : M unit :=
  try_except_else
    (DB.find_user_by [("reset_token", reset_token)])
    is_NoResultFound
    (raise (ValueError "User not found"))
    (fun user =>
       hashed_pwd <- _hash_password password ;;
       DB.update_user (id user)
         [("hashed_password", hashed_pwd); ("reset_token", VNone)]).

End WithLibraries.
End Auth.

(* ------------------------------------------------------------------ *)
(** ** app.py *)

Definition is_ValueError (e : exn) : bool :=
  match e with ValueError _ => true | _ => false end.

Module App.

(** The JSON the views send: objects whose members are strings, numbers
    or [null]. *)
Inductive json_value : Type :=
| JNull
| JNumber (z : Z)
| JString (s : string).

Definition json := list (string * json_value).

(** What a view answers: the status, the JSON body if there is one (an
    [abort] page and a redirect have none), the cookie set, and the
    [Location] of a redirect. *)
Record Response : Type := mkResponse {
  status_code : Z;
  payload : option json;
  cookie : option (string * string);
  location : option string
}.

(** [request.form] and [request.cookies]. *)
Record Request : Type := mkRequest {
  form : list (string * string);
  cookies : list (string * string)
}.

(** [d.get(key)]: the first value under [key], or [None]. *)
Fixpoint get (d : list (string * string)) (key : string) : option string :=
  match d with
  | [] => None
  | (k, v) :: rest => if String.eqb k key then Some v else get rest key
  end.

(** [not x] for [x] a [str] or [None]. *)
Definition falsy (x : option string) : bool :=
  match x with
  | None => true
  | Some s => String.eqb s ""
  end.

(** A value that passed the [not x] guard is a [str]. *)
Definition str_of (x : option string) : string :=
  match x with Some s => s | None => "" end.

Definition to_value (x : option string) : value :=
  match x with Some s => VStr s | None => VNone end.

Definition to_json (x : option string) : json_value :=
  match x with Some s => JString s | None => JNull end.

(** [jsonify] on an attribute of a [User]: [bytes] and other objects are
    not serializable. *)
Definition jsonify_value (v : value) : M json_value :=
  match v with
  | VNone => ret JNull
  | VInt z => ret (JNumber z)
  | VStr s => ret (JString s)
  | VBytes _ | VObject _ => raise TypeError
  end.

(** [jsonify(...), status]. *)
Definition jsonify (status : Z) (j : json) : Response :=
  mkResponse status (Some j) None None.

(** [abort(code)]: the view stops with that status. *)
Definition abort (code : Z) : Response := mkResponse code None None None.

Definition redirect (target : string) : Response :=
  mkResponse 302 None None (Some target).

(** What Flask answers when a view lets an exception through. *)
Definition internal_server_error : Response := abort 500.

Definition handle (view : M Response) (w : World) : Response * World :=
  match view w with
  | (inr r, w') => (r, w')
  | (inl _, w') => (internal_server_error, w')
  end.

(** What [AUTH.update_password] ends with when the view calls it. *)
Inductive outcome : Type :=
| Returned
| AttributeError.

Section WithLibraries.

Context {user_py : UserClass} {bcrypt : Bcrypt} {uuid : Uuid}.

Definition welcome : M Response :=
  ret (jsonify 200 [("message", JString "Bienvenue")]).

Definition users (request : Request) : M Response :=
  let form_email := get (form request) "email" in
  let form_password := get (form request) "password" in
  if falsy form_email || falsy form_password then
    ret (jsonify 400 [("message", JString "email and password required")])
  else
    try_except
      (new_user <- Auth.register_user (str_of form_email)
                     (str_of form_password) ;;
       new_email <- jsonify_value (email new_user) ;;
       ret (jsonify 200 [("email", new_email);
                         ("message", JString "user created")]))
      is_ValueError
      (ret (jsonify 400 [("message", JString "email already registered")])).

Definition login (request : Request) : M Response :=
  let form_email := get (form request) "email" in
  let form_password := get (form request) "password" in
  if falsy form_email || falsy form_password then
    ret (jsonify 400 [("message", JString "email and password required")])
  else
    valid <- Auth.valid_login (str_of form_email) (str_of form_password) ;;
    if negb valid then ret (abort 401)
    else
      session_id <- Auth.create_session (str_of form_email) ;;
      if falsy session_id then ret (abort 401)
      else
        ret (mkResponse 200
               (Some [("email", JString (str_of form_email));
                      ("message", JString "logged in")])
               (Some ("session_id", str_of session_id))
               None).

Definition logout (request : Request) : M Response :=
  let session_id := get (cookies request) "session_id" in
  user <- Auth.get_user_from_session_id (to_value session_id) ;;
  match user, session_id with
  | Some u, Some _ =>
      Auth.destroy_session (id u) ;;;
      ret (redirect "/")
  | _, _ => ret (abort 403)
  end.

Definition profile (request : Request) : M Response :=
  let session_id := get (cookies request) "session_id" in
  if falsy session_id then ret (abort 403)
  else
    user <- Auth.get_user_from_session_id (to_value session_id) ;;
    match user with
    | None => ret (abort 403)
    | Some u =>
        user_email <- jsonify_value (email u) ;;
        ret (jsonify 200 [("email", user_email)])
    end.

Definition get_reset_password_token (request : Request) : M Response :=
  let form_email := get (form request) "email" in
  if falsy form_email then
    ret (jsonify 400 [("message", JString "email required")])
  else
    try_except
      (reset_token <- Auth.get_reset_password_token (str_of form_email) ;;
       ret (jsonify 200 [("email", to_json form_email);
                         ("reset_token", JString reset_token)]))
      is_ValueError
      (ret (abort 403)).

(** [AUTH.update_password(reset_token, new_password)] with the form's
    values, which may be [None].  With [new_password] [None], the lookup
    runs first, then [_hash_password] draws a salt and [password.encode()]
    raises [AttributeError]. *)
Definition call_update_password (reset_token new_password : option string)
  : M outcome :=
  match new_password with
  | Some password =>
      Auth.update_password (to_value reset_token) password ;;;
      ret Returned
  | None =>
      try_except_else
        (DB.find_user_by [("reset_token", to_value reset_token)])
        is_NoResultFound
        (raise (ValueError "User not found"))
        (fun user =>
           salt <- draw gensalt ;;
           ret AttributeError)
  end.

Definition update_password (request : Request) : M Response :=
  let form_email := get (form request) "email" in
  let reset_token := get (form request) "reset_token" in
  let new_password := get (form request) "new_password" in
  try_except_else
    (call_update_password reset_token new_password)
    is_ValueError
    (ret (abort 403))
    (fun o =>
       match o with
       | Returned =>
           ret (jsonify 200 [("email", to_json form_email);
                             ("message", JString "Password updated")])
       | AttributeError => ret internal_server_error
       end).

End WithLibraries.
End App.

(* ------------------------------------------------------------------ *)
(** ** A small instance of the libraries, to run the model *)

Module Toy.

(** A digest keeps one octet of salt in front of the password. *)
Definition salt_octet (salt : bytes) : ascii :=
  match salt with
  | EmptyString => "."%char
  | String c _ => c
  end.

Definition toy_hashpw (password salt : bytes) : bytes :=
  String "$" (String (salt_octet salt) password).

Definition toy_checkpw (password hashed : bytes) : bool :=
  match hashed with
  | String "$" (String c rest) => String.eqb rest password
  | _ => false
  end.

Definition nat_str (n : nat) : string :=
  NilEmpty.string_of_uint (Nat.to_uint n).

#[export] Instance toy_bcrypt : Bcrypt := {|
  gensalt := fun n => nat_str n;
  hashpw := toy_hashpw;
  checkpw := toy_checkpw
|}.

#[export] Instance toy_uuid : Uuid := {|
  uuid4 := fun n => ("uuid-" ++ nat_str n)%string
|}.

(** A [User] class with a table name and no docstring, whose columns take
    the types of the data model. *)
Definition toy_class_dict : list (string * (User -> value)) :=
  [("__module__", fun _ => VStr "user");
   ("__doc__", fun _ => VNone);
   ("__tablename__", fun _ => VStr "users");
   ("__table__", fun _ => VObject 0);
   ("__mapper__", fun _ => VObject 1)].

Definition toy_assigns (key : string) (v : value) : option exn :=
  if String.eqb key "__class__" then Some TypeError
  else if String.eqb key "__dict__" then Some TypeError
  else None.

Definition toy_storable (key : string) (v : value) : bool :=
  if String.eqb key "id" then
    match v with VInt _ => true | _ => false end
  else if String.eqb key "email" then
    match v with VStr _ => true | _ => false end
  else if String.eqb key "hashed_password" then
    match v with VBytes _ => true | _ => false end
  else
    match v with VNone | VStr _ => true | _ => false end.

#[export] Instance toy_user : UserClass := {|
  class_dict := toy_class_dict;
  inherited := ["__class__"; "__dict__"; "metadata"];
  assigns := toy_assigns;
  storable := toy_storable;
  class_dict_module := or_introl eq_refl;
  class_dict_doc := or_intror (or_introl eq_refl);
  storable_email := fun _ => eq_refl;
  storable_hashed_password := fun _ => eq_refl;
  storable_session_id := fun _ => eq_refl;
  storable_no_session_id := eq_refl;
  storable_reset_token := fun _ => eq_refl;
  storable_no_reset_token := eq_refl
|}.

Definition empty : World := mkWorld [] [] O.

End Toy.

(* ------------------------------------------------------------------ *)
(** ** Vocabulary of the statements *)

(** Whether row [u] is one [find_user_by(key=v)] stops at. *)
Definition matches {user_py : UserClass} (key : string) (v : value)
    (u : User) : bool :=
  match getattr u key with
  | Some a => py_eq a v
  | None => false
  end.

(** The primary-key constraint of the table. *)
Definition unique_ids (us : list User) : Prop := NoDup (map id us).

(** The value the keyword arguments give attribute [a], if they name it. *)
Fixpoint assigned (kw : kwargs) (a : string) : option value :=
  match kw with
  | [] => None
  | (k, v) :: rest =>
      match assigned rest a with
      | Some v' => Some v'
      | None => if String.eqb k a then Some v else None
      end
  end.

(** Assumptions on the [bcrypt] library. *)
Definition verifies_own_digest (B : Bcrypt) : Prop :=
  forall password salt, checkpw password (hashpw password salt) = true.


Definition digest_nonempty (B : Bcrypt) : Prop :=
  forall password salt, hashpw password salt <> "".

Definition digest_not_input (B : Bcrypt) : Prop :=
  forall password salt, hashpw password salt <> password.

(** Assumption on [uuid4]: two draws never give the same UUID. *)
Definition uuid4_injective (U : Uuid) : Prop :=
  forall i j : nat, uuid4 i = uuid4 j -> i = j.

(** The tokens ([session_id] or [reset_token], as [f] says) that are set. *)
Definition set_tokens (f : User -> value) (us : list User) : list value :=
  filter (fun v => negb (py_eq v VNone)) (map f us).

(** No two rows share a token that is set. *)
Definition distinct_tokens (f : User -> value) (us : list User) : Prop :=
  NoDup (set_tokens f us).

Section Reachability.

Context {user_py : UserClass} {bcrypt : Bcrypt} {uuid : Uuid}.

(** A call of one of the methods of [Auth]. *)
Inductive request : Type :=
| Register (e p : string)
| ValidLogin (e p : string)
| CreateSession (e : string)
| GetUserFromSessionId (sid : value)
| DestroySession (user_id : value)
| GetResetPasswordToken (e : string)
| UpdatePassword (tok : value) (p : string).

(** The world a call leaves, whether it returns or raises. *)
Definition serve (r : request) (w : World) : World :=
  match r with
  | Register e p => after (Auth.register_user e p) w
  | ValidLogin e p => after (Auth.valid_login e p) w
  | CreateSession e => after (Auth.create_session e) w
  | GetUserFromSessionId sid => after (Auth.get_user_from_session_id sid) w
  | DestroySession user_id => after (Auth.destroy_session user_id) w
  | GetResetPasswordToken e => after (Auth.get_reset_password_token e) w
  | UpdatePassword tok p => after (Auth.update_password tok p) w
  end.

(** [DB()] starts from an empty table. *)
Inductive reachable : World -> Prop :=
| reachable_init (d : nat) : reachable (mkWorld [] [] d)
| reachable_step (r : request) (w : World) :
    reachable w -> reachable (serve r w).

(** Every stored [hashed_password] is a digest [hashpw] made. *)
Definition stores_digests (us : list User) : Prop :=
  forall u, In u us ->
    exists password salt,
      hashed_password u = VBytes (hashpw (encode password) salt).

(** A token is [None] or one of the first [d] values drawn. *)
Definition drawn (d : nat) (v : value) : Prop :=
  v = VNone \/ exists k, (k < d)%nat /\ v = VStr (uuid4 k).

Definition tokens_drawn (w : World) : Prop :=
  forall x, In x (users w) ->
    drawn (draws w) (session_id x) /\ drawn (draws w) (reset_token x).

(** The store's tokens: drawn earlier, and shared by no two rows. *)
Definition tokens_ok (w : World) : Prop :=
  tokens_drawn w /\
  distinct_tokens session_id (users w) /\
  distinct_tokens reset_token (users w).

End Reachability.

(** The uniqueness of emails that [register_user] checks for. *)
Definition unique_emails (us : list User) : Prop := NoDup (map email us).

(** The calls that write no [email] and no [hashed_password]. *)
Definition keeps_credentials (r : request) : bool :=
  match r with
  | Register _ _ | UpdatePassword _ _ => false
  | _ => true
  end.

(** Rows that agree on identity, email and session. *)
Definition same_session (x y : User) : Prop :=
  id x = id y /\ email x = email y /\ session_id x = session_id y.

(** Rows that agree on email and password. *)
Definition same_credentials (x y : User) : Prop :=
  email x = email y /\ hashed_password x = hashed_password y.

(** The statuses a view answers with when it handles the request itself;
    500 is what Flask answers for an exception the view lets through. *)
Definition answered (r : App.Response) : Prop :=
  In (App.status_code r) [200; 302; 400; 401; 403].

(** Concrete stores. *)
Definition alice : User :=
  mkUser (VInt 1) (VStr "a@x.com") (VBytes "$0pw1") VNone VNone.

Definition one_user : World := mkWorld [alice] [] O.

Definition bob : User :=
  mkUser (VInt 2) (VStr "b@x.com") (VBytes "$0pw2") VNone VNone.

Definition two_users : World := mkWorld [alice; bob] [] O.

(** The store after [register_user("a@x.com", "pw1")] on an empty table. *)
Definition registered : World :=
  after (Auth.register_user (user_py := Toy.toy_user)
           (bcrypt := Toy.toy_bcrypt) "a@x.com" "pw1")
    Toy.empty.

(** The store after [create_session("a@x.com")] on [registered]. *)
Definition logged_in : World :=
  after (Auth.create_session (user_py := Toy.toy_user)
           (uuid := Toy.toy_uuid) "a@x.com") registered.

(** The form of a login of ["a@x.com"], and the cookie of its session. *)
Definition login_form : App.Request :=
  App.mkRequest [("email", "a@x.com"); ("password", "pw1")] [].

Definition session_cookie : App.Request :=
  App.mkRequest [] [("session_id", "uuid-1")].

(** The scenario of main.py, with the calls of [Auth] its requests lead to
    in app.py: register, a login with the wrong password, a login, the
    profile, a logout, the profile again, a reset token, the new password,
    a login with it. *)
Definition main_py {user_py : UserClass} {bcrypt : Bcrypt} {uuid : Uuid}
  : M (bool * bool * option User * option User * bool) :=
  let EMAIL := "guillaume@holberton.io" in
  let PASSWD := "b4l0u" in
  let NEW_PASSWD := "t4rt1fl3tt3" in
  let cookie (s : option string) :=
    match s with Some t => VStr t | None => VNone end in
  user <- Auth.register_user EMAIL PASSWD ;;
  wrong <- Auth.valid_login EMAIL NEW_PASSWD ;;
  right <- Auth.valid_login EMAIL PASSWD ;;
  session_id <- Auth.create_session EMAIL ;;
  profile <- Auth.get_user_from_session_id (cookie session_id) ;;
  Auth.destroy_session (id user) ;;;
  logged_out <- Auth.get_user_from_session_id (cookie session_id) ;;
  reset_token <- Auth.get_reset_password_token EMAIL ;;
  Auth.update_password (VStr reset_token) NEW_PASSWD ;;;
  again <- Auth.valid_login EMAIL NEW_PASSWD ;;
  ret (wrong, right, profile, logged_out, again).

(* ------------------------------------------------------------------ *)
(** ** Lookups *)

Section Lookups.

Context {user_py : UserClass}.

Lemma py_eq_eq (a b : value) : py_eq a b = true <-> a = b.
Proof.
  destruct a, b; simpl; split; intro H; try discriminate; try reflexivity.
  - apply Z.eqb_eq in H. now subst.
  - inversion H. apply Z.eqb_refl.
  - apply String.eqb_eq in H. now subst.
  - inversion H. apply String.eqb_refl.
  - apply String.eqb_eq in H. now subst.
  - inversion H. apply String.eqb_refl.
  - apply Nat.eqb_eq in H. now subst.
  - inversion H. apply Nat.eqb_refl.
Qed.

Lemma py_eq_refl (a : value) : py_eq a a = true.
Proof. now apply py_eq_eq. Qed.

Lemma py_eq_neq (a b : value) : a <> b -> py_eq a b = false.
Proof.
  intro H. destruct (py_eq a b) eqn:E; [|reflexivity].
  apply py_eq_eq in E. contradiction.
Qed.

Lemma first_match_step (key : string) (v : value) (u : User) (us : list User) :
  DB.first_match key v (u :: us) =
  if matches key v u then Some O
  else option_map S (DB.first_match key v us).
Proof.
  unfold matches. simpl. destruct (getattr u key); reflexivity.
Qed.

Lemma first_match_None (key : string) (v : value) (us : list User) :
  DB.first_match key v us = None <->
  (forall x, In x us -> matches key v x = false).
Proof.
  induction us as [|u us IH].
  - simpl. split; [intros _ x []|reflexivity].
  - rewrite first_match_step. destruct (matches key v u) eqn:E.
    + split; [discriminate|].
      intro H. rewrite (H u) in E; [discriminate|now left].
    + destruct (DB.first_match key v us) eqn:F; simpl.
      * split; [discriminate|]. intro H.
        assert (G : Some n = None); [|discriminate].
        apply IH. intros x Hx. apply H. now right.
      * split; [|reflexivity]. intros _ x [<-|Hx]; [assumption|].
        now apply IH.
Qed.

Lemma first_match_at (key : string) (v : value) (l1 l2 : list User) (u : User) :
  (forall x, In x l1 -> matches key v x = false) ->
  matches key v u = true ->
  DB.first_match key v (l1 ++ u :: l2) = Some (length l1).
Proof.
  intros H1 Hu. induction l1 as [|a l1 IH].
  - simpl app. rewrite first_match_step, Hu. reflexivity.
  - simpl app. rewrite first_match_step.
    rewrite (H1 a) by now left.
    rewrite IH; [reflexivity|]. intros x Hx. apply H1. now right.
Qed.

Lemma first_match_split (key : string) (v : value) (us : list User) (i : nat) :
  DB.first_match key v us = Some i ->
  exists l1 u l2,
    us = l1 ++ u :: l2 /\ i = length l1 /\
    matches key v u = true /\
    (forall x, In x l1 -> matches key v x = false).
Proof.
  revert i. induction us as [|a us IH]; intros i H.
  - discriminate.
  - rewrite first_match_step in H. destruct (matches key v a) eqn:E.
    + inversion H; subst. exists [], a, us. repeat split; auto.
      intros x [].
    + destruct (DB.first_match key v us) as [j|] eqn:F; [|discriminate].
      inversion H; subst.
      destruct (IH j eq_refl) as (l1 & u & l2 & -> & -> & Hu & Hl).
      exists (a :: l1), u, l2. repeat split; auto.
      intros x [<-|Hx]; auto.
Qed.

Lemma nth_error_middle {A} (l1 l2 : list A) (a : A) :
  nth_error (l1 ++ a :: l2) (length l1) = Some a.
Proof. induction l1; simpl; auto. Qed.

Lemma replace_nth_middle {A} (l1 l2 : list A) (a b : A) :
  DB.replace_nth (length l1) b (l1 ++ a :: l2) = l1 ++ b :: l2.
Proof. induction l1; simpl; congruence. Qed.

(** The first row that matches, or none. *)
Lemma first_match_cases (key : string) (v : value) (us : list User) :
  (DB.first_match key v us = None /\
   forall x, In x us -> matches key v x = false) \/
  (exists l1 u l2,
     us = l1 ++ u :: l2 /\
     DB.first_match key v us = Some (length l1) /\
     matches key v u = true /\
     forall x, In x l1 -> matches key v x = false).
Proof.
  destruct (DB.first_match key v us) as [i|] eqn:F.
  - right. destruct (first_match_split _ _ _ _ F)
      as (l1 & u & l2 & E & -> & Hu & Hl).
    exists l1, u, l2. auto.
  - left. split; [reflexivity|]. now apply first_match_None.
Qed.

(* ------------------------------------------------------------------ *)
(** ** What the [DB] methods compute *)

Lemma find_user_by_found (key : string) (v : value) (w : World)
    (l1 l2 : list User) (u : User) :
  in_User_dict key = true ->
  users w = l1 ++ u :: l2 ->
  (forall x, In x l1 -> matches key v x = false) ->
  matches key v u = true ->
  DB.find_user_by [(key, v)] w =
  (inr u, log_call (CallFindUserBy [(key, v)]) w).
Proof.
  intros Hk Hw Hl Hu.
  unfold DB.find_user_by, bind, DB.find_ref, DB.deref. simpl.
  rewrite Hk, Hw. simpl. rewrite (first_match_at _ _ _ _ _ Hl Hu).
  now rewrite nth_error_middle.
Qed.

Lemma find_user_by_missing (key : string) (v : value) (w : World) :
  in_User_dict key = true ->
  (forall x, In x (users w) -> matches key v x = false) ->
  DB.find_user_by [(key, v)] w =
  (inl NoResultFound, log_call (CallFindUserBy [(key, v)]) w).
Proof.
  intros Hk Hl. apply first_match_None in Hl.
  unfold DB.find_user_by, bind, DB.find_ref. simpl.
  now rewrite Hk, Hl.
Qed.

Lemma find_user_by_invalid (key : string) (v : value) (w : World) :
  in_User_dict key = false ->
  DB.find_user_by [(key, v)] w =
  (inl InvalidRequestError, log_call (CallFindUserBy [(key, v)]) w).
Proof.
  intros Hk. unfold DB.find_user_by, bind, DB.find_ref. simpl.
  now rewrite Hk.
Qed.

Lemma others_middle {A} (l1 l2 : list A) (a : A) :
  DB.others (length l1) (l1 ++ a :: l2) = l1 ++ l2.
Proof.
  unfold DB.others. induction l1 as [|x l1 IH]; simpl; [reflexivity|].
  now f_equal.
Qed.

(** The lookup of [update_user] found [u]: the loop runs on it, and the
    commit goes through when the table takes the row. *)
Lemma update_user_found (user_id : value) (kw : kwargs) (w : World)
    (l1 l2 : list User) (u : User) :
  users w = l1 ++ u :: l2 ->
  (forall x, In x l1 -> matches "id" user_id x = false) ->
  matches "id" user_id u = true ->
  (fst (DB.set_attrs u kw) = inr tt ->
   flushes (l1 ++ l2) u (snd (DB.set_attrs u kw)) = true) ->
  DB.update_user user_id kw w =
  (fst (DB.set_attrs u kw),
   mkWorld (l1 ++ snd (DB.set_attrs u kw) :: l2)
     ((calls w ++ [CallUpdateUser user_id kw])
        ++ [CallFindUserBy [("id", user_id)]])
     (draws w)).
Proof.
  intros Hw Hl Hu Hf.
  unfold DB.update_user, bind, DB.find_ref, DB.mutate. simpl.
  rewrite Hw, (first_match_at _ _ _ _ _ Hl Hu). simpl.
  rewrite nth_error_middle, others_middle.
  destruct (DB.set_attrs u kw) as [[e|[]] u']; simpl in *.
  - unfold set_users. simpl. rewrite replace_nth_middle. reflexivity.
  - rewrite (Hf eq_refl).
    unfold set_users. simpl. rewrite replace_nth_middle. reflexivity.
Qed.

(** The table refuses the row: [IntegrityError], and no row changes. *)
Lemma update_user_refused (user_id : value) (kw : kwargs) (w : World)
    (l1 l2 : list User) (u : User) :
  users w = l1 ++ u :: l2 ->
  (forall x, In x l1 -> matches "id" user_id x = false) ->
  matches "id" user_id u = true ->
  fst (DB.set_attrs u kw) = inr tt ->
  flushes (l1 ++ l2) u (snd (DB.set_attrs u kw)) = false ->
  DB.update_user user_id kw w =
  (inl IntegrityError,
   mkWorld (users w)
     ((calls w ++ [CallUpdateUser user_id kw])
        ++ [CallFindUserBy [("id", user_id)]])
     (draws w)).
Proof.
  intros Hw Hl Hu Hr Hf.
  unfold DB.update_user, bind, DB.find_ref, DB.mutate. simpl.
  rewrite Hw, (first_match_at _ _ _ _ _ Hl Hu). simpl.
  rewrite nth_error_middle, others_middle.
  destruct (DB.set_attrs u kw) as [[e|[]] u']; simpl in *;
    [discriminate|].
  rewrite Hf. unfold log_call. simpl. now rewrite Hw.
Qed.

Lemma update_user_missing (user_id : value) (kw : kwargs) (w : World) :
  (forall x, In x (users w) -> matches "id" user_id x = false) ->
  DB.update_user user_id kw w =
  (inl NoResultFound,
   mkWorld (users w)
     ((calls w ++ [CallUpdateUser user_id kw])
        ++ [CallFindUserBy [("id", user_id)]])
     (draws w)).
Proof.
  intros Hl. apply first_match_None in Hl.
  unfold DB.update_user, bind, DB.find_ref. simpl.
  now rewrite Hl.
Qed.

(** A column that keeps its value is not sent to the table. *)
Lemma written_same (others : list User) (key : string) (v : value) :
  written others key v v = true.
Proof. unfold written. now rewrite py_eq_refl. Qed.

(** The table takes what the methods of [Auth] write: a digest, and tokens
    that are strings or [None]; [id] and [email] are left as they are. *)
Lemma flushes_auth (others : list User) (u : User) (h s t : value) :
  (h = hashed_password u \/ exists b, h = VBytes b) ->
  (s = session_id u \/ s = VNone \/ exists x, s = VStr x) ->
  (t = reset_token u \/ t = VNone \/ exists x, t = VStr x) ->
  flushes others u (mkUser (id u) (email u) h s t) = true.
Proof.
  intros Hh Hs Ht. unfold flushes. cbn [id email hashed_password session_id
    reset_token]. rewrite !written_same. cbn [andb].
  assert (Wh : written others "hashed_password" (hashed_password u) h = true).
  { destruct Hh as [->|[b ->]]; [apply written_same|].
    unfold written, takes. rewrite storable_hashed_password. simpl.
    apply orb_true_r. }
  assert (Ws : written others "session_id" (session_id u) s = true).
  { destruct Hs as [->|[->|[x ->]]]; [apply written_same| |];
      unfold written, takes;
      rewrite ?storable_session_id, ?storable_no_session_id; simpl;
      apply orb_true_r. }
  assert (Wt : written others "reset_token" (reset_token u) t = true).
  { destruct Ht as [->|[->|[x ->]]]; [apply written_same| |];
      unfold written, takes;
      rewrite ?storable_reset_token, ?storable_no_reset_token; simpl;
      apply orb_true_r. }
  now rewrite Wh, Ws, Wt.
Qed.

(** The table takes a digest, and an email no row has. *)
Lemma takes_hashed_password (others : list User) (h : bytes) :
  takes others "hashed_password" (VBytes h) = true.
Proof. unfold takes. now rewrite storable_hashed_password. Qed.

Lemma takes_email (others : list User) (e : string) :
  (forall x, In x others -> matches "email" (VStr e) x = false) ->
  takes others "email" (VStr e) = true.
Proof.
  intro H. unfold takes. rewrite storable_email. simpl.
  apply negb_true_iff. destruct (existsb _ others) eqn:E; [|reflexivity].
  apply existsb_exists in E. destruct E as (o & Ho & Eo).
  apply H in Ho. unfold matches in Ho. simpl in Ho. congruence.
Qed.

(** Rows in front of a row with a unique identifier do not carry it. *)
Lemma unique_ids_front (l1 l2 : list User) (u : User) :
  unique_ids (l1 ++ u :: l2) ->
  forall x, In x l1 -> matches "id" (id u) x = false.
Proof.
  unfold unique_ids. rewrite map_app. simpl. intros H x Hx.
  apply NoDup_remove_2 in H.
  unfold matches. simpl. apply py_eq_neq. intro E. apply H.
  apply in_or_app. left. rewrite <- E. now apply in_map.
Qed.

Lemma matches_id_self (u : User) : matches "id" (id u) u = true.
Proof. unfold matches. simpl. apply py_eq_refl. Qed.

Lemma in_User_dict_In (key : string) :
  in_User_dict key = true <-> In key User_dict.
Proof.
  unfold in_User_dict. rewrite existsb_exists. split.
  - intros (x & Hx & E). apply String.eqb_eq in E. now subst.
  - intro H. exists key. split; [assumption|apply String.eqb_refl].
Qed.

Lemma in_User_dict_not_In (key : string) :
  in_User_dict key = false <-> ~ In key User_dict.
Proof.
  rewrite <- in_User_dict_In. destruct (in_User_dict key); split; intro H;
    try discriminate; try reflexivity; try (intro; discriminate).
  exfalso. now apply H.
Qed.

Lemma columns_User_dict (key : string) : In key columns -> In key User_dict.
Proof. intro H. unfold User_dict. apply in_or_app. now left. Qed.

Lemma matches_false (key : string) (v : value) (x : User) :
  matches key v x = false <-> getattr x key <> Some v.
Proof.
  unfold matches. destruct (getattr x key) as [a|].
  - split.
    + intros H E. inversion E; subst. rewrite py_eq_refl in H. discriminate.
    + intro H. apply py_eq_neq. congruence.
  - split; [discriminate|reflexivity].
Qed.

Lemma matches_true (key : string) (v : value) (x : User) :
  matches key v x = true <-> getattr x key = Some v.
Proof.
  unfold matches. destruct (getattr x key) as [a|].
  - rewrite py_eq_eq. split; congruence.
  - split; discriminate.
Qed.

(** A name of the class namespace can be read on every row. *)
Lemma class_getattr_In (d : list (string * (User -> value))) (u : User)
    (key : string) :
  In key (map fst d) -> exists a, class_getattr d u key = Some a.
Proof.
  induction d as [|[name read] d IH]; simpl; [intros []|].
  intros [E|H].
  - subst. rewrite String.eqb_refl. eauto.
  - destruct (String.eqb key name); eauto.
Qed.

Ltac each_attr H :=
  unfold columns in H; simpl in H;
  repeat (destruct H as [H|H]; [subst|]); try contradiction.

Lemma getattr_User_dict (u : User) (key : string) :
  In key User_dict -> exists a, getattr u key = Some a.
Proof.
  unfold User_dict. intro H. apply in_app_or in H. destruct H as [H|H].
  - each_attr H; eexists; reflexivity.
  - unfold getattr.
    destruct (String.eqb key "id"); [eauto|].
    destruct (String.eqb key "email"); [eauto|].
    destruct (String.eqb key "hashed_password"); [eauto|].
    destruct (String.eqb key "session_id"); [eauto|].
    destruct (String.eqb key "reset_token"); [eauto|].
    now apply class_getattr_In.
Qed.

(** The columns are attributes of every row, and writing one changes
    that column only. *)
Lemma hasattr_column (u : User) (key : string) :
  In key columns -> hasattr u key = true.
Proof. intro H. each_attr H; reflexivity. Qed.

(** Whether a [User] object has an attribute does not depend on the row. *)
Lemma hasattr_row (u u' : User) (key : string) :
  hasattr u key = hasattr u' key.
Proof.
  unfold hasattr, getattr.
  destruct (String.eqb key "id"); [reflexivity|].
  destruct (String.eqb key "email"); [reflexivity|].
  destruct (String.eqb key "hashed_password"); [reflexivity|].
  destruct (String.eqb key "session_id"); [reflexivity|].
  destruct (String.eqb key "reset_token"); [reflexivity|].
  induction class_dict as [|[name read] d IH]; simpl; [reflexivity|].
  destruct (String.eqb key name); [reflexivity|exact IH].
Qed.

Lemma setattr_raises_column (k : string) (v : value) :
  In k columns -> setattr_raises k v = None.
Proof. intro H. each_attr H; reflexivity. Qed.

Lemma getattr_setattr (u : User) (k a : string) (v : value) :
  In k columns -> In a columns ->
  getattr (setattr u k v) a = if String.eqb k a then Some v else getattr u a.
Proof.
  intros Hk Ha. each_attr Hk; each_attr Ha; reflexivity.
Qed.

Lemma set_attrs_valid (kw : kwargs) (u : User) :
  (forall k v, In (k, v) kw -> In k columns) ->
  fst (DB.set_attrs u kw) = inr tt /\
  forall a, In a columns ->
    getattr (snd (DB.set_attrs u kw)) a =
    match assigned kw a with Some v => Some v | None => getattr u a end.
Proof.
  revert u. induction kw as [|[k v] kw IH]; intros u H.
  - simpl. auto.
  - assert (Hk : In k columns) by (apply (H k v); now left).
    cbn [DB.set_attrs assigned]. rewrite (hasattr_column u k Hk).
    rewrite (setattr_raises_column k v Hk).
    destruct (IH (setattr u k v)) as [R G].
    { intros k' v' Hin. apply (H k' v'). now right. }
    split; [assumption|]. intros a Ha. rewrite (G a Ha).
    destruct (assigned kw a); [reflexivity|].
    rewrite (getattr_setattr u k a v Hk Ha).
    destruct (String.eqb k a); reflexivity.
Qed.

(** The loop stops at the first name the object does not have: what was
    assigned before it stays, what comes after it is never read. *)
Lemma set_attrs_stops (kw1 kw2 : kwargs) (bad : string) (v : value)
    (u : User) :
  fst (DB.set_attrs u kw1) = inr tt ->
  hasattr u bad = false ->
  DB.set_attrs u (kw1 ++ (bad, v) :: kw2) =
  (inl (ValueError ""), snd (DB.set_attrs u kw1)).
Proof.
  revert u. induction kw1 as [|[k x] kw1 IH]; intros u R Hb.
  - simpl. now rewrite Hb.
  - simpl in *. destruct (hasattr u k); [|discriminate].
    destruct (setattr_raises k x) as [e|]; [discriminate|].
    apply IH; [assumption|]. now rewrite (hasattr_row (setattr u k x) u).
Qed.

End Lookups.

(* ------------------------------------------------------------------ *)
(** ** The store adapter: [find_user_by] and [update_user] *)

(** C6, counterexample: [hashed_password] is not one of the four permitted
    lookup fields, yet [find_user_by(hashed_password=...)] signals no
    [InvalidRequestError]: it runs the lookup and returns the row. *)
Lemma find_user_by_hashed_password_is_accepted :
  ~ In "hashed_password" ["id"; "email"; "session_id"; "reset_token"] /\
  result (DB.find_user_by (user_py := Toy.toy_user)
            [("hashed_password", VBytes "$0pw1")]) one_user =
  inr (mkUser (VInt 1) (VStr "a@x.com") (VBytes "$0pw1") VNone VNone) /\
  result (DB.find_user_by (user_py := Toy.toy_user)
            [("hashed_password", VBytes "other")]) one_user =
  inl NoResultFound.
Proof.
  split; [|split; reflexivity].
  simpl. intros [H|[H|[H|[H|[]]]]]; discriminate.
Qed.

(** C7, counterexample: [id] is not one of [email], [hashed_password],
    [session_id], [reset_token], yet [update_user(1, id=7)] raises nothing
    and rewrites the identifier. *)
Lemma update_user_accepts_id :
  ~ In "id" ["email"; "hashed_password"; "session_id"; "reset_token"] /\
  result (DB.update_user (user_py := Toy.toy_user) (VInt 1) [("id", VInt 7)])
    one_user = inr tt /\
  users (after (DB.update_user (user_py := Toy.toy_user) (VInt 1)
                  [("id", VInt 7)]) one_user) =
  [mkUser (VInt 7) (VStr "a@x.com") (VBytes "$0pw1") VNone VNone].
Proof.
  split; [|split; reflexivity].
  simpl. intros [H|[H|[H|[H|[]]]]]; discriminate.
Qed.

Section StoreAdapter.

Context {user_py : UserClass}.

(** C6, as amended: [find_user_by(key=v)] raises [InvalidRequestError]
    exactly when [key] is not a name of the namespace of the [User] class
    ([User.__dict__], which holds the five columns [id], [email],
    [hashed_password], [session_id], [reset_token], and also [__module__],
    [__doc__] and whatever else user.py and the mapper put there); for a
    name of the namespace, it raises [NoResultFound] when no stored row
    has [key == v], and whatever it returns otherwise is a stored row with
    [key == v], never a default user. *)
Theorem find_user_by_conditions (key : string) (v : value) (w : World) :
  (~ In key User_dict ->
   result (DB.find_user_by [(key, v)]) w = inl InvalidRequestError) /\
  (In key User_dict ->
   (forall x, In x (users w) -> getattr x key <> Some v) ->
   result (DB.find_user_by [(key, v)]) w = inl NoResultFound) /\
  (In key User_dict ->
   (exists x, In x (users w) /\ getattr x key = Some v) ->
   exists u, result (DB.find_user_by [(key, v)]) w = inr u) /\
  (forall u, result (DB.find_user_by [(key, v)]) w = inr u ->
   In key User_dict /\ In u (users w) /\ getattr u key = Some v) /\
  (forall name,
     In name ["id"; "email"; "hashed_password"; "session_id"; "reset_token";
              "__module__"; "__doc__"] ->
     In name User_dict).
Proof.
  unfold result. split; [|split; [|split; [|split]]].
  - intro H. apply in_User_dict_not_In in H.
    now rewrite find_user_by_invalid.
  - intros Hk H. apply in_User_dict_In in Hk.
    rewrite find_user_by_missing; auto.
    intros x Hx. apply matches_false. auto.
  - intros Hk (x & Hx & Hv). apply in_User_dict_In in Hk.
    destruct (first_match_cases key v (users w)) as
      [[_ Hn]|(l1 & u & l2 & E & _ & Hu & Hl)].
    + apply Hn in Hx. apply matches_false in Hx. contradiction.
    + exists u. now rewrite (find_user_by_found key v w l1 l2 u).
  - intros u H.
    destruct (in_User_dict key) eqn:Hk;
      [|rewrite find_user_by_invalid in H by assumption; discriminate].
    split; [now apply in_User_dict_In|].
    destruct (first_match_cases key v (users w)) as
      [[_ Hn]|(l1 & u' & l2 & E & _ & Hu & Hl)].
    + rewrite find_user_by_missing in H by assumption. discriminate.
    + rewrite (find_user_by_found key v w l1 l2 u') in H by assumption.
      inversion H; subst. split; [|now apply matches_true].
      rewrite E. apply in_or_app. right. now left.
  - intros name H. unfold User_dict. apply in_or_app.
    simpl in H.
    destruct H as [H|[H|[H|[H|[H|[H|[H|[]]]]]]]]; subst;
      try (left; simpl; tauto); right.
    + apply class_dict_module.
    + apply class_dict_doc.
Qed.

(** C7, as amended: on a table with unique identifiers,
    [update_user(user_id, **kw)] raises [NoResultFound] and changes no row
    when no row has that [id].  Otherwise, when every name in [kw] is one
    of the five columns ([id], [email], [hashed_password], [session_id],
    [reset_token]) and the table takes the row written, it returns
    normally, the row with that [id] gets exactly the values [kw] names and
    keeps its other columns, and every other row is unchanged.  And when a
    name in [kw] is not an attribute of the [User] object, the names before
    it being columns, it raises [ValueError], which is never swallowed:
    the names refused are those [hasattr] refuses, so [id] is written like
    any other column, and a name the object has beside its columns (the
    [__doc__] of its class) is not refused either. *)
Theorem update_user_conditions (user_id : value) (kw : kwargs) (w : World) :
  unique_ids (users w) ->
  ((forall x, In x (users w) -> id x <> user_id) ->
   result (DB.update_user user_id kw) w = inl NoResultFound /\
   users (after (DB.update_user user_id kw) w) = users w) /\
  (forall l1 u l2,
     users w = l1 ++ u :: l2 -> id u = user_id ->
     (forall kw1 bad v kw2,
        kw = kw1 ++ (bad, v) :: kw2 ->
        (forall k x, In (k, x) kw1 -> In k columns) ->
        hasattr u bad = false ->
        result (DB.update_user user_id kw) w = inl (ValueError "")) /\
     ((forall k v, In (k, v) kw -> In k columns) ->
      flushes (l1 ++ l2) u (snd (DB.set_attrs u kw)) = true ->
      result (DB.update_user user_id kw) w = inr tt /\
      exists u',
        users (after (DB.update_user user_id kw) w) = l1 ++ u' :: l2 /\
        forall a, In a columns ->
          getattr u' a =
          match assigned kw a with Some v => Some v | None => getattr u a end) /\
     (forall name, In name User_dict -> hasattr u name = true)).
Proof.
  intro U. split.
  - intro H. unfold result, after.
    rewrite update_user_missing; [split; reflexivity|].
    intros x Hx. apply matches_false. simpl. intro E. inversion E.
    now apply (H x).
  - intros l1 u l2 E <-. rewrite E in U.
    pose proof (unique_ids_front _ _ _ U) as Hl.
    pose proof (matches_id_self u) as Hu.
    split; [|split].
    + intros kw1 bad v kw2 -> Hc Hb.
      destruct (set_attrs_valid kw1 u Hc) as [R1 _].
      pose proof (set_attrs_stops kw1 kw2 bad v u R1 Hb) as S.
      unfold result.
      rewrite (update_user_found (id u) _ w l1 l2 u E Hl Hu);
        rewrite S; [reflexivity|discriminate].
    + intros H F. destruct (set_attrs_valid kw u H) as [R G].
      unfold result, after.
      rewrite (update_user_found (id u) kw w l1 l2 u E Hl Hu (fun _ => F)).
      simpl. split; [assumption|].
      now exists (snd (DB.set_attrs u kw)).
    + intros name H. unfold hasattr.
      destruct (getattr_User_dict u name H) as [a ->]. reflexivity.
Qed.

End StoreAdapter.

(** On [one_user], [update_user(1, session_id="t")] sets that attribute
    only. *)
Lemma update_user_conditions_witness :
  unique_ids (users one_user) /\
  result (DB.update_user (user_py := Toy.toy_user) (VInt 1)
            [("session_id", VStr "t")]) one_user =
  inr tt.
Proof.
  assert (U : unique_ids (users one_user)).
  { unfold unique_ids. simpl. constructor; [intros []|constructor]. }
  split; [exact U|].
  destruct (update_user_conditions (user_py := Toy.toy_user) (VInt 1)
              [("session_id", VStr "t")] one_user U) as [_ H].
  destruct (H [] (mkUser (VInt 1) (VStr "a@x.com") (VBytes "$0pw1") VNone VNone)
              [] eq_refl eq_refl) as (_ & G & _).
  apply G; [|reflexivity]. intros k v [E|[]]. inversion E. simpl. auto.
Defined.

(* ------------------------------------------------------------------ *)
(** ** What the [Auth] methods compute *)

Section AuthSteps.

Context {user_py : UserClass} {bcrypt : Bcrypt} {uuid : Uuid}.

(** The table takes the row an [Auth] method wrote. *)
Ltac flush :=
  intros _; simpl; unfold setattr; simpl; apply flushes_auth; eauto.

Lemma create_session_found (e : string) (w : World)
    (l1 l2 : list User) (u : User) :
  unique_ids (users w) ->
  users w = l1 ++ u :: l2 ->
  (forall x, In x l1 -> matches "email" (VStr e) x = false) ->
  matches "email" (VStr e) u = true ->
  result (Auth.create_session e) w = inr (Some (uuid4 (draws w))) /\
  users (after (Auth.create_session e) w) =
    l1 ++ setattr u "session_id" (VStr (uuid4 (draws w))) :: l2 /\
  draws (after (Auth.create_session e) w) = S (draws w).
Proof.
  intros U Hw Hl Hu.
  unfold result, after, Auth.create_session, try_except_else.
  rewrite (find_user_by_found "email" (VStr e) w l1 l2 u eq_refl Hw Hl Hu).
  unfold bind, Auth._generate_uuid, draw. simpl.
  rewrite (update_user_found (id u) _ _ l1 l2 u).
  - simpl. auto.
  - exact Hw.
  - rewrite Hw in U. exact (unique_ids_front l1 l2 u U).
  - apply matches_id_self.
  - flush.
Qed.

Lemma create_session_missing (e : string) (w : World) :
  (forall x, In x (users w) -> matches "email" (VStr e) x = false) ->
  result (Auth.create_session e) w = inr None /\
  users (after (Auth.create_session e) w) = users w /\
  draws (after (Auth.create_session e) w) = draws w.
Proof.
  intros Hl. unfold result, after, Auth.create_session, try_except_else.
  rewrite (find_user_by_missing "email" (VStr e) w eq_refl Hl).
  simpl. auto.
Qed.

Lemma register_user_new (e p : string) (w : World) :
  (forall x, In x (users w) -> matches "email" (VStr e) x = false) ->
  let new_user :=
    mkUser (VInt (DB.max_id (users w) + 1)) (VStr e)
      (VBytes (hashpw (encode p) (gensalt (draws w)))) VNone VNone in
  result (Auth.register_user e p) w = inr new_user /\
  users (after (Auth.register_user e p) w) = users w ++ [new_user] /\
  draws (after (Auth.register_user e p) w) = S (draws w).
Proof.
  intros Hl. unfold result, after, Auth.register_user, try_except, bind.
  rewrite (find_user_by_missing "email" (VStr e) w eq_refl Hl).
  simpl. unfold DB.add_user. simpl.
  rewrite (takes_email _ _ Hl), takes_hashed_password. simpl. auto.
Qed.

Lemma register_user_exists (e p : string) (w : World)
    (l1 l2 : list User) (u : User) :
  users w = l1 ++ u :: l2 ->
  (forall x, In x l1 -> matches "email" (VStr e) x = false) ->
  matches "email" (VStr e) u = true ->
  result (Auth.register_user e p) w =
    inl (ValueError ("User " ++ e ++ " already exists")%string) /\
  users (after (Auth.register_user e p) w) = users w /\
  draws (after (Auth.register_user e p) w) = draws w.
Proof.
  intros Hw Hl Hu. unfold result, after, Auth.register_user, try_except, bind.
  rewrite (find_user_by_found "email" (VStr e) w l1 l2 u eq_refl Hw Hl Hu).
  simpl. auto.
Qed.

Lemma valid_login_found (e p : string) (w : World)
    (l1 l2 : list User) (u : User) (h : bytes) :
  users w = l1 ++ u :: l2 ->
  (forall x, In x l1 -> matches "email" (VStr e) x = false) ->
  matches "email" (VStr e) u = true ->
  hashed_password u = VBytes h ->
  result (Auth.valid_login e p) w = inr (checkpw (encode p) h) /\
  users (after (Auth.valid_login e p) w) = users w /\
  draws (after (Auth.valid_login e p) w) = draws w.
Proof.
  intros Hw Hl Hu Hh. unfold result, after, Auth.valid_login, try_except_else.
  rewrite (find_user_by_found "email" (VStr e) w l1 l2 u eq_refl Hw Hl Hu).
  rewrite Hh. simpl. auto.
Qed.

Lemma valid_login_missing (e p : string) (w : World) :
  (forall x, In x (users w) -> matches "email" (VStr e) x = false) ->
  result (Auth.valid_login e p) w = inr false /\
  users (after (Auth.valid_login e p) w) = users w /\
  draws (after (Auth.valid_login e p) w) = draws w.
Proof.
  intros Hl. unfold result, after, Auth.valid_login, try_except_else.
  rewrite (find_user_by_missing "email" (VStr e) w eq_refl Hl).
  simpl. auto.
Qed.

Lemma get_user_from_session_id_found (sid : value) (w : World)
    (l1 l2 : list User) (u : User) :
  sid <> VNone ->
  users w = l1 ++ u :: l2 ->
  (forall x, In x l1 -> matches "session_id" sid x = false) ->
  matches "session_id" sid u = true ->
  result (Auth.get_user_from_session_id sid) w = inr (Some u) /\
  users (after (Auth.get_user_from_session_id sid) w) = users w /\
  draws (after (Auth.get_user_from_session_id sid) w) = draws w.
Proof.
  intros Hs Hw Hl Hu.
  unfold result, after, Auth.get_user_from_session_id, try_except, bind.
  destruct sid; [contradiction|..];
    rewrite (find_user_by_found "session_id" _ w l1 l2 u eq_refl Hw Hl Hu);
    simpl; auto.
Qed.

Lemma get_user_from_session_id_missing (sid : value) (w : World) :
  (forall x, In x (users w) -> matches "session_id" sid x = false) ->
  result (Auth.get_user_from_session_id sid) w = inr None /\
  users (after (Auth.get_user_from_session_id sid) w) = users w /\
  draws (after (Auth.get_user_from_session_id sid) w) = draws w.
Proof.
  intros Hl.
  unfold result, after, Auth.get_user_from_session_id, try_except, bind.
  destruct sid; [simpl; auto|..];
    rewrite (find_user_by_missing "session_id" _ w eq_refl Hl);
    simpl; auto.
Qed.

Lemma destroy_session_found (user_id : value) (w : World)
    (l1 l2 : list User) (u : User) :
  unique_ids (users w) ->
  users w = l1 ++ u :: l2 ->
  id u = user_id ->
  result (Auth.destroy_session user_id) w = inr tt /\
  users (after (Auth.destroy_session user_id) w) =
    l1 ++ setattr u "session_id" VNone :: l2 /\
  draws (after (Auth.destroy_session user_id) w) = draws w.
Proof.
  intros U Hw <-. rewrite Hw in U.
  pose proof (unique_ids_front l1 l2 u U) as Hl.
  pose proof (matches_id_self u) as Hu.
  unfold result, after, Auth.destroy_session, try_except, bind.
  rewrite (find_user_by_found "id" (id u) w l1 l2 u eq_refl Hw Hl Hu).
  rewrite (update_user_found (id u) _ _ l1 l2 u); auto.
  flush.
Qed.

Lemma destroy_session_missing (user_id : value) (w : World) :
  (forall x, In x (users w) -> id x <> user_id) ->
  result (Auth.destroy_session user_id) w = inr tt /\
  users (after (Auth.destroy_session user_id) w) = users w /\
  draws (after (Auth.destroy_session user_id) w) = draws w.
Proof.
  intros H. unfold result, after, Auth.destroy_session, try_except, bind.
  rewrite (find_user_by_missing "id" user_id w eq_refl).
  - simpl. auto.
  - intros x Hx. apply matches_false. simpl. intro E. inversion E.
    now apply (H x).
Qed.

Lemma get_reset_password_token_found (e : string) (w : World)
    (l1 l2 : list User) (u : User) :
  unique_ids (users w) ->
  users w = l1 ++ u :: l2 ->
  (forall x, In x l1 -> matches "email" (VStr e) x = false) ->
  matches "email" (VStr e) u = true ->
  result (Auth.get_reset_password_token e) w = inr (uuid4 (draws w)) /\
  users (after (Auth.get_reset_password_token e) w) =
    l1 ++ setattr u "reset_token" (VStr (uuid4 (draws w))) :: l2 /\
  draws (after (Auth.get_reset_password_token e) w) = S (draws w).
Proof.
  intros U Hw Hl Hu.
  unfold result, after, Auth.get_reset_password_token, try_except_else.
  rewrite (find_user_by_found "email" (VStr e) w l1 l2 u eq_refl Hw Hl Hu).
  unfold bind, Auth._generate_uuid, draw. simpl.
  rewrite (update_user_found (id u) _ _ l1 l2 u).
  - simpl. auto.
  - exact Hw.
  - rewrite Hw in U. exact (unique_ids_front l1 l2 u U).
  - apply matches_id_self.
  - flush.
Qed.

Lemma get_reset_password_token_missing (e : string) (w : World) :
  (forall x, In x (users w) -> matches "email" (VStr e) x = false) ->
  result (Auth.get_reset_password_token e) w =
    inl (ValueError "User not found") /\
  users (after (Auth.get_reset_password_token e) w) = users w /\
  draws (after (Auth.get_reset_password_token e) w) = draws w.
Proof.
  intros Hl.
  unfold result, after, Auth.get_reset_password_token, try_except_else.
  rewrite (find_user_by_missing "email" (VStr e) w eq_refl Hl).
  simpl. auto.
Qed.

Lemma update_password_found (tok : value) (p : string) (w : World)
    (l1 l2 : list User) (u : User) :
  unique_ids (users w) ->
  users w = l1 ++ u :: l2 ->
  (forall x, In x l1 -> matches "reset_token" tok x = false) ->
  matches "reset_token" tok u = true ->
  result (Auth.update_password tok p) w = inr tt /\
  users (after (Auth.update_password tok p) w) =
    l1 ++ setattr
            (setattr u "hashed_password"
               (VBytes (hashpw (encode p) (gensalt (draws w)))))
            "reset_token" VNone :: l2 /\
  draws (after (Auth.update_password tok p) w) = S (draws w).
Proof.
  intros U Hw Hl Hu.
  unfold result, after, Auth.update_password, try_except_else.
  rewrite (find_user_by_found "reset_token" tok w l1 l2 u eq_refl Hw Hl Hu).
  unfold bind, Auth._hash_password, bind, draw, ret. simpl.
  rewrite (update_user_found (id u) _ _ l1 l2 u).
  - simpl. auto.
  - exact Hw.
  - rewrite Hw in U. exact (unique_ids_front l1 l2 u U).
  - apply matches_id_self.
  - flush.
Qed.

Lemma update_password_missing (tok : value) (p : string) (w : World) :
  (forall x, In x (users w) -> matches "reset_token" tok x = false) ->
  result (Auth.update_password tok p) w = inl (ValueError "User not found") /\
  users (after (Auth.update_password tok p) w) = users w /\
  draws (after (Auth.update_password tok p) w) = draws w.
Proof.
  intros Hl.
  unfold result, after, Auth.update_password, try_except_else.
  rewrite (find_user_by_missing "reset_token" tok w eq_refl Hl).
  simpl. auto.
Qed.

End AuthSteps.

(* ------------------------------------------------------------------ *)
(** ** Reading a lookup's outcome *)

Section Outcomes.

Context {user_py : UserClass}.

Lemma find_user_by_inr (key : string) (v : value) (w : World) (u : User) :
  result (DB.find_user_by [(key, v)]) w = inr u ->
  exists l1 l2,
    users w = l1 ++ u :: l2 /\
    (forall x, In x l1 -> matches key v x = false) /\
    matches key v u = true.
Proof.
  unfold result. intro H.
  destruct (in_User_dict key) eqn:Hk;
    [|rewrite find_user_by_invalid in H by assumption; discriminate].
  destruct (first_match_cases key v (users w)) as
    [[_ Hn]|(l1 & u' & l2 & E & _ & Hu & Hl)].
  - rewrite find_user_by_missing in H by assumption. discriminate.
  - rewrite (find_user_by_found key v w l1 l2 u') in H by assumption.
    inversion H; subst. now exists l1, l2.
Qed.

Lemma find_user_by_inl (key : string) (v : value) (w : World) :
  result (DB.find_user_by [(key, v)]) w = inl NoResultFound ->
  forall x, In x (users w) -> matches key v x = false.
Proof.
  unfold result. intro H.
  destruct (in_User_dict key) eqn:Hk;
    [|rewrite find_user_by_invalid in H by assumption; discriminate].
  destruct (first_match_cases key v (users w)) as
    [[_ Hn]|(l1 & u' & l2 & E & _ & Hu & Hl)]; [assumption|].
  rewrite (find_user_by_found key v w l1 l2 u') in H by assumption.
  discriminate.
Qed.

End Outcomes.

(* ------------------------------------------------------------------ *)
(** ** The claims on [Auth] *)

Section AuthClaims.

Context {user_py : UserClass} {bcrypt : Bcrypt} {uuid : Uuid}.

(** [valid_login] reads the rows only. *)
Lemma valid_login_users (e p : string) (w1 w2 : World) :
  users w1 = users w2 ->
  result (Auth.valid_login e p) w1 = result (Auth.valid_login e p) w2.
Proof.
  intro E.
  destruct (first_match_cases "email" (VStr e) (users w1)) as
    [[_ Hn]|(l1 & u & l2 & E1 & _ & Hu & Hl)].
  - destruct (valid_login_missing e p w1 Hn) as [-> _].
    rewrite E in Hn. now destruct (valid_login_missing e p w2 Hn) as [-> _].
  - unfold result, Auth.valid_login, try_except_else.
    rewrite (find_user_by_found "email" (VStr e) w1 l1 l2 u eq_refl E1 Hl Hu).
    rewrite E in E1.
    rewrite (find_user_by_found "email" (VStr e) w2 l1 l2 u eq_refl E1 Hl Hu).
    destruct (hashed_password u); reflexivity.
Qed.

(** C2: on a store with no user for [email], [register_user(email,
    password)] returns the new user and an immediate [valid_login(email,
    password)] returns [True], for a [bcrypt] whose [checkpw] accepts the
    digests [hashpw] makes. *)
Theorem register_then_valid_login (e p : string) (w : World) :
  verifies_own_digest bcrypt ->
  result (DB.find_user_by [("email", VStr e)]) w = inl NoResultFound ->
  (exists u, result (Auth.register_user e p) w = inr u /\ email u = VStr e) /\
  result (Auth.valid_login e p) (after (Auth.register_user e p) w) = inr true.
Proof.
  intros V H. pose proof (find_user_by_inl _ _ _ H) as Hn.
  destruct (register_user_new e p w Hn) as (R & Us & _).
  split; [eexists; split; [exact R|reflexivity]|].
  destruct (valid_login_found e p (after (Auth.register_user e p) w)
              (users w) [] _ (hashpw (encode p) (gensalt (draws w))) Us Hn)
    as [L _].
  - unfold matches. simpl. apply String.eqb_refl.
  - reflexivity.
  - rewrite L. f_equal. apply V.
Qed.

(** C5: when [email] is registered and its stored credential verifies
    against [p1], [register_user(email, p2)] raises the [ValueError] that
    says the user already exists, leaves every row as it was, and
    [valid_login(email, p1)] is still [True]. *)
Theorem register_twice (e p1 p2 : string) (w : World) :
  result (Auth.valid_login e p1) w = inr true ->
  result (Auth.register_user e p2) w =
    inl (ValueError ("User " ++ e ++ " already exists")%string) /\
  users (after (Auth.register_user e p2) w) = users w /\
  result (Auth.valid_login e p1) (after (Auth.register_user e p2) w) =
    inr true.
Proof.
  intro L.
  destruct (first_match_cases "email" (VStr e) (users w)) as
    [[_ Hn]|(l1 & u & l2 & E & _ & Hu & Hl)].
  - destruct (valid_login_missing e p1 w Hn) as [L' _].
    rewrite L' in L. discriminate.
  - destruct (register_user_exists e p2 w l1 l2 u E Hl Hu) as (R & Us & _).
    repeat split; [exact R|exact Us|].
    now rewrite (valid_login_users e p1 _ w Us).
Qed.

Lemma unique_ids_others (l1 l2 : list User) (u x : User) :
  unique_ids (l1 ++ u :: l2) -> In x (l1 ++ l2) -> id x <> id u.
Proof.
  unfold unique_ids. rewrite map_app. simpl. intros H Hx E.
  apply NoDup_remove_2 in H. apply H. rewrite <- E, <- map_app.
  now apply in_map.
Qed.

(** C4: on a table with unique identifiers, (1) for a registered [email],
    when the UUID drawn is the [session_id] of no stored row,
    [create_session(email)] returns a token [t] and
    [get_user_from_session_id(t)] then returns that user, the row the
    lookup by [email] finds, now carrying [t]; (2) for an [email] with no
    user, [create_session] returns [None], raises nothing and changes no
    row; (3) for a token that is the [session_id] of no stored row,
    [get_user_from_session_id] returns [None].  Both assumptions of (1)
    hold in every reachable store when [uuid4] never repeats
    ([reachable_keeps], [reachable_fresh]). *)
Theorem session_round_trip (w : World) :
  unique_ids (users w) ->
  (forall e u,
     result (DB.find_user_by [("email", VStr e)]) w = inr u ->
     (forall x, In x (users w) -> session_id x <> VStr (uuid4 (draws w))) ->
     exists t,
       result (Auth.create_session e) w = inr (Some t) /\
       result (Auth.get_user_from_session_id (VStr t))
         (after (Auth.create_session e) w) =
         inr (Some (setattr u "session_id" (VStr t))) /\
       result (DB.find_user_by [("email", VStr e)])
         (after (Auth.create_session e) w) =
         inr (setattr u "session_id" (VStr t))) /\
  (forall e,
     result (DB.find_user_by [("email", VStr e)]) w = inl NoResultFound ->
     result (Auth.create_session e) w = inr None /\
     users (after (Auth.create_session e) w) = users w) /\
  (forall tok,
     (forall x, In x (users w) -> session_id x <> tok) ->
     result (Auth.get_user_from_session_id tok) w = inr None).
Proof.
  intro U. repeat split.
  - intros e u F Fresh.
    destruct (find_user_by_inr _ _ _ _ F) as (l1 & l2 & E & Hl & Hu).
    destruct (create_session_found e w l1 l2 u U E Hl Hu) as (R & Us & _).
    exists (uuid4 (draws w)). split; [exact R|].
    set (t := uuid4 (draws w)) in *.
    set (w' := after (Auth.create_session e) w) in *.
    assert (Hl' : forall x, In x l1 -> matches "session_id" (VStr t) x = false).
    { intros x Hx. apply matches_false. simpl. intro G. inversion G.
      apply (Fresh x); [|assumption].
      rewrite E. apply in_or_app. now left. }
    split.
    + destruct (get_user_from_session_id_found (VStr t) w' l1 l2
                  (setattr u "session_id" (VStr t))) as [G _];
        try assumption; try discriminate.
      unfold matches. simpl. apply String.eqb_refl.
    + unfold result.
      now rewrite (find_user_by_found "email" (VStr e) w' l1 l2
                     (setattr u "session_id" (VStr t)) eq_refl Us Hl Hu).
  - destruct (create_session_missing e w (find_user_by_inl _ _ _ H))
      as [R _]. exact R.
  - destruct (create_session_missing e w (find_user_by_inl _ _ _ H))
      as (_ & Us & _). exact Us.
  - intros tok H.
    destruct (get_user_from_session_id_missing tok w) as [R _]; [|exact R].
    intros x Hx. apply matches_false. simpl. intro G. inversion G.
    now apply (H x).
Qed.

(** C8: on a table with unique identifiers, (1) when a user with
    [user_id] exists, [destroy_session(user_id)] returns normally and sets
    that row's [session_id] to [None]; if [t] was that row's token and no
    other user's, [get_user_from_session_id(t)] then returns [None];
    (2) when no user has [user_id], [destroy_session] returns normally,
    raises nothing and changes no row.  In a reachable store a token
    belongs to one row when [uuid4] never repeats
    ([reachable_session_owner]). *)
Theorem destroy_session_conditions (user_id : value) (w : World) :
  unique_ids (users w) ->
  (forall u,
     result (DB.find_user_by [("id", user_id)]) w = inr u ->
     result (Auth.destroy_session user_id) w = inr tt /\
     result (DB.find_user_by [("id", user_id)])
       (after (Auth.destroy_session user_id) w) =
       inr (setattr u "session_id" VNone) /\
     forall t,
       session_id u = VStr t ->
       (forall x, In x (users w) -> session_id x = VStr t -> id x = user_id) ->
       result (Auth.get_user_from_session_id (VStr t))
         (after (Auth.destroy_session user_id) w) = inr None) /\
  ((forall x, In x (users w) -> id x <> user_id) ->
   result (Auth.destroy_session user_id) w = inr tt /\
   users (after (Auth.destroy_session user_id) w) = users w).
Proof.
  intro U. split.
  - intros u F.
    destruct (find_user_by_inr _ _ _ _ F) as (l1 & l2 & E & Hl & Hu).
    assert (Hid : id u = user_id).
    { apply matches_true in Hu. unfold getattr in Hu. simpl in Hu. congruence. }
    destruct (destroy_session_found user_id w l1 l2 u U E Hid)
      as (R & Us & _).
    set (w' := after (Auth.destroy_session user_id) w) in *.
    split; [exact R|]. split.
    + unfold result.
      rewrite (find_user_by_found "id" user_id w' l1 l2
                 (setattr u "session_id" VNone) eq_refl Us Hl);
        [reflexivity|].
      apply matches_true. unfold getattr, setattr. simpl. now rewrite Hid.
    + intros t Ht Only.
      destruct (get_user_from_session_id_missing (VStr t) w') as [G _];
        [|exact G].
      rewrite Us. intros x Hx. apply matches_false. simpl. intro G.
      inversion G as [G']. clear G.
      apply in_app_or in Hx. destruct Hx as [Hx|[<-|Hx]].
      * rewrite E in U. apply (unique_ids_others l1 l2 u x U).
        -- apply in_or_app. now left.
        -- rewrite Hid. apply Only; [|assumption].
           rewrite E. apply in_or_app. now left.
      * discriminate.
      * rewrite E in U. apply (unique_ids_others l1 l2 u x U).
        -- apply in_or_app. now right.
        -- rewrite Hid. apply Only; [|assumption].
           rewrite E. apply in_or_app. right. now right.
  - intro H. destruct (destroy_session_missing user_id w H) as (R & Us & _).
    now split.
Qed.

(** C3: on a table with unique identifiers that holds a user whose
    [reset_token] is [None], [update_password(None, password)] does not
    raise: the lookup stops at the first such row, and that row's
    [hashed_password] becomes the digest of [password], the other rows
    being unchanged. *)
Theorem update_password_null_token (p : string) (w : World) :
  unique_ids (users w) ->
  (exists x, In x (users w) /\ reset_token x = VNone) ->
  exists l1 u l2,
    users w = l1 ++ u :: l2 /\
    reset_token u = VNone /\
    result (Auth.update_password VNone p) w = inr tt /\
    users (after (Auth.update_password VNone p) w) =
      l1 ++ mkUser (id u) (email u)
              (VBytes (hashpw (encode p) (gensalt (draws w))))
              (session_id u) VNone :: l2.
Proof.
  intros U (x & Hx & Hr).
  destruct (first_match_cases "reset_token" VNone (users w)) as
    [[_ Hn]|(l1 & u & l2 & E & _ & Hu & Hl)].
  - apply Hn in Hx. apply matches_false in Hx.
    unfold getattr in Hx. simpl in Hx. rewrite Hr in Hx. contradiction.
  - exists l1, u, l2.
    destruct (update_password_found VNone p w l1 l2 u U E Hl Hu)
      as (R & Us & _).
    repeat split; try assumption.
    apply matches_true in Hu. unfold getattr in Hu. simpl in Hu. congruence.
Qed.

(** C9, as amended: for [session_id] [None],
    [get_user_from_session_id] returns [None] at once, with no call of the
    store; for every other [session_id], the empty string included, it
    calls [find_user_by] once, changes no row, and returns [None] rather
    than raising when no stored row has that [session_id]. *)
Theorem get_user_from_session_id_conditions (sid : value) (w : World) :
  (sid = VNone ->
   Auth.get_user_from_session_id sid w = (inr None, w)) /\
  (sid <> VNone ->
   calls (after (Auth.get_user_from_session_id sid) w) =
     calls w ++ [CallFindUserBy [("session_id", sid)]] /\
   users (after (Auth.get_user_from_session_id sid) w) = users w /\
   ((forall x, In x (users w) -> session_id x <> sid) ->
    result (Auth.get_user_from_session_id sid) w = inr None)).
Proof.
  split.
  - intros ->. reflexivity.
  - intro Hs. split; [|split].
    + unfold after, Auth.get_user_from_session_id, try_except, bind.
      destruct sid; [contradiction|..];
        unfold DB.find_user_by, bind, DB.find_ref, DB.deref; simpl;
        match goal with
        | |- context [DB.first_match ?k ?v ?l] =>
            destruct (DB.first_match k v l) as [i|]; simpl;
            [destruct (nth_error l i); reflexivity|reflexivity]
        end.
    + destruct (first_match_cases "session_id" sid (users w)) as
        [[_ Hn]|(l1 & u & l2 & E & _ & Hu & Hl)].
      * now destruct (get_user_from_session_id_missing sid w Hn) as (_ & G & _).
      * now destruct (get_user_from_session_id_found sid w l1 l2 u Hs E Hl Hu)
          as (_ & G & _).
    + intro H.
      destruct (get_user_from_session_id_missing sid w) as [R _]; [|exact R].
      intros x Hx. apply matches_false. simpl. intro G. inversion G.
      now apply (H x).
Qed.


(* -------------------------------------------------------------- *)
(** *** Reachable stores *)

Lemma max_id_bound (us : list User) (u : User) (z : Z) :
  In u us -> id u = VInt z -> z <= DB.max_id us.
Proof.
  induction us as [|a us IH]; intros Hin Hz; [destruct Hin|].
  simpl. destruct Hin as [->|Hin].
  - rewrite Hz. lia.
  - specialize (IH Hin Hz). destruct (id a); lia.
Qed.

Lemma unique_ids_add (us : list User) (e h s t : value) :
  unique_ids us ->
  unique_ids (us ++ [mkUser (VInt (DB.max_id us + 1)) e h s t]).
Proof.
  unfold unique_ids. intro U. rewrite map_app. simpl.
  apply NoDup_app; [assumption|repeat constructor; intros []|].
  intros a Ha [<-|[]]. apply in_map_iff in Ha.
  destruct Ha as (x & Hx & Hin).
  pose proof (max_id_bound us x _ Hin Hx). lia.
Qed.

Lemma unique_ids_replace (l1 l2 : list User) (u u' : User) :
  id u' = id u -> unique_ids (l1 ++ u :: l2) -> unique_ids (l1 ++ u' :: l2).
Proof.
  unfold unique_ids. intros E. rewrite !map_app. simpl. now rewrite E.
Qed.

Lemma stores_digests_replace (l1 l2 : list User) (u u' : User) :
  (exists password salt,
     hashed_password u' = VBytes (hashpw (encode password) salt)) ->
  stores_digests (l1 ++ u :: l2) -> stores_digests (l1 ++ u' :: l2).
Proof.
  intros H S x Hx. apply in_app_or in Hx. destruct Hx as [Hx|[<-|Hx]].
  - apply S. apply in_or_app. now left.
  - exact H.
  - apply S. apply in_or_app. right. now right.
Qed.

Lemma stores_digests_middle (l1 l2 : list User) (u : User) :
  stores_digests (l1 ++ u :: l2) ->
  exists password salt,
    hashed_password u = VBytes (hashpw (encode password) salt).
Proof. intro S. apply S. apply in_or_app. right. now left. Qed.

(** Identifiers stay unique and passwords stay digests across a call. *)
Lemma serve_keeps (r : request) (w : World) :
  unique_ids (users w) /\ stores_digests (users w) ->
  unique_ids (users (serve r w)) /\ stores_digests (users (serve r w)).
Proof.
  intros [U S]. destruct r as [e p|e p|e|sid|user_id|e|tok p]; simpl.
  - destruct (first_match_cases "email" (VStr e) (users w)) as
      [[_ Hn]|(l1 & u & l2 & E & _ & Hu & Hl)].
    + destruct (register_user_new e p w Hn) as (_ & -> & _). split.
      * now apply unique_ids_add.
      * intros x Hx. apply in_app_or in Hx. destruct Hx as [Hx|[<-|[]]].
        -- now apply S.
        -- simpl. eauto.
    + destruct (register_user_exists e p w l1 l2 u E Hl Hu) as (_ & -> & _).
      now split.
  - destruct (first_match_cases "email" (VStr e) (users w)) as
      [[_ Hn]|(l1 & u & l2 & E & _ & Hu & Hl)].
    + destruct (valid_login_missing e p w Hn) as (_ & -> & _). now split.
    + pose proof S as S'. rewrite E in S'.
      destruct (stores_digests_middle _ _ _ S') as (pw & salt & Hh).
      destruct (valid_login_found e p w l1 l2 u _ E Hl Hu Hh) as (_ & -> & _).
      now split.
  - destruct (first_match_cases "email" (VStr e) (users w)) as
      [[_ Hn]|(l1 & u & l2 & E & _ & Hu & Hl)].
    + destruct (create_session_missing e w Hn) as (_ & -> & _). now split.
    + destruct (create_session_found e w l1 l2 u U E Hl Hu) as (_ & -> & _).
      rewrite E in U, S. split.
      * now apply (unique_ids_replace l1 l2 u).
      * apply (stores_digests_replace l1 l2 u); [|assumption].
        exact (stores_digests_middle _ _ _ S).
  - destruct (first_match_cases "session_id" sid (users w)) as
      [[_ Hn]|(l1 & u & l2 & E & _ & Hu & Hl)].
    + destruct (get_user_from_session_id_missing sid w Hn) as (_ & -> & _).
      now split.
    + destruct sid.
      * simpl. now split.
      * destruct (get_user_from_session_id_found (VInt z) w l1 l2 u)
          as (_ & -> & _); try assumption; try discriminate. now split.
      * destruct (get_user_from_session_id_found (VStr s) w l1 l2 u)
          as (_ & -> & _); try assumption; try discriminate. now split.
      * destruct (get_user_from_session_id_found (VBytes b) w l1 l2 u)
          as (_ & -> & _); try assumption; try discriminate. now split.
      * destruct (get_user_from_session_id_found (VObject o) w l1 l2 u)
          as (_ & -> & _); try assumption; try discriminate. now split.
  - destruct (first_match_cases "id" user_id (users w)) as
      [[_ Hn]|(l1 & u & l2 & E & _ & Hu & Hl)].
    + destruct (destroy_session_missing user_id w) as (_ & -> & _);
        [|now split].
      intros x Hx E. apply Hn in Hx. apply matches_false in Hx.
      unfold getattr in Hx. simpl in Hx. congruence.
    + assert (Hid : id u = user_id).
      { apply matches_true in Hu. unfold getattr in Hu. simpl in Hu.
        congruence. }
      destruct (destroy_session_found user_id w l1 l2 u U E Hid)
        as (_ & -> & _).
      rewrite E in U, S. split.
      * now apply (unique_ids_replace l1 l2 u).
      * apply (stores_digests_replace l1 l2 u); [|assumption].
        exact (stores_digests_middle _ _ _ S).
  - destruct (first_match_cases "email" (VStr e) (users w)) as
      [[_ Hn]|(l1 & u & l2 & E & _ & Hu & Hl)].
    + destruct (get_reset_password_token_missing e w Hn) as (_ & -> & _).
      now split.
    + destruct (get_reset_password_token_found e w l1 l2 u U E Hl Hu)
        as (_ & -> & _).
      rewrite E in U, S. split.
      * now apply (unique_ids_replace l1 l2 u).
      * apply (stores_digests_replace l1 l2 u); [|assumption].
        exact (stores_digests_middle _ _ _ S).
  - destruct (first_match_cases "reset_token" tok (users w)) as
      [[_ Hn]|(l1 & u & l2 & E & _ & Hu & Hl)].
    + destruct (update_password_missing tok p w Hn) as (_ & -> & _).
      now split.
    + destruct (update_password_found tok p w l1 l2 u U E Hl Hu)
        as (_ & -> & _).
      rewrite E in U, S. split.
      * now apply (unique_ids_replace l1 l2 u).
      * apply (stores_digests_replace l1 l2 u); [|assumption].
        simpl. eauto.
Qed.

Lemma reachable_keeps (w : World) :
  reachable w -> unique_ids (users w) /\ stores_digests (users w).
Proof.
  induction 1 as [d|r w _ IH].
  - simpl. split; [constructor|intros u []].
  - now apply serve_keeps.
Qed.

(** C10: in every store reachable from the empty one through calls of the
    [Auth] methods, every stored [hashed_password] is a digest [hashpw]
    made, so it is non-empty and is not the password it was made from
    (for a [bcrypt] whose digests are non-empty and differ from their
    input); [valid_login] decides by [checkpw] on the stored digest: it
    returns [False] for an unknown email and the verdict of [checkpw]
    otherwise, and never raises; and the two methods that store a
    password, [register_user] and [update_password], store the digest of
    the password the caller passed, which is not that password. *)
Theorem hashed_password_invariant (w : World) :
  digest_nonempty bcrypt ->
  digest_not_input bcrypt ->
  reachable w ->
  (forall u, In u (users w) ->
     exists password salt,
       hashed_password u = VBytes (hashpw (encode password) salt) /\
       hashed_password u <> VBytes "" /\
       hashed_password u <> VBytes (encode password) /\
       hashed_password u <> VStr password) /\
  (forall e p,
     (result (DB.find_user_by [("email", VStr e)]) w = inl NoResultFound ->
      result (Auth.valid_login e p) w = inr false) /\
     (forall u,
        result (DB.find_user_by [("email", VStr e)]) w = inr u ->
        exists h,
          hashed_password u = VBytes h /\
          result (Auth.valid_login e p) w = inr (checkpw (encode p) h))) /\
  (forall e p,
     result (DB.find_user_by [("email", VStr e)]) w = inl NoResultFound ->
     exists u,
       result (Auth.register_user e p) w = inr u /\
       In u (users (after (Auth.register_user e p) w)) /\
       hashed_password u =
         VBytes (hashpw (encode p) (gensalt (draws w))) /\
       hashed_password u <> VBytes (encode p)) /\
  (forall tok p u,
     result (DB.find_user_by [("reset_token", tok)]) w = inr u ->
     result (DB.find_user_by [("id", id u)])
       (after (Auth.update_password tok p) w) =
       inr (mkUser (id u) (email u)
              (VBytes (hashpw (encode p) (gensalt (draws w))))
              (session_id u) VNone) /\
     hashpw (encode p) (gensalt (draws w)) <> encode p).
Proof.
  intros Ne Ni R. destruct (reachable_keeps w R) as [U S].
  split; [|split; [|split]]; cycle 2.
  - intros e p F. pose proof (find_user_by_inl _ _ _ F) as Hn.
    destruct (register_user_new e p w Hn) as (Rr & Us & _).
    eexists. split; [exact Rr|]. split; [|split].
    + rewrite Us. apply in_or_app. right. now left.
    + reflexivity.
    + simpl. intro G. inversion G as [G']. now apply (Ni _ _ G').
  - intros tok p u F.
    destruct (find_user_by_inr _ _ _ _ F) as (l1 & l2 & E & Hl & Hu).
    destruct (update_password_found tok p w l1 l2 u U E Hl Hu)
      as (_ & Us & _).
    split; [|apply Ni]. unfold result.
    rewrite (find_user_by_found "id" (id u) _ l1 l2 _ eq_refl Us);
      [reflexivity| |apply py_eq_refl].
    rewrite E in U. exact (unique_ids_front l1 l2 u U).
  - intros u Hu. destruct (S u Hu) as (pw & salt & E).
    exists pw, salt. rewrite E. repeat split.
    + intro G. inversion G. now apply (Ne (encode pw) salt).
    + intro G. inversion G. now apply (Ni (encode pw) salt).
    + discriminate.
  - intros e p. split.
    + intro F. pose proof (find_user_by_inl _ _ _ F) as Hn.
      now destruct (valid_login_missing e p w Hn).
    + intros u F.
      destruct (find_user_by_inr _ _ _ _ F) as (l1 & l2 & E & Hl & Hu).
      pose proof S as S'. rewrite E in S'.
      destruct (stores_digests_middle _ _ _ S') as (pw & salt & Hh).
      exists (hashpw (encode pw) salt). split; [assumption|].
      now destruct (valid_login_found e p w l1 l2 u _ E Hl Hu Hh).
Qed.

(* -------------------------------------------------------------- *)
(** *** Tokens in reachable stores *)

Lemma drawn_mono (d d' : nat) (v : value) :
  (d <= d')%nat -> drawn d v -> drawn d' v.
Proof.
  intros Hd [->|(k & Hk & ->)]; [now left|right].
  exists k. split; [lia|reflexivity].
Qed.

Lemma set_tokens_app (f : User -> value) (l1 l2 : list User) :
  set_tokens f (l1 ++ l2) = set_tokens f l1 ++ set_tokens f l2.
Proof. unfold set_tokens. now rewrite map_app, filter_app. Qed.

Lemma set_tokens_In (f : User -> value) (us : list User) (v : value) :
  In v (set_tokens f us) -> exists x, In x us /\ f x = v.
Proof.
  unfold set_tokens. intro H. apply filter_In in H. destruct H as [H _].
  apply in_map_iff in H. destruct H as (x & E & Hx). now exists x.
Qed.

(** A row replaced by one with the same token. *)
Lemma distinct_tokens_same (f : User -> value) (l1 l2 : list User)
    (u u' : User) :
  f u' = f u ->
  distinct_tokens f (l1 ++ u :: l2) -> distinct_tokens f (l1 ++ u' :: l2).
Proof.
  unfold distinct_tokens. intro E.
  rewrite !set_tokens_app. unfold set_tokens at 2 4. simpl.
  now rewrite E.
Qed.

(** A row replaced by one whose token is cleared. *)
Lemma distinct_tokens_clear (f : User -> value) (l1 l2 : list User)
    (u u' : User) :
  f u' = VNone ->
  distinct_tokens f (l1 ++ u :: l2) -> distinct_tokens f (l1 ++ u' :: l2).
Proof.
  unfold distinct_tokens. intro E.
  rewrite !set_tokens_app. unfold set_tokens at 2 4. simpl.
  rewrite E. simpl. fold (set_tokens f l2).
  destruct (negb (py_eq (f u) VNone)); [|trivial].
  apply NoDup_remove_1.
Qed.

(** A row replaced by one whose token no other row carries. *)
Lemma distinct_tokens_fresh (f : User -> value) (l1 l2 : list User)
    (u u' : User) :
  (forall x, In x (l1 ++ l2) -> f x <> f u') ->
  distinct_tokens f (l1 ++ u :: l2) -> distinct_tokens f (l1 ++ u' :: l2).
Proof.
  unfold distinct_tokens. intro Fresh.
  rewrite !set_tokens_app. unfold set_tokens at 2 4. simpl.
  fold (set_tokens f l2). intro H.
  assert (N : NoDup (set_tokens f l1 ++ set_tokens f l2)).
  { destruct (negb (py_eq (f u) VNone)); [|exact H].
    now apply NoDup_remove_1 in H. }
  destruct (negb (py_eq (f u') VNone)); [|exact N].
  apply NoDup_Add with (a := f u') (l := set_tokens f l1 ++ set_tokens f l2).
  - apply Add_app.
  - split; [exact N|]. rewrite <- set_tokens_app. intro Hin.
    apply set_tokens_In in Hin. destruct Hin as (x & Hx & E).
    now apply (Fresh x).
Qed.

Lemma distinct_tokens_add (f : User -> value) (us : list User) (u : User) :
  f u = VNone -> distinct_tokens f us -> distinct_tokens f (us ++ [u]).
Proof.
  unfold distinct_tokens. intros E H. rewrite set_tokens_app.
  unfold set_tokens at 2. simpl. rewrite E. simpl. now rewrite app_nil_r.
Qed.

(** The owner of a token that is set is the only row carrying it. *)
Lemma distinct_tokens_owner (f : User -> value) (l1 l2 : list User)
    (u x : User) :
  distinct_tokens f (l1 ++ u :: l2) ->
  f u <> VNone -> In x (l1 ++ l2) -> f x <> f u.
Proof.
  unfold distinct_tokens. rewrite set_tokens_app.
  unfold set_tokens at 2. simpl. fold (set_tokens f l2).
  intros H Hu Hx E. rewrite (py_eq_neq _ _ Hu) in H. simpl in H.
  apply NoDup_remove_2 in H. apply H. rewrite <- set_tokens_app.
  unfold set_tokens. apply filter_In. split.
  - rewrite <- E. now apply in_map.
  - now rewrite (py_eq_neq _ _ Hu).
Qed.

Lemma tokens_drawn_fresh (w : World) :
  uuid4_injective uuid -> tokens_drawn w ->
  forall x, In x (users w) ->
    session_id x <> VStr (uuid4 (draws w)) /\
    reset_token x <> VStr (uuid4 (draws w)).
Proof.
  intros Inj T x Hx. destruct (T x Hx) as [Hs Hr]. split; intro E.
  - rewrite E in Hs. destruct Hs as [Hs|(k & Hk & Hs)]; [discriminate|].
    inversion Hs as [Hk']. apply Inj in Hk'. lia.
  - rewrite E in Hr. destruct Hr as [Hr|(k & Hk & Hr)]; [discriminate|].
    inversion Hr as [Hk']. apply Inj in Hk'. lia.
Qed.

(** A call that changes no row and draws at most more values. *)
Lemma tokens_ok_same (w w' : World) :
  users w' = users w -> (draws w <= draws w')%nat ->
  tokens_ok w -> tokens_ok w'.
Proof.
  intros Us D (T & Ds & Dr). unfold tokens_ok, tokens_drawn.
  rewrite Us. repeat split; try assumption;
    destruct (T x H) as [A B]; eauto using drawn_mono.
Qed.

(** A call that replaces one row and draws one value. *)
Lemma tokens_ok_replace (w w' : World) (l1 l2 : list User) (u u' : User) :
  users w = l1 ++ u :: l2 ->
  users w' = l1 ++ u' :: l2 ->
  (draws w <= draws w')%nat ->
  drawn (draws w') (session_id u') ->
  drawn (draws w') (reset_token u') ->
  (distinct_tokens session_id (l1 ++ u :: l2) ->
   distinct_tokens session_id (l1 ++ u' :: l2)) ->
  (distinct_tokens reset_token (l1 ++ u :: l2) ->
   distinct_tokens reset_token (l1 ++ u' :: l2)) ->
  tokens_ok w -> tokens_ok w'.
Proof.
  intros E E' D Hs Hr Fs Fr (T & Ds & Dr). unfold tokens_ok, tokens_drawn.
  rewrite E'. rewrite E in Ds, Dr. repeat split; auto.
  - apply in_app_or in H. destruct H as [H|[<-|H]]; [|assumption|];
      (destruct (T x) as [A _];
       [rewrite E; apply in_or_app; auto using in_cons|
        eauto using drawn_mono]).
  - apply in_app_or in H. destruct H as [H|[<-|H]]; [|assumption|];
      (destruct (T x) as [_ B];
       [rewrite E; apply in_or_app; auto using in_cons|
        eauto using drawn_mono]).
Qed.

Lemma serve_tokens (r : request) (w : World) :
  uuid4_injective uuid ->
  unique_ids (users w) -> tokens_ok w -> tokens_ok (serve r w).
Proof.
  intros Inj U T. pose proof T as (Td & Ds & Dr).
  pose proof (tokens_drawn_fresh w Inj Td) as Fresh.
  destruct r as [e p|e p|e|sid|user_id|e|tok p]; simpl.
  - destruct (first_match_cases "email" (VStr e) (users w)) as
      [[_ Hn]|(l1 & u & l2 & E & _ & Hu & Hl)].
    + destruct (register_user_new e p w Hn) as (_ & Us & D).
      unfold tokens_ok, tokens_drawn. rewrite Us, D. repeat split.
      * apply in_app_or in H. destruct H as [H|[<-|[]]]; [|now left].
        destruct (Td x H) as [A _]. apply (drawn_mono (draws w)); [lia|exact A].
      * apply in_app_or in H. destruct H as [H|[<-|[]]]; [|now left].
        destruct (Td x H) as [_ B]. apply (drawn_mono (draws w)); [lia|exact B].
      * now apply distinct_tokens_add.
      * now apply distinct_tokens_add.
    + destruct (register_user_exists e p w l1 l2 u E Hl Hu) as (_ & Us & D).
      apply (tokens_ok_same w); [assumption|lia|assumption].
  - assert (G : users (after (Auth.valid_login e p) w) = users w /\
                draws (after (Auth.valid_login e p) w) = draws w).
    { unfold after, Auth.valid_login, try_except_else, DB.find_user_by,
        bind, DB.find_ref, DB.deref. simpl.
      destruct (DB.first_match "email" (VStr e) (users w)) as [i|]; simpl;
        [|now split].
      destruct (nth_error (users w) i) as [x|]; simpl; [|now split].
      unfold Auth.bcrypt_checkpw. destruct (hashed_password x); now split. }
    destruct G as [Us D].
    apply (tokens_ok_same w); [assumption|lia|assumption].
  - destruct (first_match_cases "email" (VStr e) (users w)) as
      [[_ Hn]|(l1 & u & l2 & E & _ & Hu & Hl)].
    + destruct (create_session_missing e w Hn) as (_ & Us & D).
      apply (tokens_ok_same w); [assumption|lia|assumption].
    + destruct (create_session_found e w l1 l2 u U E Hl Hu) as (_ & Us & D).
      apply (tokens_ok_replace w _ l1 l2 u _ E Us); try assumption.
      * lia.
      * right. exists (draws w). split; [lia|reflexivity].
      * destruct (Td u) as [_ B].
        { rewrite E. apply in_or_app. right. now left. }
        apply (drawn_mono (draws w)); [lia|exact B].
      * apply distinct_tokens_fresh. intros x Hx.
        apply (Fresh x). rewrite E. apply in_app_or in Hx.
        apply in_or_app. destruct Hx; [now left|right; now right].
      * now apply distinct_tokens_same.
  - destruct (first_match_cases "session_id" sid (users w)) as
      [[_ Hn]|(l1 & u & l2 & E & _ & Hu & Hl)].
    + destruct (get_user_from_session_id_missing sid w Hn) as (_ & Us & D).
      apply (tokens_ok_same w); [assumption|lia|assumption].
    + destruct sid as [|z|s|b|o]; [exact T|..].
      * destruct (get_user_from_session_id_found (VInt z) w l1 l2 u)
          as (_ & Us & D); try assumption; try discriminate.
        apply (tokens_ok_same w); [assumption|lia|assumption].
      * destruct (get_user_from_session_id_found (VStr s) w l1 l2 u)
          as (_ & Us & D); try assumption; try discriminate.
        apply (tokens_ok_same w); [assumption|lia|assumption].
      * destruct (get_user_from_session_id_found (VBytes b) w l1 l2 u)
          as (_ & Us & D); try assumption; try discriminate.
        apply (tokens_ok_same w); [assumption|lia|assumption].
      * destruct (get_user_from_session_id_found (VObject o) w l1 l2 u)
          as (_ & Us & D); try assumption; try discriminate.
        apply (tokens_ok_same w); [assumption|lia|assumption].
  - destruct (first_match_cases "id" user_id (users w)) as
      [[_ Hn]|(l1 & u & l2 & E & _ & Hu & Hl)].
    + destruct (destroy_session_missing user_id w) as (_ & Us & D).
      { intros x Hx G. apply Hn in Hx. apply matches_false in Hx.
        unfold getattr in Hx. simpl in Hx. congruence. }
      apply (tokens_ok_same w); [assumption|lia|assumption].
    + assert (Hid : id u = user_id).
      { apply matches_true in Hu. unfold getattr in Hu. simpl in Hu.
        congruence. }
      destruct (destroy_session_found user_id w l1 l2 u U E Hid)
        as (_ & Us & D).
      apply (tokens_ok_replace w _ l1 l2 u _ E Us); try assumption.
      * lia.
      * now left.
      * destruct (Td u) as [_ B].
        { rewrite E. apply in_or_app. right. now left. }
        apply (drawn_mono (draws w)); [lia|exact B].
      * now apply distinct_tokens_clear.
      * now apply distinct_tokens_same.
  - destruct (first_match_cases "email" (VStr e) (users w)) as
      [[_ Hn]|(l1 & u & l2 & E & _ & Hu & Hl)].
    + destruct (get_reset_password_token_missing e w Hn) as (_ & Us & D).
      apply (tokens_ok_same w); [assumption|lia|assumption].
    + destruct (get_reset_password_token_found e w l1 l2 u U E Hl Hu)
        as (_ & Us & D).
      apply (tokens_ok_replace w _ l1 l2 u _ E Us); try assumption.
      * lia.
      * destruct (Td u) as [A _].
        { rewrite E. apply in_or_app. right. now left. }
        apply (drawn_mono (draws w)); [lia|exact A].
      * right. exists (draws w). split; [lia|reflexivity].
      * now apply distinct_tokens_same.
      * apply distinct_tokens_fresh. intros x Hx.
        apply (Fresh x). rewrite E. apply in_app_or in Hx.
        apply in_or_app. destruct Hx; [now left|right; now right].
  - destruct (first_match_cases "reset_token" tok (users w)) as
      [[_ Hn]|(l1 & u & l2 & E & _ & Hu & Hl)].
    + destruct (update_password_missing tok p w Hn) as (_ & Us & D).
      apply (tokens_ok_same w); [assumption|lia|assumption].
    + destruct (update_password_found tok p w l1 l2 u U E Hl Hu)
        as (_ & Us & D).
      apply (tokens_ok_replace w _ l1 l2 u _ E Us); try assumption.
      * lia.
      * destruct (Td u) as [A _].
        { rewrite E. apply in_or_app. right. now left. }
        apply (drawn_mono (draws w)); [lia|exact A].
      * now left.
      * now apply distinct_tokens_same.
      * now apply distinct_tokens_clear.
Qed.

(** With an injective [uuid4], every reachable store has unique
    identifiers, tokens drawn earlier, and no token shared by two rows. *)
Lemma reachable_tokens (w : World) :
  uuid4_injective uuid -> reachable w -> tokens_ok w.
Proof.
  intros Inj R. induction R as [d|r w R IH].
  - split; [intros x []|split; apply NoDup_nil].
  - apply serve_tokens; [assumption| |assumption].
    now apply reachable_keeps.
Qed.

(** X2: in a reachable store, with a [uuid4] that never repeats, the next
    UUID drawn is the [session_id] and the [reset_token] of no stored
    row. *)
Lemma reachable_fresh (w : World) :
  uuid4_injective uuid -> reachable w ->
  forall x, In x (users w) ->
    session_id x <> VStr (uuid4 (draws w)) /\
    reset_token x <> VStr (uuid4 (draws w)).
Proof.
  intros Inj R. apply tokens_drawn_fresh; [assumption|].
  now apply reachable_tokens.
Qed.

(** X3: in a reachable store, with a [uuid4] that never repeats, a
    session token that is set belongs to one row only. *)
Lemma reachable_session_owner (w : World) (l1 l2 : list User) (u : User)
    (t : string) :
  uuid4_injective uuid -> reachable w ->
  users w = l1 ++ u :: l2 -> session_id u = VStr t ->
  forall x, In x (users w) -> session_id x = VStr t -> id x = id u.
Proof.
  intros Inj R E Ht x Hx Hxt.
  destruct (reachable_tokens w Inj R) as (_ & Ds & _). rewrite E in Ds, Hx.
  apply in_app_or in Hx. destruct Hx as [Hx|[<-|Hx]]; [|reflexivity|];
    exfalso;
    apply (distinct_tokens_owner session_id l1 l2 u x Ds);
    try (rewrite Ht; discriminate); try congruence;
    apply in_or_app; auto.
Qed.

(** X1: identifiers are unique in every reachable store: [add_user] is
    the only writer of [id], and it takes a number above all those in
    use. *)
Lemma reachable_unique_ids (w : World) :
  reachable w -> unique_ids (users w).
Proof. intro R. now destruct (reachable_keeps w R). Qed.

(** X4: single-slot sessions.  In a reachable store, with a [uuid4] that
    never repeats, a second [create_session] for the same user overwrites
    the first token: the first token then resolves to no user, the second
    to the user. *)
Lemma second_session_orphans_first (e : string) (u : User) (w : World) :
  uuid4_injective uuid ->
  reachable w ->
  result (DB.find_user_by [("email", VStr e)]) w = inr u ->
  exists t1 t2,
    let w1 := after (Auth.create_session e) w in
    let w2 := after (Auth.create_session e) w1 in
    result (Auth.create_session e) w = inr (Some t1) /\
    result (Auth.create_session e) w1 = inr (Some t2) /\
    result (Auth.get_user_from_session_id (VStr t1)) w2 = inr None /\
    result (Auth.get_user_from_session_id (VStr t2)) w2 =
      inr (Some (setattr u "session_id" (VStr t2))).
Proof.
  intros Inj R F.
  destruct (reachable_keeps w R) as [U _].
  destruct (reachable_tokens w Inj R) as (Td & _ & _).
  destruct (find_user_by_inr _ _ _ _ F) as (l1 & l2 & E & Hl & Hu).
  destruct (create_session_found e w l1 l2 u U E Hl Hu) as (R1 & Us1 & D1).
  set (t1 := uuid4 (draws w)) in *.
  set (w1 := after (Auth.create_session e) w) in *.
  set (u1 := setattr u "session_id" (VStr t1)) in *.
  assert (U1 : unique_ids (users w1)).
  { rewrite Us1. rewrite E in U. now apply (unique_ids_replace l1 l2 u). }
  assert (Hu1 : matches "email" (VStr e) u1 = true) by exact Hu.
  destruct (create_session_found e w1 l1 l2 u1 U1 Us1 Hl Hu1)
    as (R2 & Us2 & D2).
  rewrite D1 in R2, Us2.
  set (t2 := uuid4 (S (draws w))) in *.
  set (w2 := after (Auth.create_session e) w1) in *.
  change (users w2 = l1 ++ setattr u "session_id" (VStr t2) :: l2) in Us2.
  assert (Old : forall x k, In x (l1 ++ l2) -> (draws w <= k)%nat ->
                            session_id x <> VStr (uuid4 k)).
  { intros x k Hx Hk G. destruct (Td x) as [A _].
    - rewrite E. apply in_app_or in Hx. apply in_or_app.
      destruct Hx; [now left|right; now right].
    - rewrite G in A. destruct A as [A|(j & Hj & A)]; [discriminate|].
      inversion A as [A']. apply Inj in A'. lia. }
  exists t1, t2. cbv zeta. fold w1. fold w2.
  split; [exact R1|]. split; [exact R2|]. split.
  - destruct (get_user_from_session_id_missing (VStr t1) w2) as [G _];
      [|exact G].
    rewrite Us2. intros x Hx. apply matches_false. unfold getattr. simpl.
    intro G. inversion G as [G']. clear G.
    apply in_app_or in Hx. destruct Hx as [Hx|[<-|Hx]].
    + apply (Old x (draws w)); [apply in_or_app; now left|lia|exact G'].
    + simpl in G'. inversion G' as [G'']. apply Inj in G''. lia.
    + apply (Old x (draws w)); [apply in_or_app; now right|lia|exact G'].
  - destruct (get_user_from_session_id_found (VStr t2) w2 l1 l2
                (setattr u "session_id" (VStr t2))) as [G _];
      try assumption; try discriminate.
    + intros x Hx. apply matches_false. unfold getattr. simpl.
      intro G. inversion G as [G'].
      apply (Old x (S (draws w))); [apply in_or_app; now left|lia|exact G'].
    + unfold matches, getattr, setattr. simpl. apply String.eqb_refl.
Qed.

(** X5: reset-token issuance surfaces a missing user.  For an unknown
    email [get_reset_password_token] raises the [ValueError] of a user not
    found, draws no token and changes no row. *)
Lemma reset_token_for_unknown_email (e : string) (w : World) :
  result (DB.find_user_by [("email", VStr e)]) w = inl NoResultFound ->
  result (Auth.get_reset_password_token e) w =
    inl (ValueError "User not found") /\
  users (after (Auth.get_reset_password_token e) w) = users w /\
  draws (after (Auth.get_reset_password_token e) w) = draws w.
Proof.
  intro F. apply get_reset_password_token_missing.
  now apply find_user_by_inl.
Qed.

End AuthClaims.

(* ------------------------------------------------------------------ *)
(** ** More of db.py: several keywords, insertion, failed updates *)

Section MoreDB.

Context {user_py : UserClass}.

Lemma run_eq {A} (m : M A) (w : World) : m w = (result m w, after m w).
Proof. unfold result, after. now destruct (m w). Qed.

Lemma find_user_by_result (kw : kwargs) (w : World) :
  result (DB.find_user_by kw) w =
  match DB.find_loop (users w) kw with
  | inl e => inl e
  | inr i =>
      match nth_error (users w) i with
      | Some u => inr u
      | None => inl NoResultFound
      end
  end.
Proof.
  unfold result, DB.find_user_by, bind, DB.find_ref, DB.deref. simpl.
  destruct (DB.find_loop (users w) kw) as [e|i]; [reflexivity|].
  simpl. now destruct (nth_error (users w) i).
Qed.

Lemma find_user_by_keeps (kw : kwargs) (w : World) :
  users (after (DB.find_user_by kw) w) = users w /\
  draws (after (DB.find_user_by kw) w) = draws w.
Proof.
  unfold after, DB.find_user_by, bind, DB.find_ref, DB.deref. simpl.
  destruct (DB.find_loop (users w) kw) as [e|i]; [now split|].
  simpl. now destruct (nth_error (users w) i).
Qed.

(** X6: with several keywords, [find_user_by] returns the first row that
    matches the first keyword matching any row: the row returned is a
    stored row whose attribute equals the value of ONE keyword, the
    keywords before that one are names of [User.__dict__] and match no
    row, and the keywords after it are not looked at. *)
Theorem find_user_by_returns (kw : kwargs) (w : World) (u : User) :
  result (DB.find_user_by kw) w = inr u ->
  exists kw1 k v kw2 l1 l2,
    kw = kw1 ++ (k, v) :: kw2 /\
    (forall k' v', In (k', v') kw1 ->
       In k' User_dict /\
       forall x, In x (users w) -> getattr x k' <> Some v') /\
    In k User_dict /\
    users w = l1 ++ u :: l2 /\
    getattr u k = Some v /\
    (forall x, In x l1 -> getattr x k <> Some v).
Proof.
  rewrite find_user_by_result.
  induction kw as [|[k v] kw IH]; simpl; [discriminate|].
  destruct (in_User_dict k) eqn:Hk; simpl; [|discriminate].
  destruct (first_match_cases k v (users w)) as
    [[F Hn]|(l1 & u' & l2 & E & F & Hu & Hl)]; rewrite F.
  - intro H. destruct (IH H)
      as (kw1 & k0 & v0 & kw2 & l1 & l2 & -> & H1 & H2 & H3 & H4 & H5).
    exists ((k, v) :: kw1), k0, v0, kw2, l1, l2.
    split; [reflexivity|]. split; [|now repeat split].
    intros k' v' [G|G]; [inversion G; subst|now apply (H1 k' v')].
    split; [now apply in_User_dict_In|].
    intros x Hx. apply matches_false. now apply Hn.
  - assert (N : nth_error (users w) (length l1) = Some u')
      by (rewrite E; apply nth_error_middle).
    rewrite N. intro H. inversion H; subst.
    exists [], k, v, kw, l1, l2.
    split; [reflexivity|]. split; [intros k' v' []|].
    split; [now apply in_User_dict_In|]. split; [assumption|].
    split; [now apply matches_true|].
    intros x Hx. apply matches_false. now apply Hl.
Qed.

(** X7: a keyword that names an attribute and matches a row decides the
    call: whatever follows it, valid or not, changes nothing. *)
Theorem find_user_by_short_circuit (k : string) (v : value) (rest : kwargs)
    (w : World) :
  In k User_dict ->
  (exists x, In x (users w) /\ getattr x k = Some v) ->
  result (DB.find_user_by ((k, v) :: rest)) w =
  result (DB.find_user_by [(k, v)]) w /\
  exists u, result (DB.find_user_by ((k, v) :: rest)) w = inr u.
Proof.
  intros Hk (x & Hx & Hv). rewrite !find_user_by_result. simpl.
  apply in_User_dict_In in Hk. rewrite Hk. simpl.
  destruct (first_match_cases k v (users w)) as
    [[F Hn]|(l1 & u' & l2 & E & F & Hu & Hl)]; rewrite F.
  - apply Hn in Hx. apply matches_false in Hx. contradiction.
  - split; [reflexivity|].
    assert (N : nth_error (users w) (length l1) = Some u')
      by (rewrite E; apply nth_error_middle).
    rewrite N. now exists u'.
Qed.

(** X8: [find_user_by] raises [NoResultFound] exactly when every keyword
    is a name of [User.__dict__] (a column, or another entry of the class
    namespace such as [__module__]) and no row matches any keyword; in
    particular with no keyword at all. *)
Theorem find_user_by_no_result (kw : kwargs) (w : World) :
  result (DB.find_user_by kw) w = inl NoResultFound <->
  (forall k v, In (k, v) kw ->
     In k User_dict /\ forall x, In x (users w) -> getattr x k <> Some v).
Proof.
  rewrite find_user_by_result.
  induction kw as [|[k v] kw IH]; simpl.
  - split; [intros _ k v []|reflexivity].
  - destruct (in_User_dict k) eqn:Hk; simpl.
    + destruct (first_match_cases k v (users w)) as
        [[F Hn]|(l1 & u' & l2 & E & F & Hu & Hl)]; rewrite F.
      * rewrite IH. split.
        -- intros H k' v' [G|G]; [inversion G; subst|now apply H].
           split; [now apply in_User_dict_In|].
           intros x Hx. apply matches_false. now apply Hn.
        -- intros H k' v' G. apply H. now right.
      * assert (N : nth_error (users w) (length l1) = Some u')
          by (rewrite E; apply nth_error_middle).
        rewrite N. split; [discriminate|].
        intro H. destruct (H k v) as [_ G]; [now left|].
        exfalso. apply (G u').
        -- rewrite E. apply in_or_app. right. now left.
        -- now apply matches_true.
    + split; [discriminate|]. intro H.
      destruct (H k v) as [G _]; [now left|].
      apply in_User_dict_In in G. congruence.
Qed.

Lemma max_id_fresh (us : list User) :
  forall x, In x us -> matches "id" (VInt (DB.max_id us + 1)) x = false.
Proof.
  intros x Hx. apply matches_false. unfold getattr. simpl. intro E.
  inversion E as [E']. pose proof (max_id_bound us x _ Hx E'). lia.
Qed.

Lemma add_user_taken (e : string) (h : bytes) (w : World) :
  (forall x, In x (users w) -> matches "email" (VStr e) x = false) ->
  DB.add_user (VStr e) (VBytes h) w =
  (inr (mkUser (VInt (DB.max_id (users w) + 1)) (VStr e) (VBytes h)
          VNone VNone),
   log_call (CallAddUser (VStr e) (VBytes h))
     (set_users
        (users w ++
         [mkUser (VInt (DB.max_id (users w) + 1)) (VStr e) (VBytes h)
            VNone VNone]) w)).
Proof.
  intro H. unfold DB.add_user.
  now rewrite (takes_email _ _ H), takes_hashed_password.
Qed.

(** X9: insertion and lookup.  For an email that is a string no row has,
    and a digest, [add_user] appends a row with null tokens; a lookup by
    the identifier it returns finds that row, and so does a lookup by its
    email; and every single-keyword lookup that found a row before still
    finds the same row. *)
Theorem add_user_then_find (e : string) (h : bytes) (w : World) :
  (forall x, In x (users w) -> email x <> VStr e) ->
  exists new_user,
    result (DB.add_user (VStr e) (VBytes h)) w = inr new_user /\
    users (after (DB.add_user (VStr e) (VBytes h)) w) =
      users w ++ [new_user] /\
    email new_user = VStr e /\
    hashed_password new_user = VBytes h /\
    session_id new_user = VNone /\
    reset_token new_user = VNone /\
    result (DB.find_user_by [("id", id new_user)])
      (after (DB.add_user (VStr e) (VBytes h)) w) = inr new_user /\
    result (DB.find_user_by [("email", VStr e)])
      (after (DB.add_user (VStr e) (VBytes h)) w) = inr new_user /\
    (forall k v u,
       result (DB.find_user_by [(k, v)]) w = inr u ->
       result (DB.find_user_by [(k, v)])
         (after (DB.add_user (VStr e) (VBytes h)) w) = inr u).
Proof.
  intro Fresh.
  assert (Hm : forall x, In x (users w) -> matches "email" (VStr e) x = false).
  { intros x Hx. apply matches_false. unfold getattr. simpl.
    intro G. inversion G. now apply (Fresh x). }
  set (nu := mkUser (VInt (DB.max_id (users w) + 1)) (VStr e) (VBytes h)
               VNone VNone).
  exists nu. unfold result, after. rewrite (add_user_taken e h w Hm).
  fold nu. cbn [fst snd].
  split; [reflexivity|]. split; [reflexivity|]. split; [reflexivity|].
  split; [reflexivity|]. split; [reflexivity|]. split; [reflexivity|].
  split; [|split].
  - rewrite (find_user_by_found "id" (id nu) _ (users w) [] nu);
      try reflexivity.
    + apply max_id_fresh.
    + apply matches_id_self.
  - rewrite (find_user_by_found "email" (VStr e) _ (users w) [] nu);
      try reflexivity; [exact Hm|].
    unfold matches, getattr. simpl. apply String.eqb_refl.
  - intros k v u F.
    destruct (find_user_by_inr _ _ _ _ F) as (l1 & l2 & E & Hl & Hu).
    assert (Hk : in_User_dict k = true).
    { destruct (in_User_dict k) eqn:Hk; [reflexivity|].
      unfold result in F. rewrite find_user_by_invalid in F by assumption.
      discriminate. }
    rewrite (find_user_by_found k v _ l1 (l2 ++ [nu]) u); try assumption.
    + reflexivity.
    + change (users w ++ [nu] = l1 ++ u :: l2 ++ [nu]). clearbody nu.
      rewrite E, <- app_assoc. reflexivity.
Qed.

(** What a call of [update_user] that returns has done. *)
Lemma update_user_returns (user_id : value) (kw : kwargs) (w : World) :
  result (DB.update_user user_id kw) w = inr tt ->
  exists l1 u l2,
    users w = l1 ++ u :: l2 /\
    (forall x, In x l1 -> matches "id" user_id x = false) /\
    matches "id" user_id u = true /\
    fst (DB.set_attrs u kw) = inr tt /\
    flushes (l1 ++ l2) u (snd (DB.set_attrs u kw)) = true.
Proof.
  unfold result. intro H.
  destruct (first_match_cases "id" user_id (users w)) as
    [[_ Hn]|(l1 & u & l2 & E & _ & Hu & Hl)].
  - rewrite (update_user_missing user_id kw w Hn) in H. discriminate.
  - exists l1, u, l2. split; [assumption|]. split; [assumption|].
    split; [assumption|].
    destruct (fst (DB.set_attrs u kw)) as [e|[]] eqn:R.
    + rewrite (update_user_found user_id kw w l1 l2 u E Hl Hu) in H;
        rewrite R in *; [|discriminate]. discriminate.
    + split; [reflexivity|].
      destruct (flushes (l1 ++ l2) u (snd (DB.set_attrs u kw))) eqn:F;
        [reflexivity|].
      rewrite (update_user_refused user_id kw w l1 l2 u E Hl Hu R F) in H.
      discriminate.
Qed.

(** X10: [update_user] is not atomic.  Take keywords with which the call
    returns normally, and put behind them a name that is not an attribute
    of the [User] object, and any keywords after it: the call raises
    [ValueError], the row keeps the assignments made before the bad name
    (the table is the one the call with only the keywords in front
    leaves), and the keywords behind it are never assigned. *)
Theorem update_user_not_atomic (user_id : value) (kw1 kw2 : kwargs)
    (bad : string) (v : value) (w : World) :
  result (DB.update_user user_id kw1) w = inr tt ->
  (forall u, hasattr u bad = false) ->
  result (DB.update_user user_id (kw1 ++ (bad, v) :: kw2)) w =
    inl (ValueError "") /\
  users (after (DB.update_user user_id (kw1 ++ (bad, v) :: kw2)) w) =
  users (after (DB.update_user user_id kw1) w).
Proof.
  intros H Hbad.
  destruct (update_user_returns user_id kw1 w H)
    as (l1 & u & l2 & E & Hl & Hu & R & F).
  pose proof (set_attrs_stops kw1 kw2 bad v u R (Hbad u)) as S.
  unfold result, after.
  rewrite (update_user_found user_id kw1 w l1 l2 u E Hl Hu (fun _ => F)).
  rewrite (update_user_found user_id _ w l1 l2 u E Hl Hu);
    rewrite S; [|discriminate].
  split; reflexivity.
Qed.

(** X25: the table is keyed by [id].  On a table with unique
    identifiers, [update_user(user_id, id=v)] with [v] the identifier of
    another row raises the [IntegrityError] of the refused [commit()], and
    no row changes: the call cannot make two rows share an identifier. *)
Theorem update_user_id_in_use (user_id v : value) (w : World)
    (l1 l2 : list User) (u x : User) :
  unique_ids (users w) ->
  users w = l1 ++ u :: l2 ->
  id u = user_id ->
  In x (l1 ++ l2) ->
  id x = v ->
  result (DB.update_user user_id [("id", v)]) w = inl IntegrityError /\
  users (after (DB.update_user user_id [("id", v)]) w) = users w.
Proof.
  intros U E <- Hx <-.
  assert (N : id u <> id x).
  { rewrite E in U. unfold unique_ids in U. rewrite map_app in U.
    simpl in U. apply NoDup_remove_2 in U. intro G. apply U.
    rewrite G, <- map_app. now apply in_map. }
  pose proof U as U'. rewrite E in U'.
  pose proof (unique_ids_front _ _ _ U') as Hl.
  pose proof (matches_id_self u) as Hu.
  unfold result, after.
  rewrite (update_user_refused (id u) _ w l1 l2 u E Hl Hu);
    [split; reflexivity|reflexivity|].
  simpl. unfold setattr. simpl. unfold flushes. simpl.
  unfold written at 1, takes. simpl.
  rewrite (py_eq_neq _ _ N). simpl.
  assert (Ex : existsb (fun o => py_eq (id o) (id x)) (l1 ++ l2) = true).
  { apply existsb_exists. exists x. split; [assumption|apply py_eq_refl]. }
  rewrite Ex. simpl. now rewrite andb_false_r.
Qed.

(* ------------------------------------------------------------------ *)
(** ** More of auth.py: how the methods compose *)

Lemma first_match_ext (key : string) (v : value) (us us' : list User) :
  Forall2 (fun x y => getattr x key = getattr y key) us us' ->
  DB.first_match key v us = DB.first_match key v us'.
Proof.
  induction 1 as [|x y us us' R _ IH]; [reflexivity|].
  rewrite !first_match_step. unfold matches. rewrite R, IH. reflexivity.
Qed.

Lemma Forall2_nth {A} (R : A -> A -> Prop) (l l' : list A) (i : nat) (a : A) :
  Forall2 R l l' -> nth_error l i = Some a ->
  exists b, nth_error l' i = Some b /\ R a b.
Proof.
  intro F. revert i. induction F as [|x y l l' Rxy _ IH]; intros i H.
  - destruct i; discriminate.
  - destruct i as [|i]; simpl in *.
    + inversion H; subst. now exists y.
    + now apply IH.
Qed.

Lemma Forall2_same {A} (R : A -> A -> Prop) (l : list A) :
  (forall a, R a a) -> Forall2 R l l.
Proof. intro H. induction l; constructor; auto. Qed.

Lemma Forall2_replace {A} (R : A -> A -> Prop) (l1 l2 : list A) (a b : A) :
  (forall x, R x x) -> R a b -> Forall2 R (l1 ++ a :: l2) (l1 ++ b :: l2).
Proof.
  intros Hr Hab. apply Forall2_app; [now apply Forall2_same|].
  constructor; [assumption|now apply Forall2_same].
Qed.

Lemma find_single_result (key : string) (v : value) (w : World) :
  in_User_dict key = true ->
  result (DB.find_user_by [(key, v)]) w =
  match DB.first_match key v (users w) with
  | Some i =>
      match nth_error (users w) i with
      | Some u => inr u
      | None => inl NoResultFound
      end
  | None => inl NoResultFound
  end.
Proof.
  intro Hk. rewrite find_user_by_result. simpl. rewrite Hk. simpl.
  now destruct (DB.first_match key v (users w)).
Qed.

(** A lookup on two tables that agree, row by row, on the attribute
    looked up finds rows at the same position. *)
Lemma find_single_ext (R : User -> User -> Prop) (key : string) (v : value)
    (w w' : World) (u : User) :
  in_User_dict key = true ->
  (forall x y, R x y -> getattr x key = getattr y key) ->
  Forall2 R (users w) (users w') ->
  result (DB.find_user_by [(key, v)]) w = inr u ->
  exists u', result (DB.find_user_by [(key, v)]) w' = inr u' /\ R u u'.
Proof.
  intros Hk HR F. rewrite !find_single_result by assumption.
  assert (G : Forall2 (fun x y => getattr x key = getattr y key)
                (users w) (users w')).
  { eapply Forall2_impl; [|exact F]. exact HR. }
  rewrite <- (first_match_ext key v _ _ G).
  destruct (DB.first_match key v (users w)) as [i|]; [|discriminate].
  destruct (nth_error (users w) i) as [x|] eqn:N; [|discriminate].
  intro H. inversion H; subst.
  destruct (Forall2_nth R _ _ i u F N) as (u' & N' & Ruu').
  rewrite N'. now exists u'.
Qed.

Lemma find_single_ext_none (R : User -> User -> Prop) (key : string)
    (v : value) (w w' : World) :
  in_User_dict key = true ->
  (forall x y, R x y -> getattr x key = getattr y key) ->
  Forall2 R (users w) (users w') ->
  result (DB.find_user_by [(key, v)]) w = inl NoResultFound ->
  result (DB.find_user_by [(key, v)]) w' = inl NoResultFound.
Proof.
  intros Hk HR F. rewrite !find_single_result by assumption.
  assert (G : Forall2 (fun x y => getattr x key = getattr y key)
                (users w) (users w')).
  { eapply Forall2_impl; [|exact F]. exact HR. }
  rewrite <- (first_match_ext key v _ _ G).
  destruct (DB.first_match key v (users w)) as [i|]; [|reflexivity].
  destruct (nth_error (users w) i) as [x|] eqn:N; [discriminate|].
  destruct (nth_error (users w') i) as [y|] eqn:N'; [|reflexivity].
  exfalso. apply Forall2_flip in F.
  destruct (Forall2_nth _ _ _ i y F N') as (b & Nb & _). congruence.
Qed.

End MoreDB.

Section MoreAuth.

Context {user_py : UserClass} {bcrypt : Bcrypt} {uuid : Uuid}.

Lemma get_user_from_session_id_result (sid : value) (w : World) :
  sid <> VNone ->
  result (Auth.get_user_from_session_id sid) w =
  match result (DB.find_user_by [("session_id", sid)]) w with
  | inr u => inr (Some u)
  | inl NoResultFound => inr None
  | inl e => inl e
  end.
Proof.
  intro Hs. unfold Auth.get_user_from_session_id.
  destruct sid; [contradiction|..];
    unfold result at 1, try_except, bind;
    rewrite (run_eq (DB.find_user_by _) w);
    (destruct (result (DB.find_user_by _) w) as [[]|u]; reflexivity).
Qed.

Lemma valid_login_result (e p : string) (w : World) :
  result (Auth.valid_login e p) w =
  match result (DB.find_user_by [("email", VStr e)]) w with
  | inr u =>
      match hashed_password u with
      | VBytes h => inr (checkpw (encode p) h)
      | _ => inl TypeError
      end
  | inl NoResultFound => inr false
  | inl e => inl e
  end.
Proof.
  unfold Auth.valid_login, result at 1, try_except_else.
  rewrite (run_eq (DB.find_user_by _) w).
  destruct (result (DB.find_user_by _) w) as [[]|u]; try reflexivity.
  unfold Auth.bcrypt_checkpw. now destruct (hashed_password u).
Qed.

(** What a call does to the table: nothing, one row appended by a
    registration, or one row replaced by a row with the same [id] and
    [email]. *)
Lemma serve_shape (r : request) (w : World) :
  unique_ids (users w) ->
  users (serve r w) = users w \/
  (exists e p,
     r = Register e p /\
     (forall x, In x (users w) -> email x <> VStr e) /\
     users (serve r w) =
       users w ++ [mkUser (VInt (DB.max_id (users w) + 1)) (VStr e)
                     (VBytes (hashpw (encode p) (gensalt (draws w))))
                     VNone VNone]) \/
  (exists l1 u u' l2,
     users w = l1 ++ u :: l2 /\
     users (serve r w) = l1 ++ u' :: l2 /\
     id u' = id u /\ email u' = email u /\
     (keeps_credentials r = true -> hashed_password u' = hashed_password u) /\
     (forall tok p, r = UpdatePassword tok p ->
        session_id u' = session_id u)).
Proof.
  intro U. destruct r as [e p|e p|e|sid|user_id|e|tok p]; simpl.
  - destruct (first_match_cases "email" (VStr e) (users w)) as
      [[_ Hn]|(l1 & u & l2 & E & _ & Hu & Hl)].
    + right. left. exists e, p. split; [reflexivity|]. split.
      * intros x Hx G. apply Hn in Hx. apply matches_false in Hx.
        unfold getattr in Hx. simpl in Hx. congruence.
      * now destruct (register_user_new e p w Hn) as (_ & -> & _).
    + left. now destruct (register_user_exists e p w l1 l2 u E Hl Hu)
        as (_ & -> & _).
  - left. unfold after, Auth.valid_login, try_except_else.
    rewrite (run_eq (DB.find_user_by _) w).
    destruct (find_user_by_keeps [("email", VStr e)] w) as [K _].
    destruct (result (DB.find_user_by _) w) as [[]|u]; simpl; try assumption.
    unfold Auth.bcrypt_checkpw. now destruct (hashed_password u).
  - destruct (first_match_cases "email" (VStr e) (users w)) as
      [[_ Hn]|(l1 & u & l2 & E & _ & Hu & Hl)].
    + left. now destruct (create_session_missing e w Hn) as (_ & -> & _).
    + right. right.
      destruct (create_session_found e w l1 l2 u U E Hl Hu) as (_ & -> & _).
      exists l1, u, (setattr u "session_id" (VStr (uuid4 (draws w)))), l2.
      repeat split; auto. intros tok p G. discriminate.
  - left. unfold after, Auth.get_user_from_session_id.
    destruct (find_user_by_keeps [("session_id", sid)] w) as [K _].
    destruct sid; [reflexivity|..];
      unfold try_except, bind; rewrite (run_eq (DB.find_user_by _) w);
      (destruct (result (DB.find_user_by _) w) as [[]|u]; simpl; assumption).
  - destruct (first_match_cases "id" user_id (users w)) as
      [[_ Hn]|(l1 & u & l2 & E & _ & Hu & Hl)].
    + left. destruct (destroy_session_missing user_id w) as (_ & -> & _);
        [|reflexivity].
      intros x Hx G. apply Hn in Hx. apply matches_false in Hx.
      unfold getattr in Hx. simpl in Hx. congruence.
    + right. right.
      assert (Hid : id u = user_id).
      { apply matches_true in Hu. unfold getattr in Hu. simpl in Hu.
        congruence. }
      destruct (destroy_session_found user_id w l1 l2 u U E Hid)
        as (_ & -> & _).
      exists l1, u, (setattr u "session_id" VNone), l2.
      repeat split; auto. intros tok p G. discriminate.
  - destruct (first_match_cases "email" (VStr e) (users w)) as
      [[_ Hn]|(l1 & u & l2 & E & _ & Hu & Hl)].
    + left. now destruct (get_reset_password_token_missing e w Hn)
        as (_ & -> & _).
    + right. right.
      destruct (get_reset_password_token_found e w l1 l2 u U E Hl Hu)
        as (_ & -> & _).
      exists l1, u, (setattr u "reset_token" (VStr (uuid4 (draws w)))), l2.
      repeat split; auto.
  - destruct (first_match_cases "reset_token" tok (users w)) as
      [[_ Hn]|(l1 & u & l2 & E & _ & Hu & Hl)].
    + left. now destruct (update_password_missing tok p w Hn) as (_ & -> & _).
    + right. right.
      destruct (update_password_found tok p w l1 l2 u U E Hl Hu)
        as (_ & -> & _).
      eexists l1, u, _, l2. repeat split; auto. discriminate.
Qed.

Lemma valid_login_ext (e p : string) (w w' : World) :
  Forall2 same_credentials (users w) (users w') ->
  result (Auth.valid_login e p) w = result (Auth.valid_login e p) w'.
Proof.
  intro F. rewrite !valid_login_result.
  assert (HR : forall x y, same_credentials x y ->
                 getattr x "email" = getattr y "email").
  { intros x y [E _]. unfold getattr. simpl. now rewrite E. }
  destruct (result (DB.find_user_by [("email", VStr e)]) w) as [err|u] eqn:R.
  - rewrite find_single_result in R by reflexivity.
    assert (err = NoResultFound) as ->.
    { destruct (DB.first_match "email" (VStr e) (users w)) as [i|];
        [destruct (nth_error (users w) i)|]; congruence. }
    rewrite <- find_single_result in R by reflexivity.
    now rewrite (find_single_ext_none same_credentials "email" (VStr e) w w'
                   eq_refl HR F R).
  - destruct (find_single_ext same_credentials "email" (VStr e) w w' u
                eq_refl HR F R) as (u' & -> & _ & <-).
    reflexivity.
Qed.

Lemma reachable_emails_distinct (w : World) :
  reachable w -> unique_emails (users w).
Proof.
  induction 1 as [d|r w R IH]; [constructor|].
  destruct (reachable_keeps w R) as [U _].
  destruct (serve_shape r w U) as
    [->|[(e & p & _ & Hn & ->)|(l1 & u & u' & l2 & E & -> & _ & Em & _)]].
  - assumption.
  - unfold unique_emails in *. rewrite map_app. simpl.
    apply NoDup_app; [assumption|repeat constructor; intros []|].
    intros a Ha [<-|[]]. apply in_map_iff in Ha.
    destruct Ha as (x & Hx & Hin). now apply (Hn x).
  - unfold unique_emails in *. rewrite E in IH.
    rewrite map_app in *. simpl in *. now rewrite Em.
Qed.

(** X11: one user per email.  In every reachable store no two rows have
    the same [email]: [register_user] looks the email up before it
    inserts, and no other method writes [email]. *)
Theorem reachable_unique_emails (w : World) :
  reachable w -> unique_emails (users w).
Proof. exact (reachable_emails_distinct w). Qed.

(** X14: sessions and reset tokens do not touch credentials.  On a table
    with unique identifiers, after [create_session], [destroy_session],
    [get_reset_password_token], [valid_login] or
    [get_user_from_session_id], with any argument, [valid_login] answers
    every email and password exactly as before. *)
Theorem token_calls_keep_logins (r : request) (w : World) :
  unique_ids (users w) ->
  keeps_credentials r = true ->
  forall e p,
    result (Auth.valid_login e p) (serve r w) =
    result (Auth.valid_login e p) w.
Proof.
  intros U K e p. symmetry. apply valid_login_ext.
  destruct (serve_shape r w U) as
    [->|[(e' & p' & -> & _)|(l1 & u & u' & l2 & E & -> & _ & Em & Hh & _)]].
  - apply Forall2_same. now split.
  - discriminate.
  - rewrite E. apply Forall2_replace; [now split|].
    split; [now rewrite Em|now rewrite (Hh K)].
Qed.

(** X12: a password reset logs nobody out.  On a table with unique
    identifiers, every session token that resolved to a user before
    [update_password] still resolves to that user after it, whether the
    call succeeded or raised. *)
Theorem update_password_keeps_sessions (tok : value) (p : string)
    (w : World) :
  unique_ids (users w) ->
  forall sid v,
    result (Auth.get_user_from_session_id sid) w = inr (Some v) ->
    exists v',
      result (Auth.get_user_from_session_id sid)
        (after (Auth.update_password tok p) w) = inr (Some v') /\
      same_session v v'.
Proof.
  intros U sid v H.
  assert (Hs : sid <> VNone) by (intros ->; discriminate).
  rewrite get_user_from_session_id_result in * by assumption.
  destruct (result (DB.find_user_by [("session_id", sid)]) w)
    as [[]|u] eqn:F; try discriminate.
  inversion H; subst u. clear H.
  assert (G : Forall2 same_session (users w)
                (users (after (Auth.update_password tok p) w))).
  { destruct (serve_shape (UpdatePassword tok p) w U) as
      [E|[(e' & p' & Q & _)|(l1 & u & u' & l2 & E & E' & Hi & Em & _ & Hse)]];
      simpl in *.
    - rewrite E. apply Forall2_same. now repeat split.
    - discriminate.
    - rewrite E, E'. apply Forall2_replace; [now repeat split|].
      repeat split; [now rewrite Hi|now rewrite Em|].
      symmetry. now apply (Hse tok p). }
  assert (HR : forall x y, same_session x y ->
                 getattr x "session_id" = getattr y "session_id").
  { intros x y (_ & _ & Es). unfold getattr. simpl. now rewrite Es. }
  destruct (find_single_ext same_session "session_id" sid w _ v eq_refl
              HR G F) as (v' & -> & Hv).
  now exists v'.
Qed.

(** X13: only the latest reset token works.  In a reachable store, with a
    [uuid4] that never repeats, after two calls of
    [get_reset_password_token] for the same user, [update_password] with
    the first token raises the [ValueError] of a user not found and
    changes no row, and with the second token it returns normally. *)
Theorem second_reset_token_replaces_first (e p : string) (u : User)
    (w : World) :
  uuid4_injective uuid ->
  reachable w ->
  result (DB.find_user_by [("email", VStr e)]) w = inr u ->
  exists t1 t2,
    let w1 := after (Auth.get_reset_password_token e) w in
    let w2 := after (Auth.get_reset_password_token e) w1 in
    result (Auth.get_reset_password_token e) w = inr t1 /\
    result (Auth.get_reset_password_token e) w1 = inr t2 /\
    result (Auth.update_password (VStr t1) p) w2 =
      inl (ValueError "User not found") /\
    users (after (Auth.update_password (VStr t1) p) w2) = users w2 /\
    result (Auth.update_password (VStr t2) p) w2 = inr tt.
Proof.
  intros Inj R F.
  destruct (reachable_keeps w R) as [U _].
  destruct (reachable_tokens w Inj R) as (Td & _ & _).
  destruct (find_user_by_inr _ _ _ _ F) as (l1 & l2 & E & Hl & Hu).
  destruct (get_reset_password_token_found e w l1 l2 u U E Hl Hu)
    as (R1 & Us1 & D1).
  set (t1 := uuid4 (draws w)) in *.
  set (w1 := after (Auth.get_reset_password_token e) w) in *.
  set (u1 := setattr u "reset_token" (VStr t1)) in *.
  assert (U1 : unique_ids (users w1)).
  { rewrite Us1. rewrite E in U. now apply (unique_ids_replace l1 l2 u). }
  assert (Hu1 : matches "email" (VStr e) u1 = true) by exact Hu.
  destruct (get_reset_password_token_found e w1 l1 l2 u1 U1 Us1 Hl Hu1)
    as (R2 & Us2 & D2).
  rewrite D1 in R2, Us2.
  set (t2 := uuid4 (S (draws w))) in *.
  set (w2 := after (Auth.get_reset_password_token e) w1) in *.
  change (users w2 = l1 ++ setattr u "reset_token" (VStr t2) :: l2) in Us2.
  assert (U2 : unique_ids (users w2)).
  { rewrite Us2. rewrite E in U. now apply (unique_ids_replace l1 l2 u). }
  assert (Old : forall x k, In x (l1 ++ l2) -> (draws w <= k)%nat ->
                            reset_token x <> VStr (uuid4 k)).
  { intros x k Hx Hk G. destruct (Td x) as [_ B].
    - rewrite E. apply in_app_or in Hx. apply in_or_app.
      destruct Hx; [now left|right; now right].
    - rewrite G in B. destruct B as [B|(j & Hj & B)]; [discriminate|].
      inversion B as [B']. apply Inj in B'. lia. }
  exists t1, t2. cbv zeta. fold w1. fold w2.
  split; [exact R1|]. split; [exact R2|].
  assert (Miss : forall x, In x (users w2) ->
                   matches "reset_token" (VStr t1) x = false).
  { rewrite Us2. intros x Hx. apply matches_false. unfold getattr. simpl.
    intro G. inversion G as [G']. clear G.
    apply in_app_or in Hx. destruct Hx as [Hx|[<-|Hx]].
    + apply (Old x (draws w)); [apply in_or_app; now left|lia|exact G'].
    + simpl in G'. inversion G' as [G'']. apply Inj in G''. lia.
    + apply (Old x (draws w)); [apply in_or_app; now right|lia|exact G']. }
  destruct (update_password_missing (VStr t1) p w2 Miss) as (M1 & M2 & _).
  split; [exact M1|]. split; [exact M2|].
  destruct (update_password_found (VStr t2) p w2 l1 l2
              (setattr u "reset_token" (VStr t2)) U2 Us2) as [G _];
    [| |exact G].
  - intros x Hx. apply matches_false. unfold getattr. simpl.
    intro G. inversion G as [G'].
    apply (Old x (S (draws w))); [apply in_or_app; now left|lia|exact G'].
  - unfold matches, getattr, setattr. simpl. apply String.eqb_refl.
Qed.

End MoreAuth.

(* ------------------------------------------------------------------ *)
(** ** app.py: what each view answers *)

Lemma falsy_Some (s : string) : s <> "" -> App.falsy (Some s) = false.
Proof. intro H. simpl. now apply String.eqb_neq. Qed.

Lemma email_missing {user_py : UserClass} (e : string) (w : World) :
  (forall x, In x (users w) -> email x <> VStr e) ->
  forall x, In x (users w) -> matches "email" (VStr e) x = false.
Proof.
  intros H x Hx. apply matches_false. unfold getattr. simpl.
  intro G. inversion G. now apply (H x).
Qed.

Lemma email_present {user_py : UserClass} (e : string) (w : World) :
  (exists x, In x (users w) /\ email x = VStr e) ->
  exists l1 u l2,
    users w = l1 ++ u :: l2 /\
    (forall x, In x l1 -> matches "email" (VStr e) x = false) /\
    matches "email" (VStr e) u = true /\ email u = VStr e.
Proof.
  intros (x & Hx & Ex).
  destruct (first_match_cases "email" (VStr e) (users w)) as
    [[_ Hn]|(l1 & u & l2 & E & _ & Hu & Hl)].
  - apply Hn in Hx. apply matches_false in Hx. unfold getattr in Hx.
    simpl in Hx. congruence.
  - exists l1, u, l2. repeat split; try assumption.
    apply matches_true in Hu. unfold getattr in Hu. simpl in Hu. congruence.
Qed.

Section AppViews.

Context {user_py : UserClass} {bcrypt : Bcrypt} {uuid : Uuid}.

(** X15: POST /users answers in exactly three ways.  Without a non-empty
    [email] and [password] in the form: 400 "email and password required",
    and nothing is called.  With an email no row has: 200 with the email
    and "user created", and the row is appended with the digest of the
    password.  With an email some row has: 400 "email already registered",
    and no row changes. *)
Theorem users_view (request : App.Request) (w : World) :
  (App.falsy (App.get (App.form request) "email")
   || App.falsy (App.get (App.form request) "password") = true ->
   App.handle (App.users request) w =
     (App.jsonify 400
        [("message", App.JString "email and password required")], w)) /\
  (forall e p,
     App.get (App.form request) "email" = Some e ->
     App.get (App.form request) "password" = Some p ->
     e <> "" -> p <> "" ->
     ((forall x, In x (users w) -> email x <> VStr e) ->
      fst (App.handle (App.users request) w) =
        App.jsonify 200 [("email", App.JString e);
                         ("message", App.JString "user created")] /\
      users (snd (App.handle (App.users request) w)) =
        users w ++ [mkUser (VInt (DB.max_id (users w) + 1)) (VStr e)
                      (VBytes (hashpw (encode p) (gensalt (draws w))))
                      VNone VNone]) /\
     ((exists x, In x (users w) /\ email x = VStr e) ->
      fst (App.handle (App.users request) w) =
        App.jsonify 400
          [("message", App.JString "email already registered")] /\
      users (snd (App.handle (App.users request) w)) = users w)).
Proof.
  split.
  - intro H. unfold App.handle, App.users. now rewrite H.
  - intros e p He Hp Ne Np.
    unfold App.handle, App.users. rewrite He, Hp.
    rewrite (falsy_Some e Ne), (falsy_Some p Np). simpl.
    unfold try_except, bind. rewrite (run_eq (Auth.register_user e p) w).
    split.
    + intro H. destruct (register_user_new e p w (email_missing e w H))
        as (R & Us & _).
      rewrite R. simpl. split; [reflexivity|exact Us].
    + intro H. destruct (email_present e w H) as (l1 & u & l2 & E & Hl & Hu & _).
      destruct (register_user_exists e p w l1 l2 u E Hl Hu) as (R & Us & _).
      rewrite R. simpl. split; [reflexivity|exact Us].
Qed.

Lemma valid_login_keeps (e p : string) (w : World) :
  users (after (Auth.valid_login e p) w) = users w /\
  draws (after (Auth.valid_login e p) w) = draws w.
Proof.
  unfold after, Auth.valid_login, try_except_else.
  rewrite (run_eq (DB.find_user_by _) w).
  destruct (find_user_by_keeps [("email", VStr e)] w) as [K D].
  destruct (result (DB.find_user_by _) w) as [[]|u]; simpl; try now split.
  unfold Auth.bcrypt_checkpw. now destruct (hashed_password u).
Qed.

Lemma get_user_from_session_id_keeps (sid : value) (w : World) :
  users (after (Auth.get_user_from_session_id sid) w) = users w /\
  draws (after (Auth.get_user_from_session_id sid) w) = draws w.
Proof.
  unfold after, Auth.get_user_from_session_id.
  destruct (find_user_by_keeps [("session_id", sid)] w) as [K D].
  destruct sid; [now split|..];
    unfold try_except, bind; rewrite (run_eq (DB.find_user_by _) w);
    (destruct (result (DB.find_user_by _) w) as [[]|u]; simpl; now split).
Qed.

(** [valid_login] says yes for a stored row only. *)
Lemma valid_login_true (e p : string) (w : World) :
  result (Auth.valid_login e p) w = inr true ->
  exists l1 u l2,
    users w = l1 ++ u :: l2 /\
    (forall x, In x l1 -> matches "email" (VStr e) x = false) /\
    matches "email" (VStr e) u = true /\ email u = VStr e.
Proof.
  intro H.
  destruct (first_match_cases "email" (VStr e) (users w)) as
    [[_ Hn]|(l1 & u & l2 & E & _ & Hu & Hl)].
  - destruct (valid_login_missing e p w Hn) as [L _]. congruence.
  - exists l1, u, l2. repeat split; try assumption.
    apply matches_true in Hu. unfold getattr in Hu. simpl in Hu. congruence.
Qed.

(** X16: POST /sessions.  Without a non-empty [email] and [password]: 400,
    and nothing is called.  When [valid_login] says no (unknown email or
    wrong password alike): 401, no cookie, no row changed, no UUID drawn.
    When it says yes, on a table with unique identifiers and for a
    non-empty UUID: 200 "logged in", the cookie [session_id] carries the
    UUID, and the user's row carries it too. *)
Theorem login_view (request : App.Request) (w : World) :
  (App.falsy (App.get (App.form request) "email")
   || App.falsy (App.get (App.form request) "password") = true ->
   App.handle (App.login request) w =
     (App.jsonify 400
        [("message", App.JString "email and password required")], w)) /\
  (forall e p,
     App.get (App.form request) "email" = Some e ->
     App.get (App.form request) "password" = Some p ->
     e <> "" -> p <> "" ->
     (result (Auth.valid_login e p) w = inr false ->
      fst (App.handle (App.login request) w) = App.abort 401 /\
      users (snd (App.handle (App.login request) w)) = users w /\
      draws (snd (App.handle (App.login request) w)) = draws w) /\
     (result (Auth.valid_login e p) w = inr true ->
      unique_ids (users w) ->
      uuid4 (draws w) <> "" ->
      fst (App.handle (App.login request) w) =
        App.mkResponse 200
          (Some [("email", App.JString e);
                 ("message", App.JString "logged in")])
          (Some ("session_id", uuid4 (draws w))) None /\
      exists l1 u l2,
        users w = l1 ++ u :: l2 /\
        email u = VStr e /\
        users (snd (App.handle (App.login request) w)) =
          l1 ++ setattr u "session_id" (VStr (uuid4 (draws w))) :: l2)).
Proof.
  split.
  - intro H. unfold App.handle, App.login. now rewrite H.
  - intros e p He Hp Ne Np.
    destruct (valid_login_keeps e p w) as [K D].
    set (w0 := after (Auth.valid_login e p) w) in *.
    split.
    + intro H.
      assert (Q : App.handle (App.login request) w = (App.abort 401, w0)).
      { unfold App.handle, App.login. rewrite He, Hp.
        rewrite (falsy_Some e Ne), (falsy_Some p Np). simpl.
        unfold bind. rewrite (run_eq (Auth.valid_login e p) w), H.
        reflexivity. }
      rewrite Q. simpl. auto.
    + intros H U Nt.
      destruct (valid_login_true e p w H) as (l1 & u & l2 & E & Hl & Hu & Em).
      assert (U0 : unique_ids (users w0)) by now rewrite K.
      assert (E0 : users w0 = l1 ++ u :: l2) by now rewrite K.
      destruct (create_session_found e w0 l1 l2 u U0 E0 Hl Hu)
        as (R & Us & _).
      rewrite D in R, Us.
      assert (Q : App.handle (App.login request) w =
                  (App.mkResponse 200
                     (Some [("email", App.JString e);
                            ("message", App.JString "logged in")])
                     (Some ("session_id", uuid4 (draws w))) None,
                   after (Auth.create_session e) w0)).
      { unfold App.handle, App.login. rewrite He, Hp.
        rewrite (falsy_Some e Ne), (falsy_Some p Np). simpl.
        unfold bind. rewrite (run_eq (Auth.valid_login e p) w), H. simpl.
        fold w0. rewrite (run_eq (Auth.create_session e) w0), R. simpl.
        now rewrite (proj2 (String.eqb_neq _ _) Nt). }
      rewrite Q. simpl. split; [reflexivity|]. now exists l1, u, l2.
Qed.

(** X17: GET /profile.  Without a cookie, or with an empty one: 403, and
    the store is not even called.  With a cookie that is the [session_id]
    of no row: 403.  With the cookie of a row: 200 with that row's email.
    No row changes in any case. *)
Theorem profile_view (request : App.Request) (w : World) :
  (App.falsy (App.get (App.cookies request) "session_id") = true ->
   App.handle (App.profile request) w = (App.abort 403, w)) /\
  (forall s,
     App.get (App.cookies request) "session_id" = Some s ->
     s <> "" ->
     users (snd (App.handle (App.profile request) w)) = users w /\
     ((forall x, In x (users w) -> session_id x <> VStr s) ->
      fst (App.handle (App.profile request) w) = App.abort 403) /\
     (forall u e,
        result (DB.find_user_by [("session_id", VStr s)]) w = inr u ->
        email u = VStr e ->
        fst (App.handle (App.profile request) w) =
          App.jsonify 200 [("email", App.JString e)])).
Proof.
  split.
  - intro H. unfold App.handle, App.profile. now rewrite H.
  - intros s Hs Ns.
    destruct (get_user_from_session_id_keeps (VStr s) w) as [K _].
    pose proof (get_user_from_session_id_result (VStr s) w
                  ltac:(discriminate)) as G.
    set (w0 := after (Auth.get_user_from_session_id (VStr s)) w) in *.
    assert (Q : App.handle (App.profile request) w =
                (match result (Auth.get_user_from_session_id (VStr s)) w with
                 | inr (Some u) =>
                     match email u with
                     | VNone => App.jsonify 200 [("email", App.JNull)]
                     | VInt z => App.jsonify 200 [("email", App.JNumber z)]
                     | VStr e => App.jsonify 200 [("email", App.JString e)]
                     | VBytes _ | VObject _ => App.internal_server_error
                     end
                 | inr None => App.abort 403
                 | inl _ => App.internal_server_error
                 end, w0)).
    { unfold App.handle, App.profile. cbv zeta.
      rewrite Hs, (falsy_Some s Ns). cbv beta iota.
      unfold bind, App.to_value.
      rewrite (run_eq (Auth.get_user_from_session_id (VStr s)) w). fold w0.
      destruct (result (Auth.get_user_from_session_id (VStr s)) w)
        as [err|[u|]]; try reflexivity.
      unfold App.jsonify_value. now destruct (email u). }
    rewrite Q. cbn [fst snd]. split; [exact K|]. split.
    + intro H. rewrite G.
      unfold result at 1. rewrite find_user_by_missing; [reflexivity..|].
      intros x Hx. apply matches_false. unfold getattr. simpl.
      intro N. inversion N. now apply (H x).
    + intros u e F Em. rewrite G, F, Em. reflexivity.
Qed.

(** The views as equations on the results of the [Auth] calls. *)
Lemma users_run (request : App.Request) (w : World) (e p : string) :
  App.get (App.form request) "email" = Some e ->
  App.get (App.form request) "password" = Some p ->
  e <> "" -> p <> "" ->
  App.handle (App.users request) w =
  (match result (Auth.register_user e p) w with
   | inr new_user =>
       match email new_user with
       | VNone =>
           App.jsonify 200 [("email", App.JNull);
                            ("message", App.JString "user created")]
       | VInt z =>
           App.jsonify 200 [("email", App.JNumber z);
                            ("message", App.JString "user created")]
       | VStr s =>
           App.jsonify 200 [("email", App.JString s);
                            ("message", App.JString "user created")]
       | VBytes _ | VObject _ => App.internal_server_error
       end
   | inl (ValueError _) =>
       App.jsonify 400 [("message", App.JString "email already registered")]
   | inl _ => App.internal_server_error
   end, after (Auth.register_user e p) w).
Proof.
  intros He Hp Ne Np. unfold App.handle, App.users. cbv zeta.
  rewrite He, Hp, (falsy_Some e Ne), (falsy_Some p Np).
  cbn [orb]. cbv beta iota.
  change (App.str_of (Some e)) with e. change (App.str_of (Some p)) with p.
  unfold try_except, bind.
  rewrite (run_eq (Auth.register_user e p) w).
  destruct (result (Auth.register_user e p) w) as [[]|nu]; try reflexivity.
  unfold App.jsonify_value. now destruct (email nu).
Qed.

Lemma login_run (request : App.Request) (w : World) (e p : string) :
  App.get (App.form request) "email" = Some e ->
  App.get (App.form request) "password" = Some p ->
  e <> "" -> p <> "" ->
  App.handle (App.login request) w =
  match result (Auth.valid_login e p) w with
  | inl _ => (App.internal_server_error, after (Auth.valid_login e p) w)
  | inr false => (App.abort 401, after (Auth.valid_login e p) w)
  | inr true =>
      (match result (Auth.create_session e)
               (after (Auth.valid_login e p) w) with
       | inl _ => App.internal_server_error
       | inr session_id =>
           if App.falsy session_id then App.abort 401
           else App.mkResponse 200
                  (Some [("email", App.JString e);
                         ("message", App.JString "logged in")])
                  (Some ("session_id", App.str_of session_id)) None
       end,
       after (Auth.create_session e) (after (Auth.valid_login e p) w))
  end.
Proof.
  intros He Hp Ne Np. unfold App.handle, App.login. cbv zeta.
  rewrite He, Hp, (falsy_Some e Ne), (falsy_Some p Np).
  cbn [orb]. cbv beta iota.
  change (App.str_of (Some e)) with e. change (App.str_of (Some p)) with p.
  unfold bind.
  rewrite (run_eq (Auth.valid_login e p) w).
  destruct (result (Auth.valid_login e p) w) as [err|[|]]; try reflexivity.
  cbn [negb]. cbv beta iota.
  rewrite (run_eq (Auth.create_session e) (after (Auth.valid_login e p) w)).
  destruct (result (Auth.create_session e) (after (Auth.valid_login e p) w))
    as [err|sid]; try reflexivity.
  now destruct (App.falsy sid).
Qed.

Lemma profile_run (request : App.Request) (w : World) (s : string) :
  App.get (App.cookies request) "session_id" = Some s ->
  s <> "" ->
  App.handle (App.profile request) w =
  (match result (Auth.get_user_from_session_id (VStr s)) w with
   | inr (Some u) =>
       match email u with
       | VNone => App.jsonify 200 [("email", App.JNull)]
       | VInt z => App.jsonify 200 [("email", App.JNumber z)]
       | VStr e => App.jsonify 200 [("email", App.JString e)]
       | VBytes _ | VObject _ => App.internal_server_error
       end
   | inr None => App.abort 403
   | inl _ => App.internal_server_error
   end, after (Auth.get_user_from_session_id (VStr s)) w).
Proof.
  intros Hs Ns. unfold App.handle, App.profile. cbv zeta.
  rewrite Hs, (falsy_Some s Ns). cbv beta iota.
  unfold bind, App.to_value.
  rewrite (run_eq (Auth.get_user_from_session_id (VStr s)) w).
  destruct (result (Auth.get_user_from_session_id (VStr s)) w)
    as [err|[u|]]; try reflexivity.
  unfold App.jsonify_value. now destruct (email u).
Qed.

Lemma logout_run (request : App.Request) (w : World) (s : string) :
  App.get (App.cookies request) "session_id" = Some s ->
  App.handle (App.logout request) w =
  match result (Auth.get_user_from_session_id (VStr s)) w with
  | inr (Some u) =>
      (match result (Auth.destroy_session (id u))
               (after (Auth.get_user_from_session_id (VStr s)) w) with
       | inr _ => App.redirect "/"
       | inl _ => App.internal_server_error
       end,
       after (Auth.destroy_session (id u))
         (after (Auth.get_user_from_session_id (VStr s)) w))
  | inr None =>
      (App.abort 403, after (Auth.get_user_from_session_id (VStr s)) w)
  | inl _ =>
      (App.internal_server_error,
       after (Auth.get_user_from_session_id (VStr s)) w)
  end.
Proof.
  intros Hs. unfold App.handle, App.logout. cbv zeta.
  rewrite Hs. unfold bind, App.to_value.
  rewrite (run_eq (Auth.get_user_from_session_id (VStr s)) w).
  destruct (result (Auth.get_user_from_session_id (VStr s)) w)
    as [err|[u|]]; try reflexivity.
  cbv beta iota.
  rewrite (run_eq (Auth.destroy_session (id u))
             (after (Auth.get_user_from_session_id (VStr s)) w)).
  now destruct (result (Auth.destroy_session (id u))
                  (after (Auth.get_user_from_session_id (VStr s)) w)).
Qed.

Lemma get_reset_password_token_run (request : App.Request) (w : World)
    (e : string) :
  App.get (App.form request) "email" = Some e ->
  e <> "" ->
  App.handle (App.get_reset_password_token request) w =
  (match result (Auth.get_reset_password_token e) w with
   | inr reset_token =>
       App.jsonify 200 [("email", App.JString e);
                        ("reset_token", App.JString reset_token)]
   | inl (ValueError _) => App.abort 403
   | inl _ => App.internal_server_error
   end, after (Auth.get_reset_password_token e) w).
Proof.
  intros He Ne. unfold App.handle, App.get_reset_password_token. cbv zeta.
  rewrite He, (falsy_Some e Ne). cbv beta iota.
  change (App.str_of (Some e)) with e.
  change (App.to_json (Some e)) with (App.JString e).
  unfold try_except, bind.
  rewrite (run_eq (Auth.get_reset_password_token e) w).
  now destruct (result (Auth.get_reset_password_token e) w) as [[]|t].
Qed.

Lemma update_password_run (request : App.Request) (w : World) (p : string) :
  App.get (App.form request) "new_password" = Some p ->
  App.handle (App.update_password request) w =
  (match result
           (Auth.update_password
              (App.to_value (App.get (App.form request) "reset_token")) p)
           w with
   | inr _ =>
       App.jsonify 200
         [("email", App.to_json (App.get (App.form request) "email"));
          ("message", App.JString "Password updated")]
   | inl (ValueError _) => App.abort 403
   | inl _ => App.internal_server_error
   end,
   after
     (Auth.update_password
        (App.to_value (App.get (App.form request) "reset_token")) p) w).
Proof.
  intros Hp. unfold App.handle, App.update_password. cbv zeta.
  rewrite Hp. unfold try_except_else at 1, App.call_update_password, bind.
  rewrite (run_eq (Auth.update_password _ p) w).
  now destruct (result (Auth.update_password _ p) w) as [[]|t].
Qed.

Lemma session_missing (s : value) (w : World) :
  (forall x, In x (users w) -> session_id x <> s) ->
  forall x, In x (users w) -> matches "session_id" s x = false.
Proof.
  intros H x Hx. apply matches_false. unfold getattr. simpl.
  intro G. inversion G. now apply (H x).
Qed.

(** X18: DELETE /sessions.  Without a cookie: 403, and the store is not
    called.  With a cookie that is the [session_id] of no row (the empty
    cookie included): 403, and no row changes.  With the cookie of a row,
    on a table with unique identifiers: a redirect to "/", and that row's
    [session_id] becomes [None]. *)
Theorem logout_view (request : App.Request) (w : World) :
  (App.get (App.cookies request) "session_id" = None ->
   App.handle (App.logout request) w = (App.abort 403, w)) /\
  (forall s,
     App.get (App.cookies request) "session_id" = Some s ->
     ((forall x, In x (users w) -> session_id x <> VStr s) ->
      fst (App.handle (App.logout request) w) = App.abort 403 /\
      users (snd (App.handle (App.logout request) w)) = users w) /\
     (forall u,
        unique_ids (users w) ->
        result (DB.find_user_by [("session_id", VStr s)]) w = inr u ->
        fst (App.handle (App.logout request) w) = App.redirect "/" /\
        exists l1 l2,
          users w = l1 ++ u :: l2 /\
          users (snd (App.handle (App.logout request) w)) =
            l1 ++ setattr u "session_id" VNone :: l2)).
Proof.
  split.
  - intro H. unfold App.handle, App.logout. now rewrite H.
  - intros s Hs. rewrite (logout_run request w s Hs).
    destruct (get_user_from_session_id_keeps (VStr s) w) as [K _].
    split.
    + intro H.
      destruct (get_user_from_session_id_missing (VStr s) w
                  (session_missing _ w H)) as (R & _).
      rewrite R. now split.
    + intros u U F.
      rewrite get_user_from_session_id_result by discriminate. rewrite F.
      destruct (find_user_by_inr _ _ _ _ F) as (l1 & l2 & E & _ & _).
      set (w0 := after (Auth.get_user_from_session_id (VStr s)) w) in *.
      assert (U0 : unique_ids (users w0)) by now rewrite K.
      assert (E0 : users w0 = l1 ++ u :: l2) by now rewrite K.
      destruct (destroy_session_found (id u) w0 l1 l2 u U0 E0 eq_refl)
        as (R & Us & _).
      rewrite R. cbn [fst snd]. split; [reflexivity|]. now exists l1, l2.
Qed.

(** X19: POST /reset_password.  Without a non-empty [email]: 400 "email
    required", and nothing is called.  With an email no row has: 403, no
    token drawn, no row changed.  With the email of a row, on a table
    with unique identifiers: 200 with the email and the UUID drawn, which
    is now that row's [reset_token]. *)
Theorem get_reset_password_token_view (request : App.Request) (w : World) :
  (App.falsy (App.get (App.form request) "email") = true ->
   App.handle (App.get_reset_password_token request) w =
     (App.jsonify 400 [("message", App.JString "email required")], w)) /\
  (forall e,
     App.get (App.form request) "email" = Some e ->
     e <> "" ->
     ((forall x, In x (users w) -> email x <> VStr e) ->
      fst (App.handle (App.get_reset_password_token request) w) =
        App.abort 403 /\
      users (snd (App.handle (App.get_reset_password_token request) w)) =
        users w /\
      draws (snd (App.handle (App.get_reset_password_token request) w)) =
        draws w) /\
     (unique_ids (users w) ->
      (exists x, In x (users w) /\ email x = VStr e) ->
      fst (App.handle (App.get_reset_password_token request) w) =
        App.jsonify 200 [("email", App.JString e);
                         ("reset_token", App.JString (uuid4 (draws w)))] /\
      exists l1 u l2,
        users w = l1 ++ u :: l2 /\
        email u = VStr e /\
        users (snd (App.handle (App.get_reset_password_token request) w)) =
          l1 ++ setattr u "reset_token" (VStr (uuid4 (draws w))) :: l2)).
Proof.
  split.
  - intro H. unfold App.handle, App.get_reset_password_token.
    now rewrite H.
  - intros e He Ne. rewrite (get_reset_password_token_run request w e He Ne).
    split.
    + intro H.
      destruct (get_reset_password_token_missing e w (email_missing e w H))
        as (R & Us & D).
      rewrite R. cbn [fst snd]. auto.
    + intros U H.
      destruct (email_present e w H) as (l1 & u & l2 & E & Hl & Hu & Em).
      destruct (get_reset_password_token_found e w l1 l2 u U E Hl Hu)
        as (R & Us & _).
      rewrite R. cbn [fst snd]. split; [reflexivity|].
      now exists l1, u, l2.
Qed.

(** X20: PUT /reset_password.  The view checks no field.  With a
    [new_password] in the form: 403 when no row's [reset_token] equals the
    form's [reset_token], 200 "Password updated" otherwise, the first such
    row getting the digest of the new password; a form without
    [reset_token] is looked up as [None], which equals the [reset_token]
    of every user who asked for no reset.  Without [new_password]: 403
    when no row matches, and otherwise the view crashes (500) after
    drawing a salt, no row changed. *)
Theorem update_password_view (request : App.Request) (w : World) :
  let tok := App.to_value (App.get (App.form request) "reset_token") in
  (forall p,
     App.get (App.form request) "new_password" = Some p ->
     ((forall x, In x (users w) -> reset_token x <> tok) ->
      fst (App.handle (App.update_password request) w) = App.abort 403 /\
      users (snd (App.handle (App.update_password request) w)) = users w) /\
     (forall u,
        unique_ids (users w) ->
        result (DB.find_user_by [("reset_token", tok)]) w = inr u ->
        fst (App.handle (App.update_password request) w) =
          App.jsonify 200
            [("email", App.to_json (App.get (App.form request) "email"));
             ("message", App.JString "Password updated")] /\
        exists l1 l2,
          users w = l1 ++ u :: l2 /\
          users (snd (App.handle (App.update_password request) w)) =
            l1 ++ mkUser (id u) (email u)
                    (VBytes (hashpw (encode p) (gensalt (draws w))))
                    (session_id u) VNone :: l2)) /\
  (App.get (App.form request) "new_password" = None ->
   ((forall x, In x (users w) -> reset_token x <> tok) ->
    fst (App.handle (App.update_password request) w) = App.abort 403 /\
    users (snd (App.handle (App.update_password request) w)) = users w) /\
   (forall u,
      result (DB.find_user_by [("reset_token", tok)]) w = inr u ->
      fst (App.handle (App.update_password request) w) =
        App.internal_server_error /\
      users (snd (App.handle (App.update_password request) w)) = users w /\
      draws (snd (App.handle (App.update_password request) w)) =
        S (draws w))).
Proof.
  intro tok. split.
  - intros p Hp. rewrite (update_password_run request w p Hp). fold tok.
    split.
    + intro H.
      destruct (update_password_missing tok p w) as (R & Us & _).
      { intros x Hx. apply matches_false. unfold getattr. simpl.
        intro G. inversion G. now apply (H x). }
      rewrite R. cbn [fst snd]. auto.
    + intros u U F.
      destruct (find_user_by_inr _ _ _ _ F) as (l1 & l2 & E & Hl & Hu).
      destruct (update_password_found tok p w l1 l2 u U E Hl Hu)
        as (R & Us & _).
      rewrite R. cbn [fst snd]. split; [reflexivity|]. now exists l1, l2.
  - intro Hn. unfold App.handle, App.update_password. cbv zeta.
    rewrite Hn. fold tok.
    unfold try_except_else, App.call_update_password, try_except_else.
    cbv beta. fold tok.
    split.
    + intro H. rewrite (find_user_by_missing "reset_token" tok w eq_refl).
      * simpl. auto.
      * intros x Hx. apply matches_false. unfold getattr. simpl.
        intro G. inversion G. now apply (H x).
    + intros u F.
      destruct (find_user_by_inr _ _ _ _ F) as (l1 & l2 & E & Hl & Hu).
      rewrite (find_user_by_found "reset_token" tok w l1 l2 u eq_refl E Hl Hu).
      simpl. auto.
Qed.

(* -------------------------------------------------------------- *)
(** *** The views on reachable stores *)

Lemma falsy_cases (x : option string) :
  App.falsy x = true \/ exists s, x = Some s /\ s <> "".
Proof.
  destruct x as [s|]; [|now left]. simpl.
  destruct (String.eqb_spec s ""); [now left|right]. now exists s.
Qed.

Lemma reachable_emails_str (w : World) :
  reachable w -> forall x, In x (users w) -> exists e, email x = VStr e.
Proof.
  induction 1 as [d|r w R IH]; [intros x []|].
  destruct (reachable_keeps w R) as [U _].
  destruct (serve_shape r w U) as
    [->|[(e & p & _ & _ & ->)|(l1 & u & u' & l2 & E & -> & _ & Em & _)]].
  - assumption.
  - intros x Hx. apply in_app_or in Hx. destruct Hx as [Hx|[<-|[]]].
    + now apply IH.
    + now exists e.
  - intros x Hx. apply in_app_or in Hx. destruct Hx as [Hx|[<-|Hx]].
    + apply IH. rewrite E. apply in_or_app. now left.
    + rewrite Em. apply IH. rewrite E. apply in_or_app. right. now left.
    + apply IH. rewrite E. apply in_or_app. right. now right.
Qed.

Lemma register_user_outcome (e p : string) (w : World) :
  (exists new_user,
     result (Auth.register_user e p) w = inr new_user /\
     email new_user = VStr e) \/
  exists msg, result (Auth.register_user e p) w = inl (ValueError msg).
Proof.
  destruct (first_match_cases "email" (VStr e) (users w)) as
    [[_ Hn]|(l1 & u & l2 & E & _ & Hu & Hl)].
  - left. destruct (register_user_new e p w Hn) as (R & _).
    eexists. split; [exact R|reflexivity].
  - right. destruct (register_user_exists e p w l1 l2 u E Hl Hu) as (R & _).
    eexists. exact R.
Qed.

Lemma valid_login_outcome (e p : string) (w : World) :
  stores_digests (users w) ->
  exists b, result (Auth.valid_login e p) w = inr b.
Proof.
  intro S.
  destruct (first_match_cases "email" (VStr e) (users w)) as
    [[_ Hn]|(l1 & u & l2 & E & _ & Hu & Hl)].
  - exists false. now destruct (valid_login_missing e p w Hn).
  - pose proof S as S'. rewrite E in S'.
    destruct (stores_digests_middle _ _ _ S') as (pw & salt & Hh).
    destruct (valid_login_found e p w l1 l2 u _ E Hl Hu Hh) as [G _].
    eexists. exact G.
Qed.

Lemma create_session_outcome (e : string) (w : World) :
  unique_ids (users w) ->
  exists o, result (Auth.create_session e) w = inr o.
Proof.
  intro U.
  destruct (first_match_cases "email" (VStr e) (users w)) as
    [[_ Hn]|(l1 & u & l2 & E & _ & Hu & Hl)].
  - exists None. now destruct (create_session_missing e w Hn).
  - destruct (create_session_found e w l1 l2 u U E Hl Hu) as [G _].
    eexists. exact G.
Qed.

Lemma get_user_outcome (sid : value) (w : World) :
  result (Auth.get_user_from_session_id sid) w = inr None \/
  exists u,
    result (Auth.get_user_from_session_id sid) w = inr (Some u) /\
    In u (users w).
Proof.
  destruct (first_match_cases "session_id" sid (users w)) as
    [[_ Hn]|(l1 & u & l2 & E & _ & Hu & Hl)].
  - left. now destruct (get_user_from_session_id_missing sid w Hn).
  - destruct sid as [|z|s|b|o].
    + left. reflexivity.
    + right. exists u. split.
      * destruct (get_user_from_session_id_found (VInt z) w l1 l2 u)
          as [G _]; try assumption; discriminate.
      * rewrite E. apply in_or_app. right. now left.
    + right. exists u. split.
      * destruct (get_user_from_session_id_found (VStr s) w l1 l2 u)
          as [G _]; try assumption; discriminate.
      * rewrite E. apply in_or_app. right. now left.
    + right. exists u. split.
      * destruct (get_user_from_session_id_found (VBytes b) w l1 l2 u)
          as [G _]; try assumption; discriminate.
      * rewrite E. apply in_or_app. right. now left.
    + right. exists u. split.
      * destruct (get_user_from_session_id_found (VObject o) w l1 l2 u)
          as [G _]; try assumption; discriminate.
      * rewrite E. apply in_or_app. right. now left.
Qed.

Lemma destroy_session_outcome (user_id : value) (w : World) :
  unique_ids (users w) ->
  result (Auth.destroy_session user_id) w = inr tt.
Proof.
  intro U.
  destruct (first_match_cases "id" user_id (users w)) as
    [[_ Hn]|(l1 & u & l2 & E & _ & Hu & Hl)].
  - destruct (destroy_session_missing user_id w) as [G _]; [|exact G].
    intros x Hx G. apply Hn in Hx. apply matches_false in Hx.
    unfold getattr in Hx. simpl in Hx. congruence.
  - assert (Hid : id u = user_id).
    { apply matches_true in Hu. unfold getattr in Hu. simpl in Hu.
      congruence. }
    now destruct (destroy_session_found user_id w l1 l2 u U E Hid).
Qed.

Lemma get_reset_password_token_outcome (e : string) (w : World) :
  unique_ids (users w) ->
  (exists t, result (Auth.get_reset_password_token e) w = inr t) \/
  exists msg,
    result (Auth.get_reset_password_token e) w = inl (ValueError msg).
Proof.
  intro U.
  destruct (first_match_cases "email" (VStr e) (users w)) as
    [[_ Hn]|(l1 & u & l2 & E & _ & Hu & Hl)].
  - right. destruct (get_reset_password_token_missing e w Hn) as [G _].
    eexists. exact G.
  - left. destruct (get_reset_password_token_found e w l1 l2 u U E Hl Hu) as [G _].
    eexists. exact G.
Qed.

Lemma update_password_outcome (tok : value) (p : string) (w : World) :
  unique_ids (users w) ->
  result (Auth.update_password tok p) w = inr tt \/
  exists msg, result (Auth.update_password tok p) w = inl (ValueError msg).
Proof.
  intro U.
  destruct (first_match_cases "reset_token" tok (users w)) as
    [[_ Hn]|(l1 & u & l2 & E & _ & Hu & Hl)].
  - right. destruct (update_password_missing tok p w Hn) as [G _].
    eexists. exact G.
  - left. now destruct (update_password_found tok p w l1 l2 u U E Hl Hu).
Qed.

Ltac status := unfold answered; simpl; tauto.

(** X21: no crash on a running service.  On a store reachable through
    the [Auth] methods, POST /users, POST and DELETE /sessions,
    GET /profile, POST /reset_password, and PUT /reset_password with a
    [new_password] in the form, answer 200, 302, 400, 401 or 403 whatever
    the form and the cookies hold, never 500, and they leave a reachable
    store: so this holds along every sequence of such requests. *)
Theorem views_on_reachable (request : App.Request) (w : World) :
  reachable w ->
  (answered (fst (App.handle (App.users request) w)) /\
   reachable (snd (App.handle (App.users request) w))) /\
  (answered (fst (App.handle (App.login request) w)) /\
   reachable (snd (App.handle (App.login request) w))) /\
  (answered (fst (App.handle (App.logout request) w)) /\
   reachable (snd (App.handle (App.logout request) w))) /\
  (answered (fst (App.handle (App.profile request) w)) /\
   reachable (snd (App.handle (App.profile request) w))) /\
  (answered (fst (App.handle (App.get_reset_password_token request) w)) /\
   reachable (snd (App.handle (App.get_reset_password_token request) w))) /\
  (forall p,
     App.get (App.form request) "new_password" = Some p ->
     answered (fst (App.handle (App.update_password request) w)) /\
     reachable (snd (App.handle (App.update_password request) w))).
Proof.
  intro R. destruct (reachable_keeps w R) as [U S].
  pose proof (reachable_emails_str w R) as Em.
  split; [|split; [|split; [|split; [|split]]]].
  - (* users *)
    destruct (falsy_cases (App.get (App.form request) "email"))
      as [F|(e & He & Ne)];
      [unfold App.handle, App.users; rewrite F; simpl; split; [status|exact R]|].
    destruct (falsy_cases (App.get (App.form request) "password"))
      as [F|(p & Hp & Np)];
      [unfold App.handle, App.users; rewrite F, orb_true_r; simpl;
       split; [status|exact R]|].
    rewrite (users_run request w e p He Hp Ne Np). cbn [fst snd].
    split; [|exact (reachable_step (Register e p) w R)].
    destruct (register_user_outcome e p w) as [(nu & -> & ->)|(m & ->)];
      status.
  - (* login *)
    destruct (falsy_cases (App.get (App.form request) "email"))
      as [F|(e & He & Ne)];
      [unfold App.handle, App.login; rewrite F; simpl; split; [status|exact R]|].
    destruct (falsy_cases (App.get (App.form request) "password"))
      as [F|(p & Hp & Np)];
      [unfold App.handle, App.login; rewrite F, orb_true_r; simpl;
       split; [status|exact R]|].
    rewrite (login_run request w e p He Hp Ne Np).
    pose proof (reachable_step (ValidLogin e p) w R) as R0.
    change (reachable (after (Auth.valid_login e p) w)) in R0.
    destruct (valid_login_outcome e p w S) as ([|] & ->); cbn [fst snd].
    + destruct (reachable_keeps _ R0) as [U0 _].
      split; [|exact (reachable_step (CreateSession e) _ R0)].
      destruct (create_session_outcome e _ U0) as (o & ->).
      destruct (App.falsy o); status.
    + split; [status|exact R0].
  - (* logout *)
    destruct (App.get (App.cookies request) "session_id") as [s|] eqn:Hs;
      [|unfold App.handle, App.logout; rewrite Hs; simpl;
        split; [status|exact R]].
    rewrite (logout_run request w s Hs).
    pose proof (reachable_step (GetUserFromSessionId (VStr s)) w R) as R0.
    change (reachable (after (Auth.get_user_from_session_id (VStr s)) w))
      in R0.
    destruct (get_user_outcome (VStr s) w) as [->|(u & -> & _)];
      cbn [fst snd]; [split; [status|exact R0]|].
    destruct (reachable_keeps _ R0) as [U0 _].
    rewrite (destroy_session_outcome (id u) _ U0).
    split; [status|exact (reachable_step (DestroySession (id u)) _ R0)].
  - (* profile *)
    destruct (falsy_cases (App.get (App.cookies request) "session_id"))
      as [F|(s & Hs & Ns)];
      [unfold App.handle, App.profile; rewrite F; simpl;
       split; [status|exact R]|].
    rewrite (profile_run request w s Hs Ns). cbn [fst snd].
    split; [|exact (reachable_step (GetUserFromSessionId (VStr s)) w R)].
    destruct (get_user_outcome (VStr s) w) as [->|(u & -> & Hu)];
      [status|].
    destruct (Em u Hu) as (e & ->). status.
  - (* get_reset_password_token *)
    destruct (falsy_cases (App.get (App.form request) "email"))
      as [F|(e & He & Ne)];
      [unfold App.handle, App.get_reset_password_token; rewrite F; simpl;
       split; [status|exact R]|].
    rewrite (get_reset_password_token_run request w e He Ne). cbn [fst snd].
    split; [|exact (reachable_step (GetResetPasswordToken e) w R)].
    destruct (get_reset_password_token_outcome e w U) as [(t & ->)|(m & ->)];
      status.
  - (* update_password *)
    intros p Hp. rewrite (update_password_run request w p Hp). cbn [fst snd].
    split; [|exact (reachable_step (UpdatePassword _ p) w R)].
    destruct (update_password_outcome
                (App.to_value (App.get (App.form request) "reset_token"))
                p w U) as [->|(m & ->)]; status.
Qed.

(** X22: a login opens the profile.  On a reachable store, with a [uuid4]
    that never repeats and gives a non-empty UUID, when [valid_login]
    accepts the form's [email] and [password], POST /sessions answers 200
    with a cookie [session_id], and GET /profile with that cookie then
    answers 200 with that email. *)
Theorem login_then_profile (request request' : App.Request) (e p : string)
    (w : World) :
  uuid4_injective uuid ->
  reachable w ->
  App.get (App.form request) "email" = Some e ->
  App.get (App.form request) "password" = Some p ->
  e <> "" -> p <> "" ->
  result (Auth.valid_login e p) w = inr true ->
  uuid4 (draws w) <> "" ->
  exists t,
    fst (App.handle (App.login request) w) =
      App.mkResponse 200
        (Some [("email", App.JString e);
               ("message", App.JString "logged in")])
        (Some ("session_id", t)) None /\
    (App.get (App.cookies request') "session_id" = Some t ->
     fst (App.handle (App.profile request')
            (snd (App.handle (App.login request) w))) =
       App.jsonify 200 [("email", App.JString e)]).
Proof.
  intros Inj R He Hp Ne Np V Nt.
  destruct (reachable_keeps w R) as [U _].
  destruct (reachable_tokens w Inj R) as (Td & _ & _).
  pose proof (tokens_drawn_fresh w Inj Td) as Fresh.
  destruct (valid_login_keeps e p w) as [K D].
  destruct (valid_login_true e p w V) as (l1 & u & l2 & E & Hl & Hu & Em).
  rewrite (login_run request w e p He Hp Ne Np), V.
  set (w0 := after (Auth.valid_login e p) w) in *.
  assert (U0 : unique_ids (users w0)) by now rewrite K.
  assert (E0 : users w0 = l1 ++ u :: l2) by now rewrite K.
  destruct (create_session_found e w0 l1 l2 u U0 E0 Hl Hu) as (Rc & Us & _).
  rewrite D in Rc, Us. rewrite Rc. cbn [fst snd].
  set (t := uuid4 (draws w)) in *.
  set (w1 := after (Auth.create_session e) w0) in *.
  exists t. split.
  - simpl. now rewrite (proj2 (String.eqb_neq _ _) Nt).
  - intro Hc. rewrite (profile_run request' w1 t Hc Nt). cbn [fst].
    destruct (get_user_from_session_id_found (VStr t) w1 l1 l2
                (setattr u "session_id" (VStr t))) as [G _];
      try assumption; try discriminate.
    + intros x Hx. apply matches_false. unfold getattr. simpl.
      intro N. inversion N as [N'].
      destruct (Fresh x) as [A _]; [|now apply A].
      rewrite E. apply in_or_app. now left.
    + unfold matches, getattr, setattr. simpl. apply String.eqb_refl.
    + rewrite G. simpl. now rewrite Em.
Qed.

(** X23: a logout closes the profile.  On a reachable store, with a
    [uuid4] that never repeats, when the cookie is the [session_id] of a
    user, DELETE /sessions answers with a redirect to "/", and GET /profile
    with the same cookie then answers 403. *)
Theorem logout_then_profile (request request' : App.Request) (s : string)
    (u : User) (w : World) :
  uuid4_injective uuid ->
  reachable w ->
  App.get (App.cookies request) "session_id" = Some s ->
  App.get (App.cookies request') "session_id" = Some s ->
  result (DB.find_user_by [("session_id", VStr s)]) w = inr u ->
  fst (App.handle (App.logout request) w) = App.redirect "/" /\
  fst (App.handle (App.profile request')
         (snd (App.handle (App.logout request) w))) = App.abort 403.
Proof.
  intros Inj R Hs Hs' F.
  destruct (reachable_keeps w R) as [U _].
  destruct (reachable_tokens w Inj R) as (_ & Ds & _).
  destruct (get_user_from_session_id_keeps (VStr s) w) as [K _].
  destruct (find_user_by_inr _ _ _ _ F) as (l1 & l2 & E & _ & Hu).
  assert (Hus : session_id u = VStr s).
  { apply matches_true in Hu. unfold getattr in Hu. simpl in Hu.
    congruence. }
  rewrite (logout_run request w s Hs).
  rewrite get_user_from_session_id_result by discriminate. rewrite F.
  set (w0 := after (Auth.get_user_from_session_id (VStr s)) w) in *.
  assert (U0 : unique_ids (users w0)) by now rewrite K.
  assert (E0 : users w0 = l1 ++ u :: l2) by now rewrite K.
  destruct (destroy_session_found (id u) w0 l1 l2 u U0 E0 eq_refl)
    as (Rd & Us & _).
  rewrite Rd. cbn [fst snd]. split; [reflexivity|].
  set (w1 := after (Auth.destroy_session (id u)) w0) in *.
  destruct (falsy_cases (Some s)) as [Fa|(s' & Es & Ns)].
  - unfold App.handle, App.profile. now rewrite Hs', Fa.
  - inversion Es; subst s'.
    rewrite (profile_run request' w1 s Hs' Ns). cbn [fst].
    destruct (get_user_from_session_id_missing (VStr s) w1) as [G _];
      [|now rewrite G].
    rewrite Us. intros x Hx. apply matches_false. unfold getattr. simpl.
    intro N. inversion N as [N']. clear N.
    rewrite E in Ds.
    assert (Own : forall y, In y (l1 ++ l2) -> session_id y <> session_id u).
    { intros y Hy. apply (distinct_tokens_owner session_id l1 l2 u y Ds);
        [rewrite Hus; discriminate|assumption]. }
    apply in_app_or in Hx. destruct Hx as [Hx|[<-|Hx]].
    + apply (Own x); [apply in_or_app; now left|congruence].
    + discriminate.
    + apply (Own x); [apply in_or_app; now right|congruence].
Qed.

(** X24: a reset without a token.  On a reachable store, for a [bcrypt]
    whose [checkpw] accepts the digests [hashpw] makes, a
    PUT /reset_password whose form holds a [new_password] and no
    [reset_token] answers 200 as soon as some user has no reset pending,
    and [valid_login] then accepts the new password for the first such
    user: the view lets a caller who holds no token set that user's
    password. *)
Theorem reset_without_token (request : App.Request) (p : string)
    (w : World) :
  verifies_own_digest bcrypt ->
  reachable w ->
  App.get (App.form request) "reset_token" = None ->
  App.get (App.form request) "new_password" = Some p ->
  (exists x, In x (users w) /\ reset_token x = VNone) ->
  exists u e,
    In u (users w) /\ email u = VStr e /\ reset_token u = VNone /\
    App.status_code (fst (App.handle (App.update_password request) w)) = 200
    /\
    result (Auth.valid_login e p)
      (snd (App.handle (App.update_password request) w)) = inr true.
Proof.
  intros V R Ht Hp (x & Hx & Hr).
  destruct (reachable_keeps w R) as [U _].
  pose proof (reachable_emails_distinct w R) as Ue.
  destruct (first_match_cases "reset_token" VNone (users w)) as
    [[_ Hn]|(l1 & u & l2 & E & _ & Hu & Hl)].
  { apply Hn in Hx. apply matches_false in Hx. unfold getattr in Hx.
    simpl in Hx. congruence. }
  assert (Hu' : reset_token u = VNone).
  { apply matches_true in Hu. unfold getattr in Hu. simpl in Hu.
    congruence. }
  assert (In u (users w)) as Iu.
  { rewrite E. apply in_or_app. right. now left. }
  destruct (reachable_emails_str w R u Iu) as (e & Em).
  exists u, e. split; [exact Iu|]. split; [exact Em|]. split; [exact Hu'|].
  rewrite (update_password_run request w p Hp), Ht.
  change (App.to_value None) with VNone.
  destruct (update_password_found VNone p w l1 l2 u U E Hl Hu)
    as (Ru & Us & _).
  rewrite Ru. cbn [fst snd]. split; [reflexivity|].
  set (w1 := after (Auth.update_password VNone p) w) in *.
  destruct (valid_login_found e p w1 l1 l2 _
              (hashpw (encode p) (gensalt (draws w))) Us) as [L _].
  - intros y Hy. apply matches_false. unfold getattr. simpl.
    intro G. inversion G as [G']. clear G.
    unfold unique_emails in Ue. rewrite E, map_app in Ue. simpl in Ue.
    apply NoDup_remove_2 in Ue. apply Ue. apply in_or_app. left.
    rewrite Em, <- G'. now apply in_map.
  - unfold matches, getattr, setattr. simpl. rewrite Em. simpl.
    apply String.eqb_refl.
  - reflexivity.
  - rewrite L. f_equal. apply V.
Qed.

End AppViews.

(* ------------------------------------------------------------------ *)
(** ** The claims on a concrete run *)

Import Toy.

Lemma toy_verifies_own_digest : verifies_own_digest toy_bcrypt.
Proof. intros password salt. simpl. apply String.eqb_refl. Qed.


Lemma toy_digest_nonempty : digest_nonempty toy_bcrypt.
Proof. intros password salt. discriminate. Qed.

Lemma toy_digest_not_input : digest_not_input toy_bcrypt.
Proof.
  intros password salt E. apply (f_equal String.length) in E.
  simpl in E. lia.
Qed.

Lemma toy_uuid4_injective : uuid4_injective toy_uuid.
Proof.
  intros i j E. simpl in E. inversion E as [E'].
  apply (f_equal NilEmpty.uint_of_string) in E'. unfold nat_str in E'.
  rewrite !NilEmpty.usu in E'. inversion E' as [E''].
  apply (f_equal Nat.of_uint) in E''.
  now rewrite !DecimalNat.Unsigned.of_to in E''.
Qed.

(** main.py's assertions hold on the model: the wrong password is
    refused, the right one accepted, the session resolves to the user until
    the logout, and the new password logs in. *)
Example main_py_passes :
  result main_py empty =
  inr (false, true,
       Some (mkUser (VInt 1) (VStr "guillaume@holberton.io")
               (VBytes "$0b4l0u") (VStr "uuid-1") VNone),
       None, true).
Proof. reflexivity. Qed.

Lemma registered_unique_ids : unique_ids (users registered).
Proof.
  unfold unique_ids. simpl. constructor; [intros []|constructor].
Qed.

(** C9, counterexample: for the empty string,
    [get_user_from_session_id] does call the store. *)
Lemma empty_session_id_calls_the_store :
  calls one_user = [] /\
  calls (after (Auth.get_user_from_session_id (VStr "")) one_user) =
    [CallFindUserBy [("session_id", VStr "")]].
Proof. split; reflexivity. Qed.


(** Registration then login on the empty table. *)
Lemma register_then_valid_login_witness :
  verifies_own_digest toy_bcrypt /\
  result (DB.find_user_by [("email", VStr "a@x.com")]) empty =
    inl NoResultFound /\
  result (Auth.valid_login "a@x.com" "pw1")
    (after (Auth.register_user "a@x.com" "pw1") empty) = inr true.
Proof.
  split; [exact toy_verifies_own_digest|]. split; [reflexivity|].
  apply (register_then_valid_login "a@x.com" "pw1" empty
           toy_verifies_own_digest eq_refl).
Defined.

(** A second registration of ["a@x.com"] on [registered]. *)
Lemma register_twice_witness :
  result (Auth.valid_login "a@x.com" "pw1") registered = inr true /\
  result (Auth.register_user "a@x.com" "pw2") registered =
    inl (ValueError "User a@x.com already exists") /\
  result (Auth.valid_login "a@x.com" "pw1")
    (after (Auth.register_user "a@x.com" "pw2") registered) = inr true.
Proof.
  split; [reflexivity|].
  destruct (register_twice (bcrypt := toy_bcrypt)
              "a@x.com" "pw1" "pw2" registered eq_refl)
    as (R & _ & L).
  split; assumption.
Defined.

(** A session for ["a@x.com"] on [registered]. *)
Lemma session_round_trip_witness :
  unique_ids (users registered) /\
  exists t,
    result (Auth.create_session "a@x.com") registered = inr (Some t) /\
    result (Auth.get_user_from_session_id (VStr t))
      (after (Auth.create_session "a@x.com") registered) =
      inr (Some (setattr alice "session_id" (VStr t))).
Proof.
  split; [exact registered_unique_ids|].
  destruct (session_round_trip registered registered_unique_ids) as [H _].
  destruct (H "a@x.com" alice eq_refl) as (t & R & G & _).
  - intros x [<-|[]]. discriminate.
  - exists t. split; assumption.
Defined.

Lemma logged_in_unique_ids : unique_ids (users logged_in).
Proof.
  unfold unique_ids. simpl. constructor; [intros []|constructor].
Qed.

(** Logging ["a@x.com"] out of [logged_in]. *)
Lemma destroy_session_conditions_witness :
  unique_ids (users logged_in) /\
  result (Auth.get_user_from_session_id (VStr "uuid-1")) logged_in =
    inr (Some (setattr alice "session_id" (VStr "uuid-1"))) /\
  result (Auth.destroy_session (VInt 1)) logged_in = inr tt /\
  result (Auth.get_user_from_session_id (VStr "uuid-1"))
    (after (Auth.destroy_session (VInt 1)) logged_in) = inr None.
Proof.
  split; [exact logged_in_unique_ids|]. split; [reflexivity|].
  destruct (destroy_session_conditions (VInt 1) logged_in
              logged_in_unique_ids) as [H _].
  destruct (H (setattr alice "session_id" (VStr "uuid-1")) eq_refl)
    as (R & _ & G).
  split; [exact R|].
  apply (G "uuid-1" eq_refl). intros x [<-|[]] _. reflexivity.
Defined.

(** [update_password(None, "pw2")] on [registered], where the only user
    never asked for a reset. *)
Lemma update_password_null_token_witness :
  unique_ids (users registered) /\
  reset_token alice = VNone /\
  result (Auth.update_password VNone "pw2") registered = inr tt.
Proof.
  split; [exact registered_unique_ids|]. split; [reflexivity|].
  destruct (update_password_null_token "pw2" registered
              registered_unique_ids) as (l1 & u & l2 & _ & _ & R & _).
  - exists alice. split; [now left|reflexivity].
  - exact R.
Defined.

Lemma registered_reachable : reachable registered.
Proof. apply (reachable_step (Register "a@x.com" "pw1")), reachable_init. Qed.

(** The invariant on [registered]. *)
Lemma hashed_password_invariant_witness :
  digest_nonempty toy_bcrypt /\
  digest_not_input toy_bcrypt /\
  reachable registered /\
  hashed_password alice <> VBytes "" /\
  result (Auth.valid_login "a@x.com" "pw1") registered = inr true.
Proof.
  split; [exact toy_digest_nonempty|]. split; [exact toy_digest_not_input|].
  split; [exact registered_reachable|].
  destruct (hashed_password_invariant registered toy_digest_nonempty
              toy_digest_not_input registered_reachable) as (H & L & _).
  split.
  - destruct (H alice) as (pw & salt & _ & Ne & _); [now left|exact Ne].
  - destruct (L "a@x.com" "pw1") as [_ G].
    destruct (G alice eq_refl) as (h & Hh & ->).
    inversion Hh. reflexivity.
Defined.

(** The assumptions on the store, on a reachable one. *)
Lemma logged_in_reachable : reachable logged_in.
Proof.
  apply (reachable_step (CreateSession "a@x.com")), registered_reachable.
Qed.

(** The next token on [logged_in], where two values were drawn. *)
Lemma reachable_fresh_witness :
  uuid4_injective toy_uuid /\
  reachable logged_in /\
  Forall (fun x => session_id x <> VStr "uuid-2" /\
                   reset_token x <> VStr "uuid-2") (users logged_in).
Proof.
  split; [exact toy_uuid4_injective|]. split; [exact logged_in_reachable|].
  apply Forall_forall.
  exact (reachable_fresh logged_in toy_uuid4_injective logged_in_reachable).
Defined.

(** The owner of ["uuid-1"] on [logged_in]. *)
Lemma reachable_session_owner_witness :
  session_id (setattr alice "session_id" (VStr "uuid-1")) = VStr "uuid-1" /\
  Forall (fun x => session_id x = VStr "uuid-1" -> id x = VInt 1)
    (users logged_in).
Proof.
  split; [reflexivity|]. apply Forall_forall.
  exact (reachable_session_owner logged_in [] []
           (setattr alice "session_id" (VStr "uuid-1")) "uuid-1"
           toy_uuid4_injective logged_in_reachable eq_refl eq_refl).
Defined.

(** Identifiers on [logged_in]. *)
Lemma reachable_unique_ids_witness :
  reachable logged_in /\ unique_ids (users logged_in).
Proof.
  split; [exact logged_in_reachable|].
  exact (reachable_unique_ids logged_in logged_in_reachable).
Defined.

(** Two sessions in a row for ["a@x.com"] on [registered]. *)
Lemma second_session_orphans_first_witness :
  exists t1 t2,
    result (Auth.get_user_from_session_id (VStr t1))
      (after (Auth.create_session "a@x.com")
         (after (Auth.create_session "a@x.com") registered)) = inr None /\
    result (Auth.get_user_from_session_id (VStr t2))
      (after (Auth.create_session "a@x.com")
         (after (Auth.create_session "a@x.com") registered)) =
      inr (Some (setattr alice "session_id" (VStr t2))).
Proof.
  destruct (second_session_orphans_first "a@x.com" alice registered
              toy_uuid4_injective registered_reachable eq_refl)
    as (t1 & t2 & H).
  cbv zeta in H. destruct H as (_ & _ & G1 & G2).
  exists t1, t2. split; assumption.
Defined.

(** A reset token for ["b@x.com"], unknown on [registered]. *)
Lemma reset_token_for_unknown_email_witness :
  result (DB.find_user_by [("email", VStr "b@x.com")]) registered =
    inl NoResultFound /\
  result (Auth.get_reset_password_token "b@x.com") registered =
    inl (ValueError "User not found").
Proof.
  split; [reflexivity|].
  now destruct (reset_token_for_unknown_email "b@x.com" registered eq_refl).
Defined.

(* ------------------------------------------------------------------ *)
(** ** The further properties on a concrete run *)

(** A lookup by an unknown email, then by identifier, on [one_user]. *)
Lemma find_user_by_returns_witness :
  result (DB.find_user_by [("email", VStr "b@x.com"); ("id", VInt 1)])
    one_user = inr alice /\
  exists k v,
    In (k, v) [("email", VStr "b@x.com"); ("id", VInt 1)] /\
    getattr alice k = Some v.
Proof.
  split; [reflexivity|].
  destruct (find_user_by_returns
              [("email", VStr "b@x.com"); ("id", VInt 1)] one_user alice
              eq_refl)
    as (kw1 & k & v & kw2 & l1 & l2 & E & _ & _ & _ & G & _).
  exists k, v. split; [|exact G].
  rewrite E. apply in_or_app. right. now left.
Defined.

(** A matching identifier in front of a name that is no attribute. *)
Lemma find_user_by_short_circuit_witness :
  In "id" User_dict /\
  result (DB.find_user_by [("id", VInt 1); ("bogus", VNone)]) one_user =
  result (DB.find_user_by [("id", VInt 1)]) one_user.
Proof.
  assert (K : In "id" User_dict) by (simpl; auto).
  split; [exact K|].
  destruct (find_user_by_short_circuit "id" (VInt 1) [("bogus", VNone)]
              one_user K) as [G _]; [|exact G].
  exists alice. split; [now left|reflexivity].
Defined.

(** An insertion beside [alice], under another email. *)
Lemma add_user_then_find_witness :
  (forall x, In x (users one_user) -> email x <> VStr "b@x.com") /\
  result (DB.find_user_by [("email", VStr "b@x.com")])
    (after (DB.add_user (VStr "b@x.com") (VBytes "$0pw2")) one_user) =
  inr (mkUser (VInt 2) (VStr "b@x.com") (VBytes "$0pw2") VNone VNone).
Proof.
  assert (F : forall x, In x (users one_user) -> email x <> VStr "b@x.com").
  { intros x [<-|[]]. discriminate. }
  split; [exact F|].
  destruct (add_user_then_find "b@x.com" "$0pw2" one_user F)
    as (nu & R & _ & _ & _ & _ & _ & _ & G & _).
  rewrite G. exact (eq_sym R).
Defined.

(** A session token assigned before a name that is no attribute. *)
Lemma update_user_not_atomic_witness :
  result (DB.update_user (VInt 1) [("session_id", VStr "t")]) one_user =
    inr tt /\
  (forall u, hasattr u "bogus" = false) /\
  result (DB.update_user (VInt 1)
            [("session_id", VStr "t"); ("bogus", VNone);
             ("email", VStr "z@x.com")]) one_user = inl (ValueError "") /\
  users (after (DB.update_user (VInt 1)
                  [("session_id", VStr "t"); ("bogus", VNone);
                   ("email", VStr "z@x.com")]) one_user) =
  users (after (DB.update_user (VInt 1) [("session_id", VStr "t")])
           one_user).
Proof.
  split; [reflexivity|]. split; [intro u; reflexivity|].
  exact (update_user_not_atomic (VInt 1) [("session_id", VStr "t")]
           [("email", VStr "z@x.com")] "bogus" VNone one_user
           eq_refl (fun u => eq_refl)).
Defined.

(** [alice] cannot take the identifier of [bob]. *)
Lemma update_user_id_in_use_witness :
  unique_ids (users two_users) /\
  result (DB.update_user (VInt 1) [("id", VInt 2)]) two_users =
    inl IntegrityError /\
  users (after (DB.update_user (VInt 1) [("id", VInt 2)]) two_users) =
    [alice; bob].
Proof.
  assert (U : unique_ids (users two_users)).
  { unfold unique_ids. simpl.
    constructor; [intros [H|[]]; discriminate|].
    constructor; [intros []|constructor]. }
  split; [exact U|].
  exact (update_user_id_in_use (VInt 1) (VInt 2) two_users [] [bob] alice bob
           U eq_refl eq_refl (or_introl eq_refl) eq_refl).
Defined.

(** Emails on [logged_in]. *)
Lemma reachable_unique_emails_witness :
  reachable logged_in /\ unique_emails (users logged_in).
Proof.
  split; [exact logged_in_reachable|].
  exact (reachable_unique_emails logged_in logged_in_reachable).
Defined.

(** A session on [registered] does not change what [valid_login] says. *)
Lemma token_calls_keep_logins_witness :
  unique_ids (users registered) /\
  result (Auth.valid_login "a@x.com" "pw1")
    (after (Auth.create_session "a@x.com") registered) =
  result (Auth.valid_login "a@x.com" "pw1") registered.
Proof.
  split; [exact registered_unique_ids|].
  exact (token_calls_keep_logins (CreateSession "a@x.com") registered
           registered_unique_ids eq_refl "a@x.com" "pw1").
Defined.

(** The session ["uuid-1"] of [logged_in] across a password reset. *)
Lemma update_password_keeps_sessions_witness :
  unique_ids (users logged_in) /\
  result (Auth.get_user_from_session_id (VStr "uuid-1")) logged_in =
    inr (Some (setattr alice "session_id" (VStr "uuid-1"))) /\
  exists v',
    result (Auth.get_user_from_session_id (VStr "uuid-1"))
      (after (Auth.update_password VNone "pw2") logged_in) = inr (Some v') /\
    email v' = VStr "a@x.com".
Proof.
  split; [exact logged_in_unique_ids|]. split; [reflexivity|].
  destruct (update_password_keeps_sessions VNone "pw2" logged_in
              logged_in_unique_ids (VStr "uuid-1")
              (setattr alice "session_id" (VStr "uuid-1")) eq_refl)
    as (v' & G & _ & Em & _).
  exists v'. split; [exact G|]. now rewrite <- Em.
Defined.

(** Two reset tokens in a row for ["a@x.com"] on [registered]. *)
Lemma second_reset_token_replaces_first_witness :
  uuid4_injective toy_uuid /\
  reachable registered /\
  exists t1 t2,
    result (Auth.update_password (VStr t1) "pw2")
      (after (Auth.get_reset_password_token "a@x.com")
         (after (Auth.get_reset_password_token "a@x.com") registered)) =
      inl (ValueError "User not found") /\
    result (Auth.update_password (VStr t2) "pw2")
      (after (Auth.get_reset_password_token "a@x.com")
         (after (Auth.get_reset_password_token "a@x.com") registered)) =
      inr tt.
Proof.
  split; [exact toy_uuid4_injective|]. split; [exact registered_reachable|].
  destruct (second_reset_token_replaces_first "a@x.com" "pw2" alice
              registered toy_uuid4_injective registered_reachable eq_refl)
    as (t1 & t2 & H).
  cbv zeta in H. destruct H as (_ & _ & G1 & _ & G2).
  exists t1, t2. split; assumption.
Defined.

(** POST /users with the form of ["a@x.com"] on [logged_in]. *)
Lemma views_on_reachable_witness :
  reachable logged_in /\
  answered (fst (App.handle (App.users login_form) logged_in)) /\
  reachable (snd (App.handle (App.users login_form) logged_in)).
Proof.
  split; [exact logged_in_reachable|].
  destruct (views_on_reachable login_form logged_in logged_in_reachable)
    as [G _].
  exact G.
Defined.

(** A login then the profile on [registered]. *)
Lemma login_then_profile_witness :
  result (Auth.valid_login "a@x.com" "pw1") registered = inr true /\
  fst (App.handle (App.profile session_cookie)
         (snd (App.handle (App.login login_form) registered))) =
    App.jsonify 200 [("email", App.JString "a@x.com")].
Proof.
  split; [reflexivity|].
  destruct (login_then_profile login_form session_cookie "a@x.com" "pw1"
              registered toy_uuid4_injective registered_reachable
              eq_refl eq_refl) as (t & Q & G).
  - discriminate.
  - discriminate.
  - reflexivity.
  - discriminate.
  - apply G. simpl in Q. inversion Q. reflexivity.
Defined.

(** A logout then the profile on [logged_in]. *)
Lemma logout_then_profile_witness :
  result (DB.find_user_by [("session_id", VStr "uuid-1")]) logged_in =
    inr (setattr alice "session_id" (VStr "uuid-1")) /\
  fst (App.handle (App.logout session_cookie) logged_in) =
    App.redirect "/" /\
  fst (App.handle (App.profile session_cookie)
         (snd (App.handle (App.logout session_cookie) logged_in))) =
    App.abort 403.
Proof.
  split; [reflexivity|].
  exact (logout_then_profile session_cookie session_cookie "uuid-1"
           (setattr alice "session_id" (VStr "uuid-1")) logged_in
           toy_uuid4_injective logged_in_reachable eq_refl eq_refl eq_refl).
Defined.

(** PUT /reset_password with a new password and no token, on
    [registered]. *)
Lemma reset_without_token_witness :
  verifies_own_digest toy_bcrypt /\
  reachable registered /\
  result (Auth.valid_login "a@x.com" "pw9")
    (snd (App.handle
            (App.update_password (App.mkRequest [("new_password", "pw9")] []))
            registered)) = inr true.
Proof.
  split; [exact toy_verifies_own_digest|].
  split; [exact registered_reachable|].
  destruct (reset_without_token (App.mkRequest [("new_password", "pw9")] [])
              "pw9" registered toy_verifies_own_digest registered_reachable
              eq_refl eq_refl) as (u & e & Iu & Em & _ & _ & L).
  - exists alice. split; [now left|reflexivity].
  - destruct Iu as [<-|[]]. inversion Em; subst e. exact L.
Defined.
